(** * suncasa.io.ndfits: header normalisation and band assembly

    A shallow embedding of [suncasa/io/ndfits.py].  A FITS header is an
    ordered list of cards, the routines that mutate it in place are written
    in a state-and-exception monad over the header object, and numeric
    header values and array samples are IEEE binary64 numbers. *)

From Stdlib Require Import ZArith List String Ascii Bool Lia Floats.
From Stdlib Require Import DecimalString DecimalNat DecimalFacts Uint63 Sorted.
Import ListNotations.
Open Scope list_scope.
Open Scope string_scope.

(** A decimal literal denotes the nearest binary64 number, as in Python. *)
Set Warnings "-inexact-float".

(* ================================================================= *)
(** ** Python strings *)

Module PyStr.

(** [str.upper] on the ASCII range (FITS keywords are ASCII). *)
Definition upper_ascii (c : ascii) : ascii :=
  let n := nat_of_ascii c in
  if (97 <=? n)%nat && (n <=? 122)%nat then ascii_of_nat (n - 32) else c.

Fixpoint upper (s : string) : string :=
  match s with
  | EmptyString => EmptyString
  | String c r => String (upper_ascii c) (upper r)
  end.

(** [s.startswith(p)] *)
Definition startswith (s p : string) : bool := String.prefix p s.

(** [s.replace(old, new)] for a non-empty [old]: non-overlapping
    occurrences, scanned from the left.  [skip] counts the characters of a
    matched occurrence that are still to be dropped. *)
Fixpoint replace_from (old new : string) (skip : nat) (s : string) : string :=
  match s with
  | EmptyString => EmptyString
  | String c r =>
      match skip with
      | S k => replace_from old new k r
      | O =>
          if String.prefix old s
          then new ++ replace_from old new (String.length old - 1) r
          else String c (replace_from old new 0 r)
      end
  end.

Definition replace (old new s : string) : string := replace_from old new 0 s.

(** [s.split(sep)] for a one-character separator. *)
Fixpoint split (sep : ascii) (s : string) : list string :=
  match s with
  | EmptyString => [EmptyString]
  | String c r =>
      if Ascii.eqb c sep then EmptyString :: split sep r
      else match split sep r with
           | x :: xs => String c x :: xs
           | [] => [String c EmptyString]
           end
  end.

(** ['{}'.format(n)] and ['{:d}'.format(n)] for a non-negative integer. *)
Definition fmt_d (n : nat) : string := NilZero.string_of_uint (Nat.to_uint n).

(** ['{:02d}'.format(n)]: zero-padded to width two. *)
Definition fmt_02d (n : nat) : string :=
  if (n <? 10)%nat then "0" ++ fmt_d n else fmt_d n.

End PyStr.

(* ================================================================= *)
(** ** Exceptions and the state monad *)

Inductive exn : Type :=
| KeyError (k : string)
| ValueError (msg : string)
| TypeError
| AttributeError
| IndexError
| OverflowError
| OSError.

Inductive result (A : Type) : Type :=
| Ok (a : A)
| Raise (e : exn).
Arguments Ok {A} a.
Arguments Raise {A} e.

(** A computation over a mutable object of type [S]: it returns a value or
    raises, and in both cases leaves the object in some state. *)
Definition M (S A : Type) : Type := S -> result A * S.

Definition ret {S A : Type} (a : A) : M S A := fun s => (Ok a, s).

Definition raise {S A : Type} (e : exn) : M S A := fun s => (Raise e, s).

Definition bind {S A B : Type} (m : M S A) (f : A -> M S B) : M S B :=
  fun s =>
    match m s with
    | (Ok a, s') => f a s'
    | (Raise e, s') => (Raise e, s')
    end.

Declare Scope py_scope.
Delimit Scope py_scope with py.
Notation "x <- c1 ;; c2" := (bind c1 (fun x => c2))
  (at level 61, c1 at next level, right associativity) : py_scope.
Notation "e1 ;; e2" := (bind e1 (fun _ => e2))
  (at level 61, right associativity) : py_scope.
Open Scope py_scope.

(** [for x in xs: body(x)] *)
Fixpoint for_each {S A : Type} (xs : list A) (body : A -> M S unit) : M S unit :=
  match xs with
  | [] => ret tt
  | x :: r => body x ;; for_each r body
  end.

(** A loop that threads a local accumulator. *)
Fixpoint for_fold {S A B : Type} (xs : list A) (body : A -> B -> M S B) (acc : B)
  : M S B :=
  match xs with
  | [] => ret acc
  | x :: r => acc' <- body x acc ;; for_fold r body acc'
  end.

(* ================================================================= *)
(** ** Header cards *)

(** A header value: integer, float, string or logical. *)
Inductive value : Type :=
| VInt (z : Z)
| VFloat (f : float)
| VStr (s : string)
| VBool (b : bool).

(** The header object ([astropy.io.fits.Header]): the value cards in
    order (commentary and blank cards are left out).  The library stores
    keywords in upper case; here they are compared as stored.  A lookup
    finds the first card of a keyword, an assignment updates that card or
    appends a new one, and [remove] deletes the first card of the keyword or
    raises [KeyError].  The library refuses to store a float that is NaN or
    infinite; [headerfix] and [headersqueeze] store only values they read
    from cards and the constants 0.0 and 1.0, so the refusal is written
    where [wrap] stores a float it has computed ([set_card_checked]). *)
Definition header : Type := list (string * value).

Module Hdr.

Definition keywords (h : header) : list string := map fst h.

Fixpoint get (k : string) (h : header) : option value :=
  match h with
  | [] => None
  | (k', v) :: r => if String.eqb k' k then Some v else get k r
  end.

Fixpoint set (k : string) (v : value) (h : header) : header :=
  match h with
  | [] => [(k, v)]
  | (k', v') :: r =>
      if String.eqb k' k then (k', v) :: r else (k', v') :: set k v r
  end.

Fixpoint del (k : string) (h : header) : option header :=
  match h with
  | [] => None
  | (k', v') :: r =>
      if String.eqb k' k then Some r
      else match del k r with
           | Some r' => Some ((k', v') :: r')
           | None => None
           end
  end.

Definition mem (k : string) (h : header) : bool :=
  match get k h with Some _ => true | None => false end.

(** [header[k]] *)
Definition getitem (k : string) : M header value :=
  fun h => match get k h with
           | Some v => (Ok v, h)
           | None => (Raise (KeyError k), h)
           end.

(** [header[k] = v] *)
Definition setitem (k : string) (v : value) : M header unit :=
  fun h => (Ok tt, set k v h).

(** [header.remove(k)] *)
Definition remove (k : string) : M header unit :=
  fun h => match del k h with
           | Some h' => (Ok tt, h')
           | None => (Raise (KeyError k), h)
           end.

(** [k in header.keys()] *)
Definition contains (k : string) : M header bool :=
  fun h => (Ok (mem k h), h).

(** The keywords a [for k in header] loop visits. *)
Definition keys : M header (list string) :=
  fun h => (Ok (keywords h), h).

End Hdr.

(** [v.startswith(p)] on a header value: only strings have the method. *)
Definition value_startswith {S : Type} (v : value) (p : string) : M S bool :=
  match v with
  | VStr s => ret (PyStr.startswith s p)
  | _ => raise AttributeError
  end.

(* ================================================================= *)
(** ** headerfix *)

(** The body of [for k in header].  The cards the loop appends carry
    keywords that start with [PC0], so visiting them changes nothing and
    the loop is a pass over the keywords present when it starts. *)
Definition headerfix_body (PC_coor : bool) (k : string) (keys2remove : list string)
  : M header (list string) :=
  if PyStr.startswith (PyStr.upper k) "PC" then
    if negb (PyStr.startswith (PyStr.upper k) "PC0") then
      let pcidxs := PyStr.replace "PC" "" (PyStr.upper k) in
      let hd_ := "PC0" ++ pcidxs in
      let keys2remove := (keys2remove ++ [k])%list in
      (if PC_coor then
         match PyStr.split "_" pcidxs with
         | [pcidx0; pcidx1] =>
             if String.eqb pcidx0 pcidx1
             then Hdr.setitem hd_ (VFloat 1.0)
             else Hdr.setitem hd_ (VFloat 0.0)
         | _ => raise (ValueError "unpack")
         end
       else
         v <- Hdr.getitem k ;; Hdr.setitem hd_ v) ;;
      ret keys2remove
    else ret keys2remove
  else ret keys2remove.

Definition headerfix (PC_coor : bool) : M header unit :=
  ks <- Hdr.keys ;;
  keys2remove <- for_fold ks (headerfix_body PC_coor) [] ;;
  for_each keys2remove Hdr.remove.

(* ================================================================= *)
(** ** headerparse *)

Record stokesinfo : Type := {
  axis : option nat;
  headernew : list (string * value)
}.

Definition keys2analy : list string :=
  ["NAXIS"; "CTYPE"; "CRVAL"; "CDELT"; "CRPIX"; "CUNIT"].

(** [range(1, n + 1)] for a header integer [n]. *)
Definition range1 (n : Z) : list nat := seq 1 (Z.to_nat n).

(** A header value used as a Python integer ([bool] is a subclass). *)
Definition as_int {S : Type} (v : value) : M S Z :=
  match v with
  | VInt z => ret z
  | VBool b => ret (Z.b2z b)
  | _ => raise TypeError
  end.

(** A Python [dict] of the new cards, in insertion order. *)
Definition dict_set (k : string) (v : value) (d : list (string * value))
  : list (string * value) := Hdr.set k v d.

(** The body of [for dim in range(1, ndim + 1)]. *)
Definition headerparse_scan (dim : nat) (ax : option nat) : M header (option nat) :=
  let k := "CTYPE" ++ PyStr.fmt_d dim in
  v <- Hdr.getitem k ;;
  b <- value_startswith v "STOKES" ;;
  ret (if b then Some dim else ax).

(** The body of [for k in keys2analy]. *)
Definition headerparse_copy (dim : nat) (k : string) (hn : list (string * value))
  : M header (list (string * value)) :=
  let k_ := k ++ PyStr.fmt_d dim in
  v <- Hdr.getitem k_ ;;
  ret (dict_set (k ++ PyStr.fmt_d 4) v hn).

Definition headerparse : M header stokesinfo :=
  nd <- Hdr.getitem "NAXIS" ;;
  ndim <- as_int nd ;;
  ax <- for_fold (range1 ndim) headerparse_scan None ;;
  match ax with
  | Some dim =>
      hn <- for_fold keys2analy (headerparse_copy dim) [] ;;
      ret {| axis := Some dim; headernew := hn |}
  | None => ret {| axis := None; headernew := [] |}
  end.

(* ================================================================= *)
(** ** Arrays *)

(** A [numpy.ndarray]: its shape and its samples in row-major order. *)
Record ndarray : Type := {
  shape : list nat;
  flat : list float
}.

Definition ndim (a : ndarray) : nat := List.length (shape a).

(** [np.count_nonzero(np.array(dshape) == 1)] *)
Definition count_ones (dshape : list nat) : nat :=
  List.length (filter (fun d => Nat.eqb d 1) dshape).

(** [np.squeeze]: the axes of length one are removed, the samples stay. *)
Definition squeeze (a : ndarray) : ndarray :=
  {| shape := filter (fun d => negb (Nat.eqb d 1)) (shape a); flat := flat a |}.

(* ================================================================= *)
(** ** Numbers *)

(** A Python integer as a float (exact below 2^53 in magnitude). *)
Definition float_of_Z (z : Z) : float :=
  if (z <? 0)%Z then PrimFloat.opp (PrimFloat.of_uint63 (Uint63.of_Z (- z)))
  else PrimFloat.of_uint63 (Uint63.of_Z z).

(** [int(f)] for a float: truncation toward zero; [None] for inf and nan. *)
Definition trunc_float (f : float) : option Z :=
  match Prim2SF f with
  | S754_zero _ => Some 0%Z
  | S754_finite s m e =>
      let mag := if (0 <=? e)%Z then (Zpos m * 2 ^ e)%Z else (Zpos m / 2 ^ (- e))%Z in
      Some (if s then (- mag)%Z else mag)
  | _ => None
  end.

(** A float stored in single precision (the column format [E] of a
    table): rounded to the nearest binary32 number, infinite beyond the
    range. *)
Definition to_float32 (f : float) : float :=
  match Prim2SF f with
  | S754_finite s m e => SF2Prim (binary_round 24 128 s m e)
  | _ => f
  end.

(** [float(v)] of a header value, as numpy stores it in a float array. *)
Definition as_float {S : Type} (v : value) : M S float :=
  match v with
  | VInt z => ret (float_of_Z z)
  | VFloat f => ret f
  | VBool b => ret (if b then 1.0%float else 0.0%float)
  | VStr _ => raise (ValueError "float")
  end.

(** [int(v)] of a header value.  A string is read as a plain decimal
    numeral (Python also accepts blanks, a plus sign and underscores). *)
Definition py_int {S : Type} (v : value) : M S Z :=
  match v with
  | VInt z => ret z
  | VBool b => ret (Z.b2z b)
  | VFloat f =>
      match trunc_float f with
      | Some z => ret z
      | None => raise (ValueError "int")
      end
  | VStr s =>
      if String.eqb s "" || String.eqb s "-" then raise (ValueError "int")
      else match NilEmpty.int_of_string s with
           | Some d => ret (Z.of_int d)
           | None => raise (ValueError "int")
           end
  end.

(** [a + b] and [a * b] and [a - b] on numeric header values: integers stay
    integers, anything else is computed in floats. *)
Definition num_op {S : Type} (fz : Z -> Z -> Z) (ff : float -> float -> float)
  (a b : value) : M S value :=
  match a, b with
  | VStr _, _ | _, VStr _ => raise TypeError
  | VFloat _, _ | _, VFloat _ =>
      x <- as_float a ;; y <- as_float b ;; ret (VFloat (ff x y))
  | _, _ => x <- as_int a ;; y <- as_int b ;; ret (VInt (fz x y))
  end.

(** The value of a 64-bit integer computation that overflows: numpy wraps
    around. *)
Definition int64 (z : Z) : Z := ((z + 2 ^ 63) mod 2 ^ 64 - 2 ^ 63)%Z.

Definition in_int64 (z : Z) : bool := ((- 2 ^ 63 <=? z) && (z <? 2 ^ 63))%Z.

(** [a + b] and [a * b] where one operand is an entry of a numpy array of
    64-bit integers or of floats and the other a header value: integers are
    computed in 64 bits, anything else in floats.  An integer card outside
    the 64-bit range is refused (OverflowError, as numpy 2 does; older
    versions change the type of the array instead). *)
Definition arr_op {S : Type} (fz : Z -> Z -> Z) (ff : float -> float -> float)
  (a b : value) : M S value :=
  match a, b with
  | VStr _, _ | _, VStr _ => raise TypeError
  | VFloat _, _ | _, VFloat _ =>
      x <- as_float a ;; y <- as_float b ;; ret (VFloat (ff x y))
  | _, _ =>
      x <- as_int a ;; y <- as_int b ;;
      if in_int64 x && in_int64 y then ret (VInt (int64 (fz x y)))
      else raise OverflowError
  end.

Definition arr_add {S : Type} := @arr_op S Z.add PrimFloat.add.
Definition arr_mul {S : Type} := @arr_op S Z.mul PrimFloat.mul.

Definition num_add {S : Type} := @num_op S Z.add PrimFloat.add.
Definition num_sub {S : Type} := @num_op S Z.sub PrimFloat.sub.
Definition num_mul {S : Type} := @num_op S Z.mul PrimFloat.mul.

(** [v == n] for a header value and an integer literal. *)
Definition eq_int (v : value) (n : Z) : bool :=
  match v with
  | VInt z => (z =? n)%Z
  | VFloat f => PrimFloat.eqb f (float_of_Z n)
  | VBool b => (Z.b2z b =? n)%Z
  | VStr _ => false
  end.

(** ['{0:d}'.format(z)] *)
Definition fmt_Z (z : Z) : string :=
  if (z <? 0)%Z then "-" ++ PyStr.fmt_d (Z.to_nat (- z)) else PyStr.fmt_d (Z.to_nat z).

(** [np.diff] *)
Fixpoint diff {A : Type} (sub : A -> A -> A) (l : list A) : list A :=
  match l with
  | a :: ((b :: _) as r) => sub b a :: diff sub r
  | _ => []
  end.

(** The sum numpy computes over a contiguous array of floats.  Fewer than
    eight entries are added from the left; up to 128 entries are added into
    eight running sums, which are then added in pairs, the entries left over
    being added last; a longer array is cut in two, the first part a
    multiple of eight long, and the sums of the parts are added.  [fuel]
    bounds the depth of the cutting and the length of the array is enough. *)
Definition sum8 (r : list float) : float :=
  match r with
  | [r0; r1; r2; r3; r4; r5; r6; r7] =>
      PrimFloat.add
        (PrimFloat.add (PrimFloat.add r0 r1) (PrimFloat.add r2 r3))
        (PrimFloat.add (PrimFloat.add r4 r5) (PrimFloat.add r6 r7))
  | _ => 0%float
  end.

Fixpoint add_rows (rows : nat) (r l : list float) : list float * list float :=
  match rows with
  | O => (r, l)
  | S k =>
      add_rows k (map (fun p => PrimFloat.add (fst p) (snd p)) (combine r (firstn 8 l)))
               (skipn 8 l)
  end.

Fixpoint pairwise_sum (fuel : nat) (l : list float) : float :=
  let n := List.length l in
  if (n <? 8)%nat then fold_left PrimFloat.add l 0%float
  else if (n <=? 128)%nat then
    let (r, rest) := add_rows (n / 8 - 1) (firstn 8 l) (skipn 8 l) in
    fold_left PrimFloat.add rest (sum8 r)
  else
    match fuel with
    | O => 0%float
    | S k =>
        let n2 := (n / 2 - (n / 2) mod 8)%nat in
        PrimFloat.add (pairwise_sum k (firstn n2 l)) (pairwise_sum k (skipn n2 l))
    end.

Definition np_sum (l : list float) : float := pairwise_sum (List.length l) l.

(** [np.nanmean] of a one-dimensional array: NaN entries count as zero in
    the sum, which is divided by the number of entries that are not NaN
    (the result is NaN when there is none).  The sign of a sum that is zero
    is left as [np_sum] gives it. *)
Definition nanmean (l : list float) : float :=
  let arr := map (fun x => if PrimFloat.is_nan x then 0%float else x) l in
  let cnt := List.length (filter (fun x => negb (PrimFloat.is_nan x)) l) in
  PrimFloat.div (np_sum arr) (float_of_Z (Z.of_nat cnt)).

(** The order numpy sorts floats in: NaN last. *)
Definition np_lt (a b : float) : bool :=
  PrimFloat.ltb a b || (PrimFloat.is_nan b && negb (PrimFloat.is_nan a)).

Fixpoint insert_by {A : Type} (lt : A -> A -> bool) (x : A) (l : list A) : list A :=
  match l with
  | [] => [x]
  | y :: r => if lt x y then x :: l else y :: insert_by lt x r
  end.

Definition sort_by {A : Type} (lt : A -> A -> bool) (l : list A) : list A :=
  fold_left (fun acc x => insert_by lt x acc) l [].

(** [np.argsort] (positions are unique when the keys are distinct). *)
Definition argsort (l : list float) : list nat :=
  map fst (sort_by (fun a b => np_lt (snd a) (snd b)) (combine (seq 0 (List.length l)) l)).

(** [sorted] on path names. *)
Definition sorted (l : list string) : list string := sort_by String.ltb l.

(* ================================================================= *)
(** ** Array indexing and assignment *)

Definition size (dims : list nat) : nat := fold_right Nat.mul 1 dims.

Definition block (off len : nat) (a : list float) : list float :=
  firstn len (skipn off a).

Definition set_block (off : nat) (src a : list float) : list float :=
  (firstn off a ++ src ++ skipn (off + List.length src) a)%list.

(** [np.zeros(dims)] *)
Definition zeros (dims : list nat) : ndarray :=
  {| shape := dims; flat := repeat 0.0%float (size dims) |}.

(** [a[np.isnan(a)] = x] *)
Definition fill_nan (x : float) (a : ndarray) : ndarray :=
  {| shape := shape a;
     flat := map (fun s => if PrimFloat.is_nan s then x else s) (flat a) |}.

(** The samples of a source of shape [ss] laid out over a target of shape
    [ts] of the same rank, an axis of length one being repeated. *)
Fixpoint spread (ss ts : list nat) (src : list float) : list float :=
  match ss, ts with
  | s :: ss', t :: ts' =>
      let chunk := size ss' in
      if Nat.eqb s t
      then List.concat (map (fun i => spread ss' ts' (block (i * chunk) chunk src)) (seq 0 t))
      else List.concat (repeat (spread ss' ts' src) t)
  | _, _ => src
  end.

Fixpoint compatible (ss ts : list nat) : bool :=
  match ss, ts with
  | [], [] => true
  | s :: ss', t :: ts' => (Nat.eqb s t || Nat.eqb s 1) && compatible ss' ts'
  | _, _ => false
  end.

(** Leading axes of length one beyond the target rank are dropped. *)
Fixpoint strip_ones (extra : nat) (ss : list nat) : option (list nat) :=
  match extra, ss with
  | O, _ => Some ss
  | S e, 1 :: r => strip_ones e r
  | S _, _ => None
  end.

(** The value of an assignment [target[...] = src], broadcast to the shape
    of the target; [None] when numpy cannot broadcast. *)
Definition broadcast_to (ts : list nat) (src : ndarray) : option (list float) :=
  let n := List.length ts in
  let m := List.length (shape src) in
  match strip_ones (m - n) (shape src) with
  | None => None
  | Some ss =>
      let ss := (repeat 1 (n - List.length ss) ++ ss)%list in
      if compatible ss ts then Some (spread ss ts (flat src)) else None
  end.

(** [a[i, :, :]] for a three-dimensional [a]. *)
Definition index1 {S : Type} (a : ndarray) (i : nat) : M S ndarray :=
  match shape a with
  | [s0; s1; s2] =>
      if (i <? s0)%nat
      then ret {| shape := [s1; s2]; flat := block (i * (s1 * s2)) (s1 * s2) (flat a) |}
      else raise IndexError
  | _ => raise IndexError
  end.

(** [a[i, j, :, :]]: [a] has at least four axes. *)
Definition index2 {S : Type} (a : ndarray) (i j : nat) : M S ndarray :=
  match shape a with
  | s0 :: s1 :: ((_ :: _ :: _) as rest) =>
      if (i <? s0)%nat && (j <? s1)%nat
      then ret {| shape := rest;
                  flat := block ((i * s1 + j) * size rest) (size rest) (flat a) |}
      else raise IndexError
  | _ => raise IndexError
  end.

(** [cube[pidx, b, :, :] = src] on a four-dimensional cube. *)
Definition assign_plane {S : Type} (cube : ndarray) (pidx b : nat) (src : ndarray)
  : M S ndarray :=
  match shape cube with
  | [npol; nbd; ny; nx] =>
      if (pidx <? npol)%nat && (b <? nbd)%nat then
        match broadcast_to [ny; nx] src with
        | Some v =>
            ret {| shape := shape cube;
                   flat := set_block ((pidx * nbd + b) * (ny * nx)) v (flat cube) |}
        | None => raise (ValueError "broadcast")
        end
      else raise IndexError
  | _ => raise IndexError
  end.

(** [cube[pidx, b, :, :]] *)
Definition plane (cube : ndarray) (pidx b : nat) : list float :=
  match shape cube with
  | [npol; nbd; ny; nx] => block ((pidx * nbd + b) * (ny * nx)) (ny * nx) (flat cube)
  | _ => []
  end.

(** [cube[pidx, ...] = cube[pidx, ind]]: the right-hand side is a copy of
    shape [(len(ind), ny, nx)]. *)
Definition reorder_bands {S : Type} (cube : ndarray) (pidx : nat) (ind : list nat)
  : M S ndarray :=
  match shape cube with
  | [npol; nbd; ny; nx] =>
      if (pidx <? npol)%nat && forallb (fun j => (j <? nbd)%nat) ind then
        let rhs := {| shape := [List.length ind; ny; nx];
                      flat := List.concat (map (fun j => plane cube pidx j) ind) |} in
        match broadcast_to [nbd; ny; nx] rhs with
        | Some v =>
            ret {| shape := shape cube;
                   flat := set_block (pidx * (nbd * (ny * nx))) v (flat cube) |}
        | None => raise (ValueError "broadcast")
        end
      else raise IndexError
  | _ => raise IndexError
  end.

(* ================================================================= *)
(** ** headersqueeze *)

Definition keys2chng : list string :=
  ["NAXIS"; "CTYPE"; "CRVAL"; "CDELT"; "CRPIX"; "CUNIT"].

Definition pc_key (i j : nat) : string :=
  "PC" ++ PyStr.fmt_02d i ++ "_" ++ PyStr.fmt_d j.

(** The statements run for one key prefix [k] of one axis. *)
Definition squeeze_key (dim idx idx_nonsdim : nat) (k : string) : M header unit :=
  let k_ := k ++ PyStr.fmt_d (idx + 1) in
  v <- Hdr.getitem k_ ;;
  Hdr.remove k_ ;;
  if (1 <? dim)%nat then
    Hdr.setitem (k ++ PyStr.fmt_d idx_nonsdim) v
  else if String.eqb k "CTYPE" then
    b <- value_startswith v "STOKES" ;;
    if b then
      c <- Hdr.getitem ("CRVAL" ++ PyStr.fmt_d (idx + 1)) ;;
      Hdr.setitem "STOKES" c
    else ret tt
  else ret tt.

(** [for idx, dim in enumerate(dshape[::-1])], first loop. *)
Fixpoint squeeze_axes (dims : list nat) (idx idx_nonsdim : nat) : M header unit :=
  match dims with
  | [] => ret tt
  | dim :: rest =>
      let idx_nonsdim := if (1 <? dim)%nat then S idx_nonsdim else idx_nonsdim in
      for_each keys2chng (squeeze_key dim idx idx_nonsdim) ;;
      squeeze_axes rest (S idx) idx_nonsdim
  end.

(** The inner loop over [idx2, dim2] for a fixed [idx1, dim1]. *)
Fixpoint squeeze_pc_row (dims : list nat) (dim1 idx1 idx_nonsdim1 idx2 idx_nonsdim2 : nat)
  : M header unit :=
  match dims with
  | [] => ret tt
  | dim2 :: rest =>
      let idx_nonsdim2 := if (1 <? dim2)%nat then S idx_nonsdim2 else idx_nonsdim2 in
      let k_ := pc_key (idx1 + 1) (idx2 + 1) in
      present <- Hdr.contains k_ ;;
      (if present then
         v <- Hdr.getitem k_ ;;
         Hdr.remove k_ ;;
         if (1 <? dim1)%nat && (1 <? dim2)%nat
         then Hdr.setitem (pc_key idx_nonsdim1 idx_nonsdim2) v
         else ret tt
       else ret tt) ;;
      squeeze_pc_row rest dim1 idx1 idx_nonsdim1 (S idx2) idx_nonsdim2
  end.

(** The outer loop over [idx1, dim1]; [all] is [dshape[::-1]]. *)
Fixpoint squeeze_pc (dims all : list nat) (idx1 idx_nonsdim1 : nat) : M header unit :=
  match dims with
  | [] => ret tt
  | dim1 :: rest =>
      let idx_nonsdim1 := if (1 <? dim1)%nat then S idx_nonsdim1 else idx_nonsdim1 in
      squeeze_pc_row all dim1 idx1 idx_nonsdim1 0 0 ;;
      squeeze_pc rest all (S idx1) idx_nonsdim1
  end.

(** [headersqueeze(header, data)]: the header object is updated in place
    and is the header that is returned; the array returned is a new view. *)
Definition headersqueeze (data : ndarray) : M header ndarray :=
  let dshape := shape data in
  let ndim := ndim data in
  let nsdim := count_ones dshape in
  let nonsdim := (ndim - nsdim)%nat in
  if Nat.eqb nsdim 0 then ret data
  else
    squeeze_axes (rev dshape) 0 0 ;;
    squeeze_pc (rev dshape) (rev dshape) 0 0 ;;
    Hdr.setitem "NAXIS" (VInt (Z.of_nat nonsdim)) ;;
    ret (squeeze data).

(* ================================================================= *)
(** ** Files and the console *)

(** What a record of a container carries besides its header. *)
Inductive payload : Type :=
| NoData
| Image (a : ndarray)
| Table (cols : list (string * list float)).

(** One record (HDU); [hdu_comp] holds the compression options of a
    compressed image record. *)
Record hdu : Type := {
  hdu_header : header;
  hdu_payload : payload;
  hdu_comp : option (list (string * value))
}.

Definition hdulist : Type := list hdu.

Definition PrimaryHDU (h : header) (d : payload) : hdu :=
  {| hdu_header := h; hdu_payload := d; hdu_comp := None |}.
Definition CompImageHDU (h : header) (d : ndarray) (kwargs : list (string * value)) : hdu :=
  {| hdu_header := h; hdu_payload := Image d; hdu_comp := Some kwargs |}.
Definition BinTableHDU (cols : list (string * list float)) : hdu :=
  {| hdu_header := []; hdu_payload := Table cols; hdu_comp := None |}.

(** A line printed to the console. *)
Inductive line : Type :=
| Text (s : string)
| Pair (k : string) (v : value)
| Exn (e : exn).

Record world : Type := {
  files : list (string * hdulist);
  stdout : list line
}.

Module Fs.

Fixpoint lookup (path : string) (fs : list (string * hdulist)) : option hdulist :=
  match fs with
  | [] => None
  | (p, c) :: r => if String.eqb p path then Some c else lookup path r
  end.

Definition delete (path : string) (fs : list (string * hdulist)) : list (string * hdulist) :=
  filter (fun pc => negb (String.eqb (fst pc) path)) fs.

(** [os.path.exists(path)] *)
Definition exists_ (path : string) : M world bool :=
  fun w => (Ok (match lookup path (files w) with Some _ => true | None => false end), w).

(** [fits.open(path)] *)
Definition open (path : string) : M world hdulist :=
  fun w => match lookup path (files w) with
           | Some c => (Ok c, w)
           | None => (Raise OSError, w)
           end.

(** [hdul.writeto(path)]: refuses to overwrite. *)
Definition writeto (path : string) (c : hdulist) : M world unit :=
  fun w => match lookup path (files w) with
           | Some _ => (Raise OSError, w)
           | None => (Ok tt, {| files := (path, c) :: files w; stdout := stdout w |})
           end.

(** [os.system('cp src dst')]: the shell's failure is not an exception. *)
Definition cp (src dst : string) : M world unit :=
  fun w => match lookup src (files w) with
           | Some c =>
               if String.eqb src dst then (Ok tt, w)
               else (Ok tt, {| files := (dst, c) :: delete dst (files w);
                               stdout := stdout w |})
           | None => (Ok tt, w)
           end.

(** [os.system('rm -rf path')] *)
Definition rm (path : string) : M world unit :=
  fun w => (Ok tt, {| files := delete path (files w); stdout := stdout w |}).

(** [print(...)] *)
Definition print (l : line) : M world unit :=
  fun w => (Ok tt, {| files := files w; stdout := (stdout w ++ [l])%list |}).

End Fs.

(** [hdul[-1]] *)
Definition last_hdu {S : Type} (hl : hdulist) : M S hdu :=
  match rev hl with
  | u :: _ => ret u
  | [] => raise IndexError
  end.

(** [u.data.ndim]: a table is a one-dimensional record array, and a
    record without data has no [ndim]. *)
Definition data_ndim {S : Type} (u : hdu) : M S nat :=
  match hdu_payload u with
  | Image a => ret (ndim a)
  | Table _ => ret 1%nat
  | NoData => raise AttributeError
  end.

(** [u.data] used as an image; a table row has no second axis. *)
Definition data_image {S : Type} (u : hdu) : M S ndarray :=
  match hdu_payload u with
  | Image a => ret a
  | Table _ => raise IndexError
  | NoData => raise AttributeError
  end.

(* ================================================================= *)
(** ** The objects a call works on *)

(** The array and header objects of a call, and the world around it.  For
    [write] they are the caller's own objects. *)
Record frame : Type := {
  f_data : ndarray;
  f_header : header;
  f_world : world
}.

Definition on_header {A : Type} (m : M header A) : M frame A :=
  fun fr =>
    let (r, h') := m (f_header fr) in
    (r, {| f_data := f_data fr; f_header := h'; f_world := f_world fr |}).

Definition on_world {A : Type} (m : M world A) : M frame A :=
  fun fr =>
    let (r, w') := m (f_world fr) in
    (r, {| f_data := f_data fr; f_header := f_header fr; f_world := w' |}).

Definition get_data : M frame ndarray := fun fr => (Ok (f_data fr), fr).
Definition get_header : M frame header := fun fr => (Ok (f_header fr), fr).
Definition put_data (a : ndarray) : M frame unit :=
  fun fr => (Ok tt, {| f_data := a; f_header := f_header fr; f_world := f_world fr |}).

(** [try: m except: handler] *)
Definition try_except {S A : Type} (m : M S A) (handler : exn -> M S A) : M S A :=
  fun s =>
    match m s with
    | (Ok a, s') => (Ok a, s')
    | (Raise e, s') => handler e s'
    end.

(** [for idx, x in enumerate(xs)] *)
Definition enumerate {A : Type} (xs : list A) : list (nat * A) :=
  combine (seq 0 (List.length xs)) xs.

(* ================================================================= *)
(** ** write, read and wrap *)

Section Externals.

(** [os.path.expanduser] *)
Variable expanduser : string -> string.
(** [mask.astype(np.uint8)] *)
Variable astype_uint8 : ndarray -> ndarray.
(** The opaque spatial reference and [smap.Map(slice, header)]; [None]
    when the constructor raises. *)
Variable refmap : Type.
Variable Map : ndarray -> header -> option refmap.
(** [Time(date).strftime('{obs}.%Y%m%dT%H%M%S.%f.allbd.fits')]; [None] when
    the date does not parse. *)
Variable allbd_name : value -> value -> option string.

(** *** write *)

(** The test [kwargs is {}] compares object identities and never holds,
    so the options are passed on as given.  The record constructors copy
    the header they are given. *)
Definition write (fname : string) (mask : option ndarray) (fix_invalid : bool)
  (filled_value : float) (kwargs : list (string * value)) : M frame Z :=
  data <- get_data ;;
  let dshape := shape data in
  let dim := ndim data in
  if (3 <? dim - count_ones dshape)%nat then ret 0%Z
  else
    (if fix_invalid then put_data (fill_nan filled_value data) else ret tt) ;;
    let fname := expanduser fname in
    data <- get_data ;;
    data' <- on_header (headersqueeze data) ;;
    header <- get_header ;;
    let hdunew := CompImageHDU header data' kwargs in
    let hdulnew :=
      match mask with
      | None => [PrimaryHDU [] NoData; hdunew]
      | Some m => [PrimaryHDU [] NoData; hdunew; CompImageHDU [] (astype_uint8 m) kwargs]
      end in
    on_world (Fs.writeto fname hdulnew) ;;
    ret 1%Z.

(** *** read *)

(** A value stored in the [meta] dictionary. *)
Inductive pyval : Type :=
| PNone
| PInt (z : Z)
| PVal (v : value)
| PArr (a : list value)
| PNames (l : list string)
| PHeader (h : header)
| PMap (m : refmap).

Definition meta : Type := list (string * pyval).

Fixpoint meta_get (k : string) (m : meta) : option pyval :=
  match m with
  | [] => None
  | (k', v) :: r => if String.eqb k' k then Some v else meta_get k r
  end.

Fixpoint meta_set (k : string) (v : pyval) (m : meta) : meta :=
  match m with
  | [] => [(k, v)]
  | (k', v') :: r =>
      if String.eqb k' k then (k', v) :: r else (k', v') :: meta_set k v r
  end.

(** [header[k]] on a header that is only read. *)
Definition card {S : Type} (h : header) (k : string) : M S value :=
  match Hdr.get k h with
  | Some v => ret v
  | None => raise (KeyError k)
  end.

(** The local variables the axis scan of [read] sets. *)
Record axes : Type := {
  freq_axis : option nat;
  pol_axis : option nat;
  npol : value;
  nfreq_fits : value
}.

(** The body of [for idx in range(ndim)]. *)
Definition read_axis (header : header) (ndim idx : nat) (ax : axes) : M world axes :=
  v <- card header ("CTYPE" ++ PyStr.fmt_d (idx + 1)) ;;
  isf <- value_startswith v "FREQ" ;;
  ax <- (if isf : bool then
           n <- card header ("NAXIS" ++ PyStr.fmt_d (idx + 1)) ;;
           ret {| freq_axis := Some (ndim - (idx + 1))%nat; pol_axis := pol_axis ax;
                  npol := npol ax; nfreq_fits := n |}
         else ret ax) ;;
  iss <- value_startswith v "STOKES" ;;
  if iss : bool then
    n <- card header ("NAXIS" ++ PyStr.fmt_d (idx + 1)) ;;
    ret {| freq_axis := freq_axis ax; pol_axis := Some (ndim - (idx + 1))%nat;
           npol := n; nfreq_fits := nfreq_fits ax |}
  else ret ax.

(** [crval + cdelt * np.arange(n)] *)
Definition axis_values (crval cdelt n : value) : M world (list value) :=
  len <- as_int n ;;
  for_fold (seq 0 (Z.to_nat len))
    (fun i acc =>
       t <- arr_mul cdelt (VInt (Z.of_nat i)) ;;
       x <- arr_add crval t ;;
       ret (acc ++ [x])%list)
    [].

(** [np.ones_like(a) * cdelt] *)
Definition ones_times (a : list value) (cdelt : value) : M world (list value) :=
  for_fold a
    (fun x acc =>
       let one := match x with VFloat _ => VFloat 1.0 | _ => VInt 1 end in
       y <- arr_mul one cdelt ;;
       ret (acc ++ [y])%list)
    [].

Definition stokesval : list (string * string) :=
  [("1", "I"); ("2", "Q"); ("3", "U"); ("4", "V"); ("-1", "RR"); ("-2", "LL");
   ("-3", "RL"); ("-4", "LR"); ("-5", "XX"); ("-6", "YY"); ("-7", "XY"); ("-8", "YX")].

Fixpoint assoc (k : string) (d : list (string * string)) : option string :=
  match d with
  | [] => None
  | (k', v) :: r => if String.eqb k' k then Some v else assoc k r
  end.

(** [[stokesval['{0:d}'.format(int(p))] for p in pol_idxs]] *)
Definition pol_names_of (pol_idxs : list value) : M world (list string) :=
  for_fold pol_idxs
    (fun p acc =>
       z <- py_int p ;;
       match assoc (fmt_Z z) stokesval with
       | Some name => ret (acc ++ [name])%list
       | None => raise (KeyError (fmt_Z z))
       end)
    [].

(** [a[tuple(slc)]] where [slc] is [slice(0, 1)] on the axes marked in
    [cut] and [slice(None)] elsewhere. *)
Fixpoint slice_first (cut : list bool) (dims : list nat) (src : list float) : list float :=
  match cut, dims with
  | c :: cut', d :: dims' =>
      let chunk := size dims' in
      let rows := if c : bool then Nat.min 1 d else d in
      List.concat (map (fun i => slice_first cut' dims' (block (i * chunk) chunk src))
                       (seq 0 rows))
  | _, _ => src
  end.

Definition slice_array (cut : list bool) (a : ndarray) : ndarray :=
  {| shape := map (fun cd => if fst cd : bool then Nat.min 1 (snd cd) else snd cd)
                  (combine cut (shape a));
     flat := slice_first cut (shape a) (flat a) |}.

(** [slc] after [slc[freq_axis] = slc[pol_axis] = slice(0, 1)]. *)
Definition slc_of (ndim : nat) (ax : axes) : list bool :=
  map (fun i => match freq_axis ax with Some f => Nat.eqb i f | None => false end
             || match pol_axis ax with Some p => Nat.eqb i p | None => false end)
      (seq 0 ndim).

(** The body of the [try] block for one record. *)
Definition read_hdu (u : hdu) : M world (meta * ndarray) :=
  ndim <- data_ndim u ;;
  let header := hdu_header u in
  ax <- for_fold (seq 0 ndim) (read_axis header ndim)
          {| freq_axis := None; pol_axis := None; npol := VInt 1; nfreq_fits := VInt 1 |} ;;
  let meta : meta := [] in
  meta <- match freq_axis ax with
          | Some f =>
              crval <- card header ("CRVAL" ++ PyStr.fmt_d (ndim - f)) ;;
              cdelt <- card header ("CDELT" ++ PyStr.fmt_d (ndim - f)) ;;
              n <- card header ("NAXIS" ++ PyStr.fmt_d (ndim - f)) ;;
              cf <- axis_values crval cdelt n ;;
              let meta := meta_set "ref_cfreqs" (PArr cf) meta in
              cdelt <- card header ("CDELT" ++ PyStr.fmt_d (ndim - f)) ;;
              fd <- ones_times cf cdelt ;;
              ret (meta_set "ref_freqdelts" (PArr fd) meta)
          | None =>
              r <- card header "RESTFRQ" ;;
              ret (meta_set "ref_cfreqs" (PArr [r]) meta)
          end ;;
  meta <- match pol_axis ax with
          | Some p =>
              crval <- card header ("CRVAL" ++ PyStr.fmt_d (ndim - p)) ;;
              cdelt <- card header ("CDELT" ++ PyStr.fmt_d (ndim - p)) ;;
              n <- card header ("NAXIS" ++ PyStr.fmt_d (ndim - p)) ;;
              pi <- axis_values crval cdelt n ;;
              let meta := meta_set "pol_idxs" (PArr pi) meta in
              names <- pol_names_of pi ;;
              ret (meta_set "pol_names" (PNames names) meta)
          | None => ret meta
          end ;;
  a <- data_image u ;;
  let a := fill_nan 0.0 a in
  match Map (squeeze (slice_array (slc_of ndim ax) a)) header with
  | None => raise (ValueError "Map")
  | Some rmap =>
      let data := a in
      let meta := meta_set "header" (PHeader header) meta in
      let meta := meta_set "refmap" (PMap rmap) meta in
      let meta := meta_set "naxis" (PInt (Z.of_nat ndim)) meta in
      let meta := meta_set "hgln_axis" (PInt (Z.of_nat ndim - 1)) meta in
      nx <- card header "NAXIS1" ;;
      let meta := meta_set "nx" (PVal nx) meta in
      let meta := meta_set "hglt_axis" (PInt (Z.of_nat ndim - 2)) meta in
      ny <- card header "NAXIS2" ;;
      let meta := meta_set "ny" (PVal ny) meta in
      let meta := meta_set "freq_axis"
                    (match freq_axis ax with Some f => PInt (Z.of_nat f) | None => PNone end)
                    meta in
      let meta := meta_set "nfreq" (PVal (nfreq_fits ax)) meta in
      let meta := meta_set "pol_axis"
                    (match pol_axis ax with Some p => PInt (Z.of_nat p) | None => PNone end)
                    meta in
      let meta := meta_set "npol" (PVal (npol ax)) meta in
      ret (meta, data)
  end.

(** [for i, hdu in enumerate(hdulist): try: ...; break; except: ...]:
    the first record whose [try] block completes, or the empty summary. *)
Fixpoint read_loop (verbose : bool) (us : list (nat * hdu)) : M world (meta * option ndarray) :=
  match us with
  | [] => ret ([], None)
  | (i, u) :: rest =>
      try_except
        (r <- read_hdu u ;; ret (fst r, Some (snd r)))
        (fun e =>
           (if verbose then
              Fs.print (Exn e) ;;
              Fs.print (Text ("skipped HDU " ++ PyStr.fmt_d i))
            else ret tt) ;;
           read_loop verbose rest)
  end.

(** The optional record selector.  The lenient [verify] pass over the
    records is taken to leave them as read. *)
Inductive hdus_sel : Type :=
| HdusInt (i : Z)
| HdusList (l : list Z).

(** [l[i]] with a Python index. *)
Definition py_nth {S A : Type} (l : list A) (i : Z) : M S A :=
  let n := Z.of_nat (List.length l) in
  let j := if (i <? 0)%Z then (i + n)%Z else i in
  if (j <? 0)%Z then raise IndexError
  else match nth_error l (Z.to_nat j) with
       | Some x => ret x
       | None => raise IndexError
       end.

(** [hasattr(u.data, 'cfreqs')] and [u.data[name]] *)
Definition table_column (u : hdu) (name : string) : option (list float) :=
  match hdu_payload u with
  | Table cols =>
      (fix find (c : list (string * list float)) :=
         match c with
         | [] => None
         | (n, col) :: r => if String.eqb n name then Some col else find r
         end) cols
  | _ => None
  end.

Definition read (filepath : string) (hdus : option hdus_sel) (verbose : bool)
  : M world (meta * option ndarray) :=
  hdulist <- Fs.open filepath ;;
  hdulist <- match hdus with
             | None => ret hdulist
             | Some (HdusInt i) => u <- py_nth hdulist i ;; ret [u]
             | Some (HdusList l) =>
                 for_fold l (fun i acc => u <- py_nth hdulist i ;; ret (acc ++ [u])%list) []
             end ;;
  r <- read_loop verbose (enumerate hdulist) ;;
  let '(meta, data) := r in
  lastu <- last_hdu hdulist ;;
  match table_column lastu "cfreqs" with
  | Some cf =>
      (if verbose then
         Fs.print (Text "FITS file contains an additional frequency axis. Update the frequency information in cfreqs and cdelts. Ignore the original version with equal spacings.")
       else ret tt) ;;
      let meta := meta_set "ref_cfreqs" (PArr (map VFloat cf)) meta in
      match table_column lastu "cdelts" with
      | Some cd => ret (meta_set "ref_freqdelts" (PArr (map VFloat cd)) meta, data)
      | None => raise (KeyError "cdelts")
      end
  | None =>
      (if verbose then
         Fs.print (Text "FITS file does not have an additional frequency axis. Use the original version with equal spacings.")
       else ret tt) ;;
      ret (meta, data)
  end.

(** *** wrap *)

(** The list of paths: a Python list or a numpy array of strings. *)
Inductive pathlist : Type :=
| PyList (l : list string)
| NpArray (l : list string).

Definition paths (p : pathlist) : list string :=
  match p with PyList l => l | NpArray l => l end.

(** The [try] block that sorts the paths by [CRVAL3]; indexing a Python
    list with the array [pos] raises. *)
Definition sort_probe (fitsfiles : pathlist) : M world (list string) :=
  freqs <- for_fold (paths fitsfiles)
             (fun f acc =>
                hl <- Fs.open f ;;
                u <- py_nth hl 0 ;;
                v <- card (hdu_header u) "CRVAL3" ;;
                x <- as_float v ;;
                ret (acc ++ [x])%list)
             [] ;;
  let pos := argsort freqs in
  match fitsfiles with
  | NpArray l =>
      for_fold pos
        (fun i acc =>
           match nth_error l i with
           | Some f => ret (acc ++ [f])%list
           | None => raise IndexError
           end)
        []
  | PyList _ => raise TypeError
  end.

(** [a[ind]] for an index array. *)
Definition take {S : Type} (a : list float) (ind : list nat) : M S (list float) :=
  for_fold ind
    (fun i acc =>
       match nth_error a i with
       | Some x => ret (acc ++ [x])%list
       | None => raise IndexError
       end)
    [].

(** [np.array(l)] for a list of numeric header values. *)
Definition float_array {S : Type} (l : list value) : M S (list float) :=
  for_fold l (fun v acc => x <- as_float v ;; ret (acc ++ [x])%list) [].

(** [np.nanmean(np.diff(cfreqs) / np.diff(idx_fits_exist))] *)
Definition mean_spacing (cfreqs : list float) (idx_fits_exist : list nat) : float :=
  nanmean (map (fun p => PrimFloat.div (fst p) (float_of_Z (snd p)))
               (combine (diff PrimFloat.sub cfreqs)
                        (diff Z.sub (map Z.of_nat idx_fits_exist)))).

(** [np.zeros((npol, nbd, ny, nx))] from Python integers. *)
Definition zeros4 {S : Type} (npol nbd ny nx : Z) : M S ndarray :=
  if (npol <? 0)%Z || (nbd <? 0)%Z || (ny <? 0)%Z || (nx <? 0)%Z
  then raise (ValueError "negative dimensions are not allowed")
  else ret (zeros [Z.to_nat npol; Z.to_nat nbd; Z.to_nat ny; Z.to_nat nx]).

(** [data[pidx, b, :, :] = src] on the cube of the call. *)
Definition store_plane (pidx b : nat) (src : ndarray) : M frame unit :=
  cube <- get_data ;;
  cube' <- assign_plane cube pidx b src ;;
  put_data cube'.

(** The loop over the existing files of the branch for sources without a
    frequency axis; it returns [cfreqs]. *)
Definition load_bands_3d (npol : Z) (ex : list (nat * string)) : M frame (list value) :=
  for_fold ex
    (fun bf cfreqs =>
       hdu <- on_world (Fs.open (snd bf)) ;;
       u <- last_hdu hdu ;;
       r <- card (hdu_header u) "RESTFRQ" ;;
       for_each (seq 0 (Z.to_nat npol))
         (fun pidx =>
            nd <- data_ndim u ;;
            if Nat.eqb nd 2 then
              a <- data_image u ;; store_plane pidx (fst bf) a
            else if Nat.eqb nd 3 then
              a <- data_image u ;; s <- index1 a pidx ;; store_plane pidx (fst bf) s
            else
              a <- data_image u ;; s <- index2 a pidx 0 ;; store_plane pidx (fst bf) s) ;;
       ret (cfreqs ++ [r])%list)
    [].

(** The same loop of the branch for four-dimensional sources; it returns
    [cdelts] and [cfreqs]. *)
Definition load_bands_4d (npol : Z) (ex : list (nat * string))
  : M frame (list value * list value) :=
  for_fold ex
    (fun bf acc =>
       hdu <- on_world (Fs.open (snd bf)) ;;
       u <- last_hdu hdu ;;
       cd <- card (hdu_header u) "CDELT3" ;;
       cf <- card (hdu_header u) "CRVAL3" ;;
       for_each (seq 0 (Z.to_nat npol))
         (fun pidx =>
            nd <- data_ndim u ;;
            if Nat.eqb nd 2 then
              a <- data_image u ;; store_plane pidx (fst bf) a
            else
              a <- data_image u ;; s <- index2 a pidx 0 ;; store_plane pidx (fst bf) s) ;;
       ret (fst acc ++ [cd], snd acc ++ [cf])%list)
    ([], []).

Definition set_card (k : string) (v : value) : M frame unit :=
  on_header (Hdr.setitem k v).

Definition get_card (k : string) : M frame value :=
  on_header (Hdr.getitem k).

(** [header[k] = v] for a value the call has computed: the library
    refuses a float that is NaN or infinite. *)
Definition set_card_checked (k : string) (v : value) : M frame unit :=
  match v with
  | VFloat f =>
      if PrimFloat.is_nan f || PrimFloat.is_infinity f
      then raise (ValueError "Floating point nan and inf values are not allowed in FITS headers.")
      else set_card k v
  | _ => set_card k v
  end.

(** The branch taken when the template header has [NAXIS != 4]; it
    returns [cfreqs] and [cdelts]. *)
Definition wrap_3d (nband : nat) (ex : list (nat * string))
  (imres : option (list (float * float))) (verbose : bool)
  : M frame (list float * list float) :=
  (if verbose then on_world (Fs.print (Text "s1")) else ret tt) ;;
  cdelts <- match imres with
            | None =>
                on_world (Fs.print (Text "Failed to read bandwidth information. Set as 325 MHz assuming this is EOVSA data. Use the value of keyword CDELT3 with caution.")) ;;
                ret (repeat 325e8%float nband)
            | Some freq =>
                ret (map (fun lh => PrimFloat.mul (PrimFloat.sub (snd lh) (fst lh)) 1e9%float) freq)
            end ;;
  stokesinfo <- on_header headerparse ;;
  npol <- match axis stokesinfo with
          | None => ret 1%Z
          | Some a => v <- get_card ("NAXIS" ++ PyStr.fmt_d a) ;; py_int v
          end ;;
  let nbd := nband in
  v <- get_card "NAXIS2" ;; ny <- py_int v ;;
  v <- get_card "NAXIS1" ;; nx <- py_int v ;;
  data <- zeros4 npol (Z.of_nat nbd) ny nx ;;
  put_data data ;;
  cfreqs <- load_bands_3d npol ex ;;
  cfreqs <- float_array cfreqs ;;
  let indfreq := argsort cfreqs in
  cfreqs <- take cfreqs indfreq ;;
  cdelts <- take cdelts indfreq ;;
  for_each (seq 0 (Z.to_nat npol))
    (fun pidx =>
       cube <- get_data ;;
       cube' <- reorder_bands cube pidx indfreq ;;
       put_data cube') ;;
  let df := mean_spacing cfreqs (map fst ex) in
  set_card "NAXIS" (VInt 4) ;;
  set_card "NAXIS3" (VInt (Z.of_nat nband)) ;;
  set_card "CTYPE3" (VStr "FREQ") ;;
  c0 <- match cfreqs with c :: _ => ret c | [] => raise IndexError end ;;
  set_card_checked "CRVAL3" (VFloat c0) ;;
  set_card_checked "CDELT3" (VFloat df) ;;
  set_card "CRPIX3" (VFloat 1.0) ;;
  set_card "CUNIT3" (VStr "Hz      ") ;;
  match axis stokesinfo with
  | None =>
      set_card "NAXIS4" (VInt 1) ;;
      set_card "CTYPE4" (VStr "STOKES") ;;
      set_card "CRVAL4" (VInt (-5)) ;;
      set_card "CDELT4" (VFloat 1.0) ;;
      set_card "CRPIX4" (VFloat 1.0) ;;
      set_card "CUNIT4" (VStr "        ")
  | Some _ =>
      for_each (headernew stokesinfo)
        (fun kv => on_world (Fs.print (Pair (fst kv) (snd kv))) ;; set_card (fst kv) (snd kv))
  end ;;
  ret (cfreqs, cdelts).

(** The branch taken when the template header has [NAXIS == 4].  The
    keyword [cdelt3] is stored in upper case. *)
Definition wrap_4d (nband : nat) (ex : list (nat * string)) (verbose : bool)
  : M frame (list float * list float) :=
  (if verbose then on_world (Fs.print (Text "s2")) else ret tt) ;;
  v <- get_card "NAXIS4" ;; npol <- py_int v ;;
  let nbd := nband in
  v <- get_card "NAXIS2" ;; ny <- py_int v ;;
  v <- get_card "NAXIS1" ;; nx <- py_int v ;;
  data <- zeros4 npol (Z.of_nat nbd) ny nx ;;
  put_data data ;;
  cc <- load_bands_4d npol ex ;;
  cfreqs <- float_array (snd cc) ;;
  cdelts <- float_array (fst cc) ;;
  let df := mean_spacing cfreqs (map fst ex) in
  set_card_checked (PyStr.upper "cdelt3") (VFloat df) ;;
  set_card "NAXIS3" (VInt (Z.of_nat nband)) ;;
  set_card "NAXIS" (VInt 4) ;;
  c <- get_card "CRVAL3" ;;
  i0 <- match ex with bf :: _ => ret (fst bf) | [] => raise IndexError end ;;
  t <- num_mul (VFloat df) (VInt (Z.of_nat i0)) ;;
  c' <- num_sub c t ;;
  set_card_checked "CRVAL3" c' ;;
  ret (cfreqs, cdelts).

(** What follows the two branches: the identity matrix, the side table
    and the output file.  As in [write], [kwargs is {}] never holds.  When
    the squeezed cube still has four axes the diagnostic is printed and the
    uncompressed file is written. *)
Definition wrap_finish (outfitsfile : string) (docompress : bool) (mask : option ndarray)
  (fix_invalid : bool) (filled_value : float) (kwargs : list (string * value))
  (cfreqs cdelts : list float) : M frame string :=
  v <- get_card "NAXIS" ;; n <- as_int v ;;
  for_each (range1 n)
    (fun dim1 =>
       for_each (range1 n)
         (fun dim2 =>
            let k := pc_key dim1 dim2 in
            if Nat.eqb dim1 dim2 then set_card k (VFloat 1.0) else set_card k (VFloat 0.0))) ;;
  present <- on_world (Fs.exists_ outfitsfile) ;;
  (if present : bool then on_world (Fs.rm outfitsfile) else ret tt) ;;
  let tbhdu := BinTableHDU [("cfreqs", map to_float32 cfreqs);
                            ("cdelts", map to_float32 cdelts)] in
  let plain (outfitsfile : string) : M frame string :=
    data <- get_data ;;
    header <- get_header ;;
    on_world (Fs.writeto outfitsfile [PrimaryHDU header (Image data); tbhdu]) ;;
    on_world (Fs.print (Text ("wrapped fits written as " ++ outfitsfile))) ;;
    ret outfitsfile in
  if docompress then
    data <- get_data ;;
    (if fix_invalid then put_data (fill_nan filled_value data) else ret tt) ;;
    let outfitsfile := expanduser outfitsfile in
    data <- get_data ;;
    data' <- on_header (headersqueeze data) ;;
    put_data data' ;;
    if Nat.eqb (ndim data') 4 then
      on_world (Fs.print (Text "only 1D, 2D, or 3D images are currently supported for compression. Aborting compression...")) ;;
      plain outfitsfile
    else
      header <- get_header ;;
      let hdunew := CompImageHDU header data' kwargs in
      let hdulnew :=
        match mask with
        | None => [PrimaryHDU [] NoData; hdunew; tbhdu]
        | Some m =>
            [PrimaryHDU [] NoData; hdunew; tbhdu; CompImageHDU [] (astype_uint8 m) kwargs]
        end in
      on_world (Fs.writeto outfitsfile hdulnew) ;;
      ret outfitsfile
  else plain outfitsfile.

(** Run a computation on the local header and cube of a call. *)
Definition run_local {A : Type} (h : header) (m : M frame A) : M world A :=
  fun w =>
    let (r, fr) := m {| f_data := zeros [0]; f_header := h; f_world := w |} in
    (r, f_world fr).

Definition wrap (fitsfiles : pathlist) (outfitsfile : option string) (docompress : bool)
  (mask : option ndarray) (fix_invalid : bool) (filled_value : float)
  (observatory : option value) (imres : option (list (float * float)))
  (verbose : bool) (kwargs : list (string * value)) : M world string :=
  if (List.length (paths fitsfiles) <=? 1)%nat then
    Fs.print (Text "There is only one files in the fits file list. wrap is aborted!") ;;
    ret ""
  else
    fitsfiles <- try_except (sort_probe fitsfiles)
                   (fun _ => ret (sorted (paths fitsfiles))) ;;
    let nband := List.length fitsfiles in
    ex <- for_fold (enumerate fitsfiles)
            (fun sf acc =>
               b <- Fs.exists_ (snd sf) ;;
               ret (if b : bool then (acc ++ [sf])%list else acc))
            [] ;;
    match ex with
    | [] => raise (ValueError "None of the input fitsfiles exists!")
    | first :: _ =>
        outfitsfile <-
          match outfitsfile with
          | Some o => ret o
          | None =>
              hdu <- Fs.open (snd first) ;;
              obs <- match observatory with
                     | Some o => ret o
                     | None =>
                         try_except
                           (u <- last_hdu hdu ;; card (hdu_header u) "TELESCOP")
                           (fun _ =>
                              Fs.print (Text "Failed to acquire telescope information. set as RADIO") ;;
                              ret (VStr "RADIO"))
                     end ;;
              u <- last_hdu hdu ;;
              d <- card (hdu_header u) "DATE-OBS" ;;
              match allbd_name d obs with
              | Some name => ret name
              | None => raise (ValueError "Time")
              end
          end ;;
        Fs.cp (snd first) outfitsfile ;;
        hdu0 <- Fs.open outfitsfile ;;
        u0 <- last_hdu hdu0 ;;
        run_local (hdu_header u0)
          (v <- get_card "NAXIS" ;;
           cc <- (if negb (eq_int v 4)
                  then wrap_3d nband ex imres verbose
                  else wrap_4d nband ex verbose) ;;
           wrap_finish outfitsfile docompress mask fix_invalid filled_value kwargs
                       (fst cc) (snd cc))
    end.

End Externals.

(* ================================================================= *)
(** ** Vocabulary of the transform-matrix keys *)

(** A keyword of the transform-matrix block, as [headerfix] recognises it. *)
Definition is_pc (k : string) : bool := PyStr.startswith (PyStr.upper k) "PC".

(** A keyword [headerfix] leaves alone. *)
Definition is_pc0 (k : string) : bool := PyStr.startswith (PyStr.upper k) "PC0".

(** A keyword [headerfix] migrates. *)
Definition legacy_pc (k : string) : bool := is_pc k && negb (is_pc0 k).

(** The index part [pcidxs] of a keyword and the keyword [hd_] it moves to. *)
Definition pc_suffix (k : string) : string := PyStr.replace "PC" "" (PyStr.upper k).
Definition canonical_of (k : string) : string := "PC0" ++ pc_suffix k.

(** The value [headerfix] writes for an index part when it resets. *)
Definition reset_value (pcidxs : string) : option value :=
  match PyStr.split "_" pcidxs with
  | [pcidx0; pcidx1] => Some (VFloat (if String.eqb pcidx0 pcidx1 then 1.0 else 0.0))
  | _ => None
  end.

Definition is_digit (c : ascii) : bool :=
  let n := nat_of_ascii c in (48 <=? n)%nat && (n <=? 57)%nat.

(** The two-digit form [PCii_jj] of the written specification. *)
Definition two_digit_pc_key (k : string) : bool :=
  match k with
  | String "P" (String "C" (String a (String b (String "_"
      (String c (String d EmptyString)))))) =>
      is_digit a && is_digit b && is_digit c && is_digit d
  | _ => false
  end.

(** The cards [headerfix] keeps. *)
Definition kept (kv : string * value) : bool := negb (legacy_pc (fst kv)).

(* ================================================================= *)
(** ** Vocabulary of the axis cards *)

Definition ctype_key (i : nat) : string := "CTYPE" ++ PyStr.fmt_d i.

(** Axis [i] carries a type card that starts with STOKES. *)
Definition stokes_axis (h : header) (i : nat) : Prop :=
  exists s, Hdr.get (ctype_key i) h = Some (VStr s) /\ PyStr.startswith s "STOKES" = true.

(** Axis [i] carries a type card that does not. *)
Definition plain_axis (h : header) (i : nat) : Prop :=
  exists s, Hdr.get (ctype_key i) h = Some (VStr s) /\ PyStr.startswith s "STOKES" = false.

(** A read-only computation leaves the object as it found it, whether it
    returns or raises. *)
Definition readonly {S A : Type} (m : M S A) : Prop :=
  forall s, snd (m s) = s.

(* ================================================================= *)
(** ** Sample inputs *)

(** A two-axis header whose first axis is the polarisation axis. *)
Definition sample_stokes_header : header :=
  [("NAXIS", VInt 2);
   ("NAXIS1", VInt 5); ("CTYPE1", VStr "STOKES"); ("CRVAL1", VFloat 1.0);
   ("CDELT1", VFloat 1.0); ("CRPIX1", VFloat 1.0); ("CUNIT1", VStr "");
   ("NAXIS2", VInt 7); ("CTYPE2", VStr "FREQ"); ("CRVAL2", VFloat 1.0e9);
   ("CDELT2", VFloat 1.0); ("CRPIX2", VFloat 1.0); ("CUNIT2", VStr "Hz")].

(** The band-merge scenario: four band slots, the file of slot 1 missing,
    centre frequencies 1, 3 and 4 GHz.  Each source holds a 2 x 2 image. *)
Definition band_image (a : float) : list float :=
  [a; PrimFloat.add a 1; PrimFloat.add a 2; PrimFloat.add a 3].

(** A source without frequency axis: a two-dimensional image with its
    frequency in RESTFRQ. *)
Definition band_file_2d (restfrq a : float) : hdulist :=
  [PrimaryHDU
     [("NAXIS", VInt 2); ("NAXIS1", VInt 2); ("NAXIS2", VInt 2);
      ("CTYPE1", VStr "HPLN-TAN"); ("CTYPE2", VStr "HPLT-TAN");
      ("RESTFRQ", VFloat restfrq)]
     (Image {| shape := [2; 2]; flat := band_image a |})].

(** A source that is already a four-dimensional one-band cube. *)
Definition band_file_4d (crval3 a : float) : hdulist :=
  [PrimaryHDU
     [("NAXIS", VInt 4); ("NAXIS1", VInt 2); ("NAXIS2", VInt 2);
      ("NAXIS3", VInt 1); ("NAXIS4", VInt 1);
      ("CTYPE3", VStr "FREQ"); ("CRVAL3", VFloat crval3); ("CDELT3", VFloat 5e8);
      ("CTYPE4", VStr "STOKES")]
     (Image {| shape := [1; 1; 2; 2]; flat := band_image a |})].

Definition band_paths : pathlist :=
  PyList ["band0.fits"; "band1.fits"; "band2.fits"; "band3.fits"].

Definition bands_2d : world :=
  {| files := [("band0.fits", band_file_2d 1e9 10);
               ("band2.fits", band_file_2d 3e9 30);
               ("band3.fits", band_file_2d 4e9 40)];
     stdout := [] |}.

Definition bands_4d : world :=
  {| files := [("band0.fits", band_file_4d 1e9 10);
               ("band2.fits", band_file_4d 3e9 30);
               ("band3.fits", band_file_4d 4e9 40)];
     stdout := [] |}.

(** [wrap(band_paths, outfitsfile='allbd.fits')] with the other arguments
    at their defaults. *)
Definition wrap_bands (w : world) : result string * world :=
  wrap (fun p => p) (fun m => m) (fun _ _ => None)
       band_paths (Some "allbd.fits") false None true 0%float None None false [] w.

(** The image record a call left in a file. *)
Definition written_image (path : string) (w : world) : option (header * ndarray) :=
  match Fs.lookup path (files w) with
  | Some (u :: _) =>
      match hdu_payload u with
      | Image a => Some (hdu_header u, a)
      | _ => None
      end
  | _ => None
  end.

(** The number of axes [read] scans in a record. *)
Definition record_ndim (u : hdu) : nat :=
  match hdu_payload u with
  | Image a => ndim a
  | Table _ => 1
  | NoData => 0
  end.

(** No axis of the record has a type card that starts with FREQ. *)
Definition no_freq_axis (u : hdu) : Prop :=
  forall i s, 1 <= i <= record_ndim u ->
    Hdr.get (ctype_key i) (hdu_header u) = Some (VStr s) ->
    PyStr.startswith s "FREQ" = false.

(** A container whose only record is a 2 x 2 image without frequency axis
    and with RESTFRQ = 1.2e9. *)
Definition restfrq_world : world :=
  {| files := [("image.fits", band_file_2d 1.2e9 10)]; stdout := [] |}.

(** The last record of a container. *)
Definition final_record (hl : hdulist) : option hdu := hd_error (rev hl).

(** Axis [i] of the record has a type card that names neither a
    frequency nor a polarisation axis. *)
Definition spatial_axis (u : hdu) (i : nat) : Prop :=
  exists s, Hdr.get (ctype_key i) (hdu_header u) = Some (VStr s) /\
            PyStr.startswith s "FREQ" = false /\ PyStr.startswith s "STOKES" = false.

(* ================================================================= *)
(** ** Vocabulary of the squeeze *)

Definition parse_nat (s : string) : option nat :=
  option_map Nat.of_uint (NilEmpty.uint_of_string s).




(** One renaming of the transform-matrix block: the card [src], when
    present, is removed and its value stored under [dst] or dropped. *)
Record move : Type := { src : string; dst : option string }.

Definition move_step (m : move) : M header unit :=
  present <- Hdr.contains (src m) ;;
  if present : bool then
    v <- Hdr.getitem (src m) ;;
    Hdr.remove (src m) ;;
    match dst m with
    | Some d => Hdr.setitem d v
    | None => ret tt
    end
  else ret tt.


(** What the squeeze knows of one header axis: its index, whether it is
    kept, and the count of kept axes up to it. *)
Record axis_entry : Type := { ax_index : nat; ax_kept : bool; ax_new : nat }.

Fixpoint axis_entries (dims : list nat) (idx idx_nonsdim : nat) : list axis_entry :=
  match dims with
  | [] => []
  | dim :: rest =>
      let c := if (1 <? dim)%nat then S idx_nonsdim else idx_nonsdim in
      {| ax_index := idx + 1; ax_kept := (1 <? dim)%nat; ax_new := c |}
        :: axis_entries rest (S idx) c
  end.

Definition pc_move (a1 a2 : axis_entry) : move :=
  {| src := pc_key (ax_index a1) (ax_index a2);
     dst := if ax_kept a1 && ax_kept a2
            then Some (pc_key (ax_new a1) (ax_new a2)) else None |}.

(** The length of header axis [i] (1-based) and its index after the
    squeeze: the number of axes longer than one among the first [i]. *)
Definition axis_len (dims : list nat) (i : nat) : nat := nth (i - 1) dims 0.

Definition compact_index (dims : list nat) (i : nat) : nat :=
  List.length (filter (fun d => (1 <? d)%nat) (firstn i dims)).

Definition entry_of (dims : list nat) (i : nat) : axis_entry :=
  {| ax_index := i; ax_kept := (1 <? axis_len dims i)%nat; ax_new := compact_index dims i |}.


(** The renamings of the transform-matrix loop, in the order it runs. *)
Definition grid_move (dims : list nat) (p : nat * nat) : move :=
  pc_move (entry_of dims (fst p)) (entry_of dims (snd p)).

Definition grid (n : nat) : list (nat * nat) := list_prod (seq 1 n) (seq 1 n).

(** A computation that leaves the card [x] alone, and one that keeps the
    keywords free of repetitions. *)
Definition preserves {A : Type} (x : string) (m : M header A) : Prop :=
  forall h r h', m h = (r, h') -> Hdr.get x h' = Hdr.get x h.

Definition keeps_nodup {A : Type} (m : M header A) : Prop :=
  forall h r h', NoDup (Hdr.keywords h) -> m h = (r, h') -> NoDup (Hdr.keywords h').

(** In [ks], CRVAL is not handled before CTYPE: the STOKES branch reads
    the CRVAL card of the axis while it handles CTYPE. *)
Fixpoint crval_after_ctype (ks : list string) : bool :=
  match ks with
  | [] => true
  | k :: r =>
      (negb (String.eqb k "CRVAL") || negb (existsb (String.eqb "CTYPE") r))
      && crval_after_ctype r
  end.

(** The Array invariant: NAXIS is the number of array axes and NAXISi is
    the length of the array axis counted from the last. *)
Definition array_invariant (h : header) (a : ndarray) : Prop :=
  Hdr.get "NAXIS" h = Some (VInt (Z.of_nat (ndim a))) /\
  forall i, 1 <= i <= ndim a ->
    Hdr.get ("NAXIS" ++ PyStr.fmt_d i)%string h
    = Some (VInt (Z.of_nat (axis_len (rev (shape a)) i))).

(** Every axis carries its six cards, the type card being a string. *)
Definition axis_cards (h : header) (a : ndarray) : Prop :=
  forall i, 1 <= i <= ndim a ->
    (forall k, In k keys2chng -> Hdr.get (k ++ PyStr.fmt_d i)%string h <> None) /\
    (exists s, Hdr.get (ctype_key i) h = Some (VStr s)).

(** The six cards of one axis. *)
Definition axis_block (i : nat) (len : Z) (ctype : string) : header :=
  [(("NAXIS" ++ PyStr.fmt_d i)%string, VInt len);
   (("CTYPE" ++ PyStr.fmt_d i)%string, VStr ctype);
   (("CRVAL" ++ PyStr.fmt_d i)%string, VFloat 0.0);
   (("CDELT" ++ PyStr.fmt_d i)%string, VFloat 1.0);
   (("CRPIX" ++ PyStr.fmt_d i)%string, VFloat 1.0);
   (("CUNIT" ++ PyStr.fmt_d i)%string, VStr "")].

(** A 2 x 1 x 3 array (axes of the header: 3, 1, 2) with a full matrix. *)
Definition sample_cube : ndarray :=
  {| shape := [2; 1; 3]; flat := repeat 0.0%float 6 |}.

Definition sample_cube_header : header :=
  ([("NAXIS", VInt 3)] ++ axis_block 1 3 "HPLN-TAN" ++ axis_block 2 1 "STOKES"
   ++ axis_block 3 2 "FREQ"
   ++ [("PC01_1", VFloat 11); ("PC01_2", VFloat 12); ("PC01_3", VFloat 13);
       ("PC02_1", VFloat 21); ("PC02_2", VFloat 22); ("PC02_3", VFloat 23);
       ("PC03_1", VFloat 31); ("PC03_2", VFloat 32); ("PC03_3", VFloat 33)])%list.



(** The cards outside the transform-matrix block. *)
Definition other_cards (h : header) : header :=
  filter (fun kv => negb (is_pc (fst kv))) h.

(* ================================================================= *)
(** ** Vocabulary of the file store *)

(** A computation that neither creates, removes nor changes a file,
    whether it returns or raises. *)
Definition keeps_files {A : Type} (m : M world A) : Prop :=
  forall w, files (snd (m w)) = files w.

(** A container with an image record and a side table of two bands. *)
Definition side_table_world : world :=
  {| files := [("cube.fits",
                band_file_2d 1.2e9 10
                ++ [BinTableHDU [("cfreqs", [1e9; 2e9]%float); ("cdelts", [1e8; 2e8]%float)]])%list];
     stdout := [] |}.



(* ================================================================= *)
(** ** get_bdinfo *)

(** An arithmetic operation on two one-dimensional arrays, with the
    broadcasting of numpy: equal lengths, or one array of length one. *)
Definition np_binop {S : Type} (f : float -> float -> float) (a b : list float)
  : M S (list float) :=
  if Nat.eqb (List.length a) (List.length b)
  then ret (map (fun p => f (fst p) (snd p)) (combine a b))
  else match a, b with
       | _, [y] => ret (map (fun x => f x y) a)
       | [x], _ => ret (map (fun y => f x y) b)
       | _, _ => raise (ValueError "broadcast")
       end.

(** The dictionary [get_bdinfo] returns. *)
Record fbounds : Type := {
  fb_cfreqs : list float;
  fb_cfreqs_all : list float;
  fb_bounds_lo : list float;
  fb_bounds_hi : list float;
  fb_bounds_all : list float
}.

(** [get_bdinfo(freq, bw)] for one-dimensional arrays of the centre
    frequencies and widths in Hz. *)
Definition get_bdinfo {S : Type} (freq bw : list float) : M S fbounds :=
  let fghz := map (fun x => PrimFloat.div x 1e9%float) freq in
  let bwghz := map (fun x => PrimFloat.div x 1e9%float) bw in
  let half := map (fun x => PrimFloat.div x 2.0%float) bwghz in
  bounds_lo <- np_binop PrimFloat.sub fghz half ;;
  bounds_hi <- np_binop PrimFloat.add fghz half ;;
  top <- py_nth bounds_hi (-1) ;;
  ret {| fb_cfreqs := fghz; fb_cfreqs_all := fghz; fb_bounds_lo := bounds_lo;
         fb_bounds_hi := bounds_hi; fb_bounds_all := (bounds_lo ++ [top])%list |}.

(** A 2 x 1 x 3 array with one NaN, and the frame of a call of [write]
    on it with the header of [sample_cube] and no file yet. *)
Definition nan_cube : ndarray :=
  {| shape := [2; 1; 3]; flat := [nan; 1; 2; 3; 4; 5]%float |}.

Definition nan_frame : frame :=
  {| f_data := nan_cube; f_header := sample_cube_header;
     f_world := {| files := []; stdout := [] |} |}.

(* ================================================================= *)
(** * Properties *)

Local Open Scope list_scope.

Example headerfix_pc1_1 :
  headerfix true [("PC1_1", VFloat 1.0); ("PC1_2", VFloat 0.5)]
  = (Ok tt, [("PC01_1", VFloat 1.0); ("PC01_2", VFloat 0.0)]).
Proof. vm_compute. reflexivity. Qed.

(* ----------------------------------------------------------------- *)
(** ** The monad *)

Lemma bind_ok {S A B : Type} (m : M S A) (f : A -> M S B) (s s2 : S) (b : B) :
  bind m f s = (Ok b, s2) ->
  exists a s1, m s = (Ok a, s1) /\ f a s1 = (Ok b, s2).
Proof.
  unfold bind. destruct (m s) as [[a|e] s1]; intros H.
  - exists a, s1. split; [reflexivity | exact H].
  - discriminate H.
Qed.

Lemma bind_of_ok {S A B : Type} (m : M S A) (f : A -> M S B) (s s1 : S) (a : A) :
  m s = (Ok a, s1) -> bind m f s = f a s1.
Proof. unfold bind. intros ->. reflexivity. Qed.

Lemma ret_ok {S A : Type} (a b : A) (s s' : S) :
  ret a s = (Ok b, s') -> b = a /\ s' = s.
Proof. unfold ret. intros H. inversion H. split; reflexivity. Qed.

(* ----------------------------------------------------------------- *)
(** ** Header cards *)

Lemma get_set_same (k : string) (v : value) (h : header) :
  Hdr.get k (Hdr.set k v h) = Some v.
Proof.
  induction h as [|[k' v'] r IH]; simpl.
  - rewrite String.eqb_refl. reflexivity.
  - destruct (String.eqb k' k) eqn:E; simpl; rewrite E; [reflexivity | exact IH].
Qed.

Lemma get_set_other (k k' : string) (v : value) (h : header) :
  k <> k' -> Hdr.get k (Hdr.set k' v h) = Hdr.get k h.
Proof.
  intros N. induction h as [|[k0 v0] r IH]; simpl.
  - destruct (String.eqb_spec k' k); [congruence | reflexivity].
  - destruct (String.eqb_spec k0 k'); simpl.
    + subst k0. destruct (String.eqb_spec k' k); [congruence | reflexivity].
    + rewrite IH. reflexivity.
Qed.

Lemma get_in (k : string) (h : header) :
  In k (Hdr.keywords h) <-> Hdr.get k h <> None.
Proof.
  induction h as [|[k' v'] r IH]; simpl.
  - split; [tauto | congruence].
  - destruct (String.eqb_spec k' k).
    + split; [congruence | auto].
    + rewrite <- IH. split; [intros [E|I]; [congruence | exact I] | auto].
Qed.

Lemma keywords_set (k : string) (v : value) (h : header) :
  Hdr.keywords (Hdr.set k v h)
  = if Hdr.mem k h then Hdr.keywords h else (Hdr.keywords h ++ [k])%list.
Proof.
  unfold Hdr.mem. induction h as [|[k' v'] r IH]; simpl.
  - reflexivity.
  - destruct (String.eqb k' k); simpl.
    + reflexivity.
    + rewrite IH. destruct (Hdr.get k r); reflexivity.
Qed.

Lemma filter_keywords_set (P : string -> bool) (k : string) (v : value) (h : header) :
  P k = false ->
  filter P (Hdr.keywords (Hdr.set k v h)) = filter P (Hdr.keywords h).
Proof.
  intros HP. rewrite keywords_set. destruct (Hdr.mem k h); [reflexivity|].
  rewrite filter_app. simpl. rewrite HP. apply List.app_nil_r.
Qed.

Lemma in_keywords_set (k k0 : string) (v : value) (h : header) :
  In k0 (Hdr.keywords (Hdr.set k v h)) <-> In k0 (Hdr.keywords h) \/ k0 = k.
Proof.
  rewrite keywords_set. unfold Hdr.mem.
  destruct (Hdr.get k h) eqn:E.
  - split; [auto | intros [I| ->]; [exact I|]].
    apply get_in. congruence.
  - rewrite in_app_iff. simpl. split; intros [I|I]; auto.
    destruct I as [<-|[]]. auto.
Qed.

(* ----------------------------------------------------------------- *)
(** ** headerfix *)

Lemma canonical_not_legacy (k : string) : legacy_pc (canonical_of k) = false.
Proof.
  unfold legacy_pc, is_pc, is_pc0, canonical_of, PyStr.startswith.
  simpl. destruct (PyStr.upper (pc_suffix k)); reflexivity.
Qed.

Lemma canonical_of_inj_suffix (k1 k2 : string) :
  canonical_of k1 = canonical_of k2 -> pc_suffix k1 = pc_suffix k2.
Proof. unfold canonical_of. simpl. intros H. inversion H. reflexivity. Qed.

(** What one pass of the loop body does when it returns. *)
Lemma headerfix_body_ok (f : bool) (k : string) (acc acc' : list string) (h h1 : header) :
  headerfix_body f k acc h = (Ok acc', h1) ->
  if legacy_pc k
  then acc' = (acc ++ [k])%list /\
       exists v, h1 = Hdr.set (canonical_of k) v h /\
                 (if f then reset_value (pc_suffix k) = Some v
                  else Hdr.get k h = Some v)
  else acc' = acc /\ h1 = h.
Proof.
  unfold headerfix_body, legacy_pc, is_pc, is_pc0.
  destruct (PyStr.startswith (PyStr.upper k) "PC"); simpl.
  2:{ intros H. apply ret_ok in H. exact H. }
  destruct (PyStr.startswith (PyStr.upper k) "PC0"); simpl.
  { intros H. apply ret_ok in H. exact H. }
  intros H. apply bind_ok in H. destruct H as (u & s1 & H1 & H2).
  apply ret_ok in H2. destruct H2 as [-> ->]. split; [reflexivity|].
  destruct f.
  - unfold reset_value, canonical_of, pc_suffix.
    destruct (PyStr.split "_" (PyStr.replace "PC" "" (PyStr.upper k))) as [|a [|b [|c l]]];
      try discriminate H1.
    destruct (String.eqb a b); unfold Hdr.setitem in H1; inversion H1; eauto.
  - apply bind_ok in H1. destruct H1 as (v & s2 & G & St).
    unfold Hdr.getitem in G. destruct (Hdr.get k h) eqn:E; inversion G; subst.
    unfold Hdr.setitem in St. inversion St. eauto.
Qed.

Lemma headerfix_body_skip (f : bool) (k : string) (acc : list string) (h : header) :
  legacy_pc k = false -> headerfix_body f k acc h = (Ok acc, h).
Proof.
  unfold headerfix_body, legacy_pc, is_pc, is_pc0.
  destruct (PyStr.startswith (PyStr.upper k) "PC"); simpl; [|reflexivity].
  destruct (PyStr.startswith (PyStr.upper k) "PC0"); simpl; [reflexivity|discriminate].
Qed.

Lemma headerfix_body_total (f : bool) (k : string) (acc : list string) (h : header) :
  In k (Hdr.keywords h) ->
  (f = true -> legacy_pc k = true -> reset_value (pc_suffix k) <> None) ->
  exists acc' h1, headerfix_body f k acc h = (Ok acc', h1).
Proof.
  intros I R. destruct (legacy_pc k) eqn:L.
  2:{ rewrite headerfix_body_skip by exact L. eauto. }
  unfold headerfix_body. unfold legacy_pc, is_pc, is_pc0 in L.
  apply andb_true_iff in L. destruct L as [L1 L2]. rewrite L1, L2.
  destruct f.
  - specialize (R eq_refl eq_refl). unfold reset_value, pc_suffix in R.
    destruct (PyStr.split "_" (PyStr.replace "PC" "" (PyStr.upper k))) as [|a [|b [|c l]]];
      try congruence.
    destruct (String.eqb a b); eexists; eexists; reflexivity.
  - apply get_in in I. unfold bind, Hdr.getitem.
    destruct (Hdr.get k h); [|congruence]. eexists; eexists; reflexivity.
Qed.

(** The loop over the keywords: what it collects and what it leaves in
    the header. *)
Lemma headerfix_loop_ok (f : bool) (ks : list string) :
  forall (acc acc' : list string) (h h1 : header),
  for_fold ks (headerfix_body f) acc h = (Ok acc', h1) ->
  acc' = (acc ++ filter legacy_pc ks)%list /\
  filter legacy_pc (Hdr.keywords h1) = filter legacy_pc (Hdr.keywords h) /\
  (forall k, In k (Hdr.keywords h1) ->
     In k (Hdr.keywords h) \/ exists k0, In k0 ks /\ legacy_pc k0 = true /\ k = canonical_of k0) /\
  (forall k, In k (Hdr.keywords h) -> In k (Hdr.keywords h1)) /\
  (forall k0, In k0 ks -> legacy_pc k0 = true -> In (canonical_of k0) (Hdr.keywords h1)).
Proof.
  induction ks as [|k ks IH]; intros acc acc' h h1 H; simpl in H.
  - apply ret_ok in H. destruct H as [-> ->]. simpl. rewrite List.app_nil_r.
    repeat split; auto. intros k0 [].
  - apply bind_ok in H. destruct H as (a & s1 & B & F).
    apply headerfix_body_ok in B. apply IH in F.
    destruct F as (Ea & Ef & Hnew & Hold & Hcan).
    simpl. destruct (legacy_pc k) eqn:L.
    + destruct B as (-> & v & -> & _).
      rewrite filter_keywords_set in Ef by apply canonical_not_legacy.
      split; [rewrite Ea, <- app_assoc; reflexivity|].
      split; [exact Ef|].
      split; [|split].
      * intros k1 I. apply Hnew in I. destruct I as [I|(k0 & I0 & L0 & E0)].
        -- apply in_keywords_set in I. destruct I as [I| ->]; [auto|].
           right. exists k. simpl. auto.
        -- right. exists k0. simpl. auto.
      * intros k1 I. apply Hold. apply in_keywords_set. auto.
      * intros k0 [<-|I] L0.
        -- apply Hold. apply in_keywords_set. auto.
        -- apply Hcan; assumption.
    + destruct B as (-> & ->).
      split; [exact Ea|]. split; [exact Ef|].
      split; [|split].
      * intros k1 I. apply Hnew in I. destruct I as [I|(k0 & I0 & L0 & E0)]; [auto|].
        right. exists k0. simpl. auto.
      * exact Hold.
      * intros k0 [<-|I] L0; [congruence|]. apply Hcan; assumption.
Qed.

(** A reset value, once written, stays: a later write to the same keyword
    writes the same value. *)
Lemma headerfix_loop_keeps_reset (ks : list string) :
  forall (acc acc' : list string) (h h1 : header) (k0 : string) (v : value),
  for_fold ks (headerfix_body true) acc h = (Ok acc', h1) ->
  reset_value (pc_suffix k0) = Some v ->
  Hdr.get (canonical_of k0) h = Some v ->
  Hdr.get (canonical_of k0) h1 = Some v.
Proof.
  induction ks as [|k ks IH]; intros acc acc' h h1 k0 v H R G; simpl in H.
  - apply ret_ok in H. destruct H as [_ ->]. exact G.
  - apply bind_ok in H. destruct H as (a & s1 & B & F).
    apply headerfix_body_ok in B.
    apply (IH _ _ _ _ k0 v F R).
    destruct (legacy_pc k).
    + destruct B as (_ & w & -> & Rw).
      destruct (String.eqb_spec (canonical_of k0) (canonical_of k)) as [E|N].
      * rewrite E, get_set_same. apply canonical_of_inj_suffix in E.
        rewrite E in R. congruence.
      * rewrite get_set_other by exact N. exact G.
    + destruct B as (_ & ->). exact G.
Qed.

Lemma headerfix_loop_reset (ks : list string) :
  forall (acc acc' : list string) (h h1 : header),
  for_fold ks (headerfix_body true) acc h = (Ok acc', h1) ->
  forall k0, In k0 ks -> legacy_pc k0 = true ->
  exists v, reset_value (pc_suffix k0) = Some v /\ Hdr.get (canonical_of k0) h1 = Some v.
Proof.
  induction ks as [|k ks IH]; intros acc acc' h h1 H k0 I L; simpl in H.
  - destruct I.
  - apply bind_ok in H. destruct H as (a & s1 & B & F).
    destruct I as [<-|I].
    + apply headerfix_body_ok in B. rewrite L in B.
      destruct B as (_ & v & -> & R). exists v. split; [exact R|].
      apply (headerfix_loop_keeps_reset _ _ _ _ _ _ _ F R). apply get_set_same.
    + apply (IH _ _ _ _ F k0 I L).
Qed.

Lemma headerfix_loop_total (f : bool) (ks : list string) :
  forall (acc : list string) (h : header),
  (forall k, In k ks -> In k (Hdr.keywords h)) ->
  (f = true -> forall k, In k ks -> legacy_pc k = true -> reset_value (pc_suffix k) <> None) ->
  exists acc' h1, for_fold ks (headerfix_body f) acc h = (Ok acc', h1).
Proof.
  induction ks as [|k ks IH]; intros acc h I R; simpl.
  - eexists; eexists; reflexivity.
  - destruct (headerfix_body_total f k acc h) as (a & s1 & B).
    + apply I. left. reflexivity.
    + intros E L. apply (R E k); [left; reflexivity | exact L].
    + rewrite (bind_of_ok _ _ _ _ _ B).
      apply IH.
      * intros k1 I1. apply headerfix_body_ok in B.
        destruct (legacy_pc k).
        -- destruct B as (_ & v & -> & _). apply in_keywords_set. left.
           apply I. right. exact I1.
        -- destruct B as (_ & ->). apply I. right. exact I1.
      * intros E k1 I1. apply (R E). right. exact I1.
Qed.

(** Deleting the collected keywords, one card each, deletes exactly the
    cards with a legacy keyword. *)
Lemma del_first (k : string) (v : value) (pre t : header) :
  ~ In k (Hdr.keywords pre) ->
  Hdr.del k (pre ++ (k, v) :: t) = Some (pre ++ t).
Proof.
  induction pre as [|[k' v'] r IH]; simpl; intros N.
  - rewrite String.eqb_refl. reflexivity.
  - destruct (String.eqb_spec k' k); [tauto|]. rewrite IH by tauto. reflexivity.
Qed.

Lemma remove_legacy (h : header) :
  forall pre : header,
  (forall k, In k (Hdr.keywords pre) -> legacy_pc k = false) ->
  for_each (filter legacy_pc (Hdr.keywords h)) Hdr.remove (pre ++ h)
  = (Ok tt, (pre ++ filter kept h)%list).
Proof.
  induction h as [|[k v] t IH]; intros pre P; simpl.
  - reflexivity.
  - unfold kept at 1. simpl. destruct (legacy_pc k) eqn:L; simpl.
    + unfold bind at 1, Hdr.remove at 1. rewrite del_first.
      * apply IH. exact P.
      * intros I. apply P in I. congruence.
    + change ((k, v) :: t) with ([(k, v)] ++ t)%list. rewrite app_assoc.
      rewrite IH.
      * rewrite <- app_assoc. reflexivity.
      * intros k1 I. unfold Hdr.keywords in I. rewrite map_app, in_app_iff in I.
        destruct I as [I|[<-|[]]]; [apply P; exact I | exact L].
Qed.

Lemma keywords_kept (h : header) (k : string) :
  In k (Hdr.keywords (filter kept h)) <-> In k (Hdr.keywords h) /\ legacy_pc k = false.
Proof.
  unfold Hdr.keywords. rewrite !in_map_iff. split.
  - intros ([k' v] & E & I). apply filter_In in I. destruct I as [I K].
    simpl in E. subst k'. unfold kept in K. simpl in K.
    split; [exists (k, v); auto | destruct (legacy_pc k); [discriminate | reflexivity]].
  - intros (([k' v] & E & I) & L). simpl in E. subst k'.
    exists (k, v). split; [reflexivity|]. apply filter_In. split; [exact I|].
    unfold kept. simpl. rewrite L. reflexivity.
Qed.

Lemma get_kept (h : header) (k : string) :
  legacy_pc k = false -> Hdr.get k (filter kept h) = Hdr.get k h.
Proof.
  intros L. induction h as [|[k' v'] r IH]; simpl; [reflexivity|].
  unfold kept at 1. simpl. destruct (String.eqb_spec k' k).
  - subst k'. rewrite L. simpl. rewrite String.eqb_refl. reflexivity.
  - destruct (legacy_pc k'); simpl; [exact IH|].
    destruct (String.eqb_spec k' k); [congruence | exact IH].
Qed.

(** [headerfix], when it returns, has run the loop and then dropped the
    cards with a legacy keyword. *)
Lemma headerfix_ok (f : bool) (h h' : header) :
  headerfix f h = (Ok tt, h') ->
  exists acc h1,
    for_fold (Hdr.keywords h) (headerfix_body f) [] h = (Ok acc, h1) /\
    h' = filter kept h1.
Proof.
  unfold headerfix. intros H.
  apply bind_ok in H. destruct H as (ks & s0 & K & H).
  unfold Hdr.keys in K. inversion K. subst ks s0. clear K.
  apply bind_ok in H. destruct H as (acc & h1 & F & D).
  exists acc, h1. split; [exact F|].
  destruct (headerfix_loop_ok _ _ _ _ _ _ F) as (Ea & Ef & _).
  simpl in Ea. rewrite Ea, <- Ef in D.
  pose proof (remove_legacy h1 []) as R. simpl in R.
  rewrite R in D by (intros k []). inversion D. reflexivity.
Qed.

Lemma headerfix_loop_skip (f : bool) (ks : list string) :
  forall (acc : list string) (h : header),
  (forall k, In k ks -> legacy_pc k = false) ->
  for_fold ks (headerfix_body f) acc h = (Ok acc, h).
Proof.
  induction ks as [|k ks IH]; intros acc h L; simpl; [reflexivity|].
  unfold bind. rewrite headerfix_body_skip by (apply L; left; reflexivity).
  apply IH. intros k1 I. apply L. right. exact I.
Qed.

Lemma headerfix_returns (f : bool) (h : header) :
  (f = true -> forall k, In k (Hdr.keywords h) -> legacy_pc k = true ->
     reset_value (pc_suffix k) <> None) ->
  exists h', headerfix f h = (Ok tt, h').
Proof.
  intros R.
  destruct (headerfix_loop_total f (Hdr.keywords h) [] h (fun k I => I) R)
    as (acc & h1 & F).
  exists (filter kept h1). unfold headerfix, bind at 1, Hdr.keys.
  rewrite (bind_of_ok _ _ _ _ _ F).
  destruct (headerfix_loop_ok _ _ _ _ _ _ F) as (Ea & Ef & _).
  simpl in Ea. rewrite Ea, <- Ef.
  apply (remove_legacy h1 []). intros k [].
Qed.

(** C3 as written fails: the keyword [PC1_1] is moved to [PC01_1], which
    is not of the two-digit form [PCii_jj]. *)
Lemma headerfix_not_two_digit :
  ~ (forall (PC_coor : bool) (h h' : header),
       headerfix PC_coor h = (Ok tt, h') ->
       forall k, In k (Hdr.keywords h') -> is_pc k = true -> two_digit_pc_key k = true).
Proof.
  intros C.
  specialize (C true [("PC1_1", VFloat 1.0)] [("PC01_1", VFloat 1.0)] eq_refl
                "PC01_1" (or_introl eq_refl) eq_refl).
  discriminate C.
Qed.

(** C3, amended: [headerfix] returns whenever, under the reset flag, the
    index part of every legacy keyword splits in two at its underscore (and
    always without the flag).  When it returns, every remaining keyword
    that starts with PC starts with PC0; every legacy keyword (PC not
    followed by 0) is gone and the keyword PC0 followed by its index part is
    present (PC1_1 becomes PC01_1); and under the reset flag the value at
    that keyword is 1.0 when the two index strings are equal and 0.0
    otherwise.  The routine takes no array. *)
Theorem headerfix_keys_canonical (PC_coor : bool) (h : header) :
  ((PC_coor = true ->
    forall k, In k (Hdr.keywords h) -> legacy_pc k = true ->
              reset_value (pc_suffix k) <> None) ->
   exists h', headerfix PC_coor h = (Ok tt, h')) /\
  (forall h', headerfix PC_coor h = (Ok tt, h') ->
     (forall k, In k (Hdr.keywords h') -> is_pc k = true -> is_pc0 k = true) /\
     (forall k, In k (Hdr.keywords h) -> legacy_pc k = true ->
        ~ In k (Hdr.keywords h') /\ In (canonical_of k) (Hdr.keywords h')) /\
     (PC_coor = true ->
      forall k, In k (Hdr.keywords h) -> legacy_pc k = true ->
      exists pcidx0 pcidx1,
        PyStr.split "_" (pc_suffix k) = [pcidx0; pcidx1] /\
        Hdr.get (canonical_of k) h'
        = Some (VFloat (if String.eqb pcidx0 pcidx1 then 1.0 else 0.0)))).
Proof.
  split; [apply headerfix_returns|].
  intros h' H. apply headerfix_ok in H. destruct H as (acc & h1 & F & ->).
  pose proof (headerfix_loop_ok _ _ _ _ _ _ F) as (_ & _ & _ & Hold & Hcan).
  split; [|split].
  - intros k I P. apply keywords_kept in I. destruct I as [_ L].
    unfold legacy_pc in L. rewrite P in L. simpl in L.
    destruct (is_pc0 k); [reflexivity | discriminate].
  - intros k I L. split.
    + intros I'. apply keywords_kept in I'. destruct I' as [_ L']. congruence.
    + apply keywords_kept. split; [apply Hcan; assumption | apply canonical_not_legacy].
  - intros -> k I L.
    destruct (headerfix_loop_reset _ _ _ _ _ F k I L) as (v & R & G).
    unfold reset_value in R.
    destruct (PyStr.split "_" (pc_suffix k)) as [|a [|b [|c l]]]; try discriminate R.
    exists a, b. split; [reflexivity|].
    rewrite get_kept by apply canonical_not_legacy. inversion R. subst v. exact G.
Qed.

Lemma headerfix_keys_canonical_witness :
  Hdr.get "PC01_1" [("NAXIS", VInt 2); ("PC01_1", VFloat 1.0); ("PC02_1", VFloat 0.0)]
  = Some (VFloat 1.0).
Proof.
  destruct (headerfix_keys_canonical true
              [("NAXIS", VInt 2); ("PC1_1", VFloat 0.5); ("PC2_1", VFloat 0.5)])
    as [_ P].
  destruct (P [("NAXIS", VInt 2); ("PC01_1", VFloat 1.0); ("PC02_1", VFloat 0.0)] eq_refl)
    as (_ & _ & V).
  destruct (V eq_refl "PC1_1" (or_intror (or_introl eq_refl)) eq_refl)
    as (a & b & S & G).
  vm_compute in S. inversion S. subst a b. exact G.
Defined.

(** C5: a second run of [headerfix] on the header a first run returned
    returns it unchanged, so the set of transform-matrix keywords after two
    runs is the set after one. *)
Theorem headerfix_idempotent (PC_coor PC_coor2 : bool) (h h' : header) :
  headerfix PC_coor h = (Ok tt, h') ->
  headerfix PC_coor2 h' = (Ok tt, h') /\
  (forall h'', headerfix PC_coor2 h' = (Ok tt, h'') ->
     filter is_pc (Hdr.keywords h'') = filter is_pc (Hdr.keywords h')).
Proof.
  intros H. apply headerfix_ok in H. destruct H as (acc & h1 & _ & ->).
  assert (E : headerfix PC_coor2 (filter kept h1) = (Ok tt, filter kept h1)).
  { unfold headerfix, bind at 1, Hdr.keys.
    unfold bind at 1. rewrite headerfix_loop_skip.
    - reflexivity.
    - intros k I. apply keywords_kept in I. apply I. }
  split; [exact E|]. intros h'' H. rewrite E in H. inversion H. reflexivity.
Qed.

Lemma headerfix_idempotent_witness :
  headerfix true [("PC01_1", VFloat 1.0); ("PC01_2", VFloat 0.0)]
  = (Ok tt, [("PC01_1", VFloat 1.0); ("PC01_2", VFloat 0.0)]).
Proof.
  apply (headerfix_idempotent true true
           [("PC1_1", VFloat 0.5); ("PC1_2", VFloat 0.5)]).
  vm_compute. reflexivity.
Defined.

(* ----------------------------------------------------------------- *)
(** ** headerparse *)

Lemma getitem_state (k : string) (h : header) : snd (Hdr.getitem k h) = h.
Proof. unfold Hdr.getitem. destruct (Hdr.get k h); reflexivity. Qed.

Lemma getitem_ok (k : string) (h h' : header) (v : value) :
  Hdr.getitem k h = (Ok v, h') -> Hdr.get k h = Some v /\ h' = h.
Proof.
  unfold Hdr.getitem. destruct (Hdr.get k h); intros H; inversion H. auto.
Qed.

Lemma getitem_of_get (k : string) (h : header) (v : value) :
  Hdr.get k h = Some v -> Hdr.getitem k h = (Ok v, h).
Proof. unfold Hdr.getitem. intros ->. reflexivity. Qed.

Lemma value_startswith_ok {S : Type} (v : value) (p : string) (s s' : S) (b : bool) :
  value_startswith v p s = (Ok b, s') ->
  exists t, v = VStr t /\ b = PyStr.startswith t p /\ s' = s.
Proof.
  destruct v; simpl; intros H; try (inversion H; fail).
  apply ret_ok in H. destruct H as [-> ->]. eauto.
Qed.

Lemma readonly_bind {S A B : Type} (m : M S A) (f : A -> M S B) :
  readonly m -> (forall a, readonly (f a)) -> readonly (bind m f).
Proof.
  intros Hm Hf h. unfold bind. specialize (Hm h).
  destruct (m h) as [[a|e] s1]; simpl in Hm; subst s1.
  - apply Hf.
  - reflexivity.
Qed.

Lemma readonly_ret {S A : Type} (a : A) : readonly (@ret S A a).
Proof. intros h. reflexivity. Qed.

Lemma readonly_raise {S A : Type} (e : exn) : readonly (@raise S A e).
Proof. intros h. reflexivity. Qed.

Lemma readonly_for_fold {S A B : Type} (xs : list A) (body : A -> B -> M S B) :
  (forall x b, readonly (body x b)) -> forall acc, readonly (for_fold xs body acc).
Proof.
  intros Hb. induction xs as [|x r IH]; intros acc; simpl.
  - apply readonly_ret.
  - apply readonly_bind; [apply Hb | exact IH].
Qed.

Lemma readonly_getitem (k : string) : readonly (Hdr.getitem k).
Proof. intros h. apply getitem_state. Qed.

Lemma readonly_value_startswith {S : Type} (v : value) (p : string) :
  readonly (@value_startswith S v p).
Proof. intros h. destruct v; reflexivity. Qed.

Lemma readonly_as_int {S : Type} (v : value) : readonly (@as_int S v).
Proof. intros h. destruct v; reflexivity. Qed.

Lemma readonly_ok {S A : Type} (m : M S A) (s s' : S) (r : result A) :
  readonly m -> m s = (r, s') -> s' = s.
Proof. intros R E. specialize (R s). rewrite E in R. exact R. Qed.

Lemma readonly_headerparse : readonly headerparse.
Proof.
  unfold headerparse.
  apply readonly_bind; [apply readonly_getitem|]. intros nd.
  apply readonly_bind; [apply readonly_as_int|]. intros n.
  apply readonly_bind.
  - apply readonly_for_fold. intros x b.
    apply readonly_bind; [apply readonly_getitem|]. intros v.
    apply readonly_bind; [apply readonly_value_startswith|]. intros c.
    apply readonly_ret.
  - intros [dim|]; [|apply readonly_ret].
    apply readonly_bind; [|intros; apply readonly_ret].
    apply readonly_for_fold. intros x b.
    apply readonly_bind; [apply readonly_getitem|]. intros v. apply readonly_ret.
Qed.

Lemma scan_ok (len : nat) :
  forall (a : nat) (ax ax' : option nat) (h h' : header),
  for_fold (seq a len) headerparse_scan ax h = (Ok ax', h') ->
  (forall i, a <= i < a + len -> stokes_axis h i \/ plain_axis h i) /\
  ((ax' = ax /\ forall i, a <= i < a + len -> plain_axis h i) \/
   (exists j, ax' = Some j /\ a <= j < a + len /\ stokes_axis h j /\
              forall i, j < i < a + len -> plain_axis h i)).
Proof.
  induction len as [|len IH]; intros a ax ax' h h' H; simpl in H.
  - apply ret_ok in H. destruct H as [-> _].
    split; [intros i Hi; lia|]. left. split; [reflexivity | intros i Hi; lia].
  - apply bind_ok in H. destruct H as (ax1 & h1 & B & F).
    unfold headerparse_scan in B.
    apply bind_ok in B. destruct B as (v & h2 & G & B).
    apply getitem_ok in G. destruct G as [G ->].
    apply bind_ok in B. destruct B as (b & h3 & S & B).
    apply value_startswith_ok in S. destruct S as (s & -> & -> & ->).
    apply ret_ok in B. destruct B as [-> ->].
    apply IH in F. destruct F as [Fall F].
    assert (Ha : if PyStr.startswith s "STOKES" then stokes_axis h a else plain_axis h a).
    { destruct (PyStr.startswith s "STOKES") eqn:E; exists s; auto. }
    split.
    + intros i Hi. destruct (Nat.eq_dec i a) as [->|N].
      * destruct (PyStr.startswith s "STOKES"); auto.
      * apply Fall. lia.
    + destruct F as [[-> Hp]|(j & -> & Hj & Sj & Hp)].
      * destruct (PyStr.startswith s "STOKES") eqn:E.
        -- right. exists a. repeat split; try lia; [exact Ha|].
           intros i Hi. apply Hp. lia.
        -- left. split; [reflexivity|]. intros i Hi.
           destruct (Nat.eq_dec i a) as [->|N]; [exact Ha | apply Hp; lia].
      * right. exists j. repeat split; try lia; [exact Sj|].
        intros i Hi. apply Hp. lia.
Qed.

Lemma scan_total (len : nat) :
  forall (a : nat) (ax : option nat) (h : header),
  (forall i, a <= i < a + len -> exists s, Hdr.get (ctype_key i) h = Some (VStr s)) ->
  exists ax', for_fold (seq a len) headerparse_scan ax h = (Ok ax', h).
Proof.
  induction len as [|len IH]; intros a ax h C; simpl.
  - eexists; reflexivity.
  - destruct (C a ltac:(lia)) as (s & G).
    unfold bind at 1, headerparse_scan at 1, bind at 1.
    unfold ctype_key in G. rewrite (getitem_of_get _ _ _ G).
    simpl. apply IH. intros i Hi. apply C. lia.
Qed.

Lemma copy_ok (dim : nat) (h h' : header) (hn : list (string * value)) :
  for_fold keys2analy (headerparse_copy dim) [] h = (Ok hn, h') ->
  exists v1 v2 v3 v4 v5 v6,
    Hdr.get ("NAXIS" ++ PyStr.fmt_d dim)%string h = Some v1 /\
    Hdr.get ("CTYPE" ++ PyStr.fmt_d dim)%string h = Some v2 /\
    Hdr.get ("CRVAL" ++ PyStr.fmt_d dim)%string h = Some v3 /\
    Hdr.get ("CDELT" ++ PyStr.fmt_d dim)%string h = Some v4 /\
    Hdr.get ("CRPIX" ++ PyStr.fmt_d dim)%string h = Some v5 /\
    Hdr.get ("CUNIT" ++ PyStr.fmt_d dim)%string h = Some v6 /\
    hn = [("NAXIS4", v1); ("CTYPE4", v2); ("CRVAL4", v3);
          ("CDELT4", v4); ("CRPIX4", v5); ("CUNIT4", v6)].
Proof.
  unfold keys2analy. simpl for_fold. unfold headerparse_copy. intros H.
  do 6 (let B := fresh "B" in
        let G := fresh "G" in
        let R := fresh "R" in
        apply bind_ok in H; destruct H as (? & ? & B & H);
        apply bind_ok in B; destruct B as (? & ? & G & R);
        apply getitem_ok in G; destruct G as [G ->];
        apply ret_ok in R; destruct R as [-> ->]).
  apply ret_ok in H. destruct H as [-> _].
  do 6 eexists. repeat (split; [eassumption|]). reflexivity.
Qed.

Lemma copy_total (dim : nat) (h : header) :
  (forall k, In k keys2analy -> Hdr.get (k ++ PyStr.fmt_d dim)%string h <> None) ->
  exists hn, for_fold keys2analy (headerparse_copy dim) [] h = (Ok hn, h).
Proof.
  intros P. unfold keys2analy in *. simpl for_fold. unfold headerparse_copy.
  assert (G : forall k, In k ["NAXIS"; "CTYPE"; "CRVAL"; "CDELT"; "CRPIX"; "CUNIT"] ->
              exists v, Hdr.getitem (k ++ PyStr.fmt_d dim)%string h = (Ok v, h)).
  { intros k I. specialize (P k I). destruct (Hdr.get _ h) as [v|] eqn:E; [|congruence].
    exists v. apply getitem_of_get. exact E. }
  destruct (G "NAXIS") as (v1 & G1); [simpl; tauto|].
  destruct (G "CTYPE") as (v2 & G2); [simpl; tauto|].
  destruct (G "CRVAL") as (v3 & G3); [simpl; tauto|].
  destruct (G "CDELT") as (v4 & G4); [simpl; tauto|].
  destruct (G "CRPIX") as (v5 & G5); [simpl; tauto|].
  destruct (G "CUNIT") as (v6 & G6); [simpl; tauto|].
  unfold bind. rewrite G1. unfold ret at 1. rewrite G2. unfold ret at 1.
  rewrite G3. unfold ret at 1. rewrite G4. unfold ret at 1.
  rewrite G5. unfold ret at 1. rewrite G6. unfold ret at 1.
  eexists. reflexivity.
Qed.

(** C9: with an integer NAXIS card, [headerparse] never changes the
    header; it returns when axes 1..NAXIS carry a string type card and the
    six cards of each axis are present; and when it returns, [axis] is the
    largest index in 1..NAXIS whose type card starts with STOKES, or [None]
    when there is none, and [headernew] holds exactly the six cards of that
    axis under NAXIS4, CTYPE4, CRVAL4, CDELT4, CRPIX4, CUNIT4, or is empty. *)
Theorem headerparse_stokes_axis (h : header) (n : Z) :
  Hdr.get "NAXIS" h = Some (VInt n) ->
  snd (headerparse h) = h /\
  ((forall i, 1 <= i <= Z.to_nat n ->
      (exists s, Hdr.get (ctype_key i) h = Some (VStr s)) /\
      (forall k, In k keys2analy -> Hdr.get (k ++ PyStr.fmt_d i)%string h <> None)) ->
   exists info, headerparse h = (Ok info, h)) /\
  (forall info h', headerparse h = (Ok info, h') ->
     match axis info with
     | None =>
         headernew info = [] /\
         forall i, 1 <= i <= Z.to_nat n -> plain_axis h i
     | Some a =>
         1 <= a <= Z.to_nat n /\ stokes_axis h a /\
         (forall i, a < i <= Z.to_nat n -> plain_axis h i) /\
         exists v1 v2 v3 v4 v5 v6,
           Hdr.get ("NAXIS" ++ PyStr.fmt_d a)%string h = Some v1 /\
           Hdr.get ("CTYPE" ++ PyStr.fmt_d a)%string h = Some v2 /\
           Hdr.get ("CRVAL" ++ PyStr.fmt_d a)%string h = Some v3 /\
           Hdr.get ("CDELT" ++ PyStr.fmt_d a)%string h = Some v4 /\
           Hdr.get ("CRPIX" ++ PyStr.fmt_d a)%string h = Some v5 /\
           Hdr.get ("CUNIT" ++ PyStr.fmt_d a)%string h = Some v6 /\
           headernew info = [("NAXIS4", v1); ("CTYPE4", v2); ("CRVAL4", v3);
                             ("CDELT4", v4); ("CRPIX4", v5); ("CUNIT4", v6)]
     end).
Proof.
  intros N. split; [apply readonly_headerparse|].
  assert (E : headerparse h =
              bind (for_fold (range1 n) headerparse_scan None)
                (fun ax => match ax with
                           | Some dim =>
                               hn <- for_fold keys2analy (headerparse_copy dim) [] ;;
                               ret {| axis := Some dim; headernew := hn |}
                           | None => ret {| axis := None; headernew := [] |}
                           end) h).
  { unfold headerparse. unfold bind at 1.
    rewrite (getitem_of_get _ _ _ N). reflexivity. }
  rewrite E. clear E. unfold range1. split.
  - intros P.
    destruct (scan_total (Z.to_nat n) 1 None h) as (ax & F).
    { intros i Hi. apply P. lia. }
    rewrite (bind_of_ok _ _ _ _ _ F).
    pose proof (scan_ok _ _ _ _ _ _ F) as (_ & [[-> _]|(j & -> & Hj & _)]).
    + eexists. reflexivity.
    + destruct (copy_total j h) as (hn & C); [apply P; lia|].
      rewrite (bind_of_ok _ _ _ _ _ C). eexists. reflexivity.
  - intros info h' H. apply bind_ok in H. destruct H as (ax & h1 & F & H).
    pose proof (readonly_for_fold (seq 1 (Z.to_nat n)) headerparse_scan) as RO.
    assert (h1 = h) as ->.
    { specialize (RO (fun x b => readonly_bind _ _ (readonly_getitem _)
                        (fun v => readonly_bind _ _ (readonly_value_startswith _ _)
                           (fun c => readonly_ret _))) None h).
      rewrite F in RO. exact RO. }
    apply scan_ok in F. destruct F as (_ & [[-> Hp]|(j & -> & Hj & Sj & Hp)]).
    + apply ret_ok in H. destruct H as [-> _]. simpl.
      split; [reflexivity|]. intros i Hi. apply Hp. lia.
    + apply bind_ok in H. destruct H as (hn & h2 & C & R).
      apply ret_ok in R. destruct R as [-> _]. simpl.
      split; [lia|]. split; [exact Sj|]. split; [intros i Hi; apply Hp; lia|].
      apply copy_ok in C. exact C.
Qed.

Lemma headerparse_stokes_axis_witness :
  exists info, headerparse sample_stokes_header = (Ok info, sample_stokes_header).
Proof.
  refine (proj1 (proj2 (headerparse_stokes_axis sample_stokes_header 2 eq_refl)) _).
  intros i Hi.
  assert (C : i = 1 \/ i = 2) by (simpl in Hi; lia).
  destruct C as [-> | ->]; (split; [eexists; reflexivity|]);
    intros k I; simpl in I;
    repeat (destruct I as [<-|I]; [vm_compute; discriminate|]); destruct I.
Defined.

(* ----------------------------------------------------------------- *)
(** ** headersqueeze *)

Lemma to_uint_nonnil (n : nat) : Nat.to_uint n <> Decimal.Nil.
Proof.
  rewrite <- (Unsigned.of_to n) at 1. rewrite Unsigned.to_of. apply unorm_nonnil.
Qed.

Lemma fmt_d_empty_form (n : nat) :
  PyStr.fmt_d n = NilEmpty.string_of_uint (Nat.to_uint n).
Proof.
  unfold PyStr.fmt_d, NilZero.string_of_uint.
  pose proof (to_uint_nonnil n) as H. destruct (Nat.to_uint n); congruence.
Qed.

Lemma parse_fmt_d (n : nat) : parse_nat (PyStr.fmt_d n) = Some n.
Proof.
  unfold parse_nat. rewrite fmt_d_empty_form, NilEmpty.usu. simpl.
  rewrite Unsigned.of_to. reflexivity.
Qed.


Lemma fmt_d_inj (n m : nat) : PyStr.fmt_d n = PyStr.fmt_d m -> n = m.
Proof.
  intros H. pose proof (parse_fmt_d n) as A. rewrite H, parse_fmt_d in A. congruence.
Qed.







Lemma append_inj_length (a b c d : string) :
  String.length a = String.length c ->
  (a ++ b)%string = (c ++ d)%string -> a = c /\ b = d.
Proof.
  revert c. induction a as [|x a IH]; intros [|y c] L H; simpl in *; try discriminate.
  - auto.
  - inversion H. subst y. destruct (IH c) as [-> ->]; [lia | assumption | auto].
Qed.

Lemma keys2chng_length (k : string) : In k keys2chng -> String.length k = 5.
Proof.
  unfold keys2chng. simpl. intros H.
  repeat (destruct H as [<-|H]; [reflexivity|]). destruct H.
Qed.

Lemma axis_key_inj (k k' : string) (i j : nat) :
  In k keys2chng -> In k' keys2chng ->
  (k ++ PyStr.fmt_d i)%string = (k' ++ PyStr.fmt_d j)%string -> k = k' /\ i = j.
Proof.
  intros Hk Hk' H.
  apply append_inj_length in H.
  - destruct H as [-> E]. split; [reflexivity | apply fmt_d_inj; exact E].
  - rewrite !keys2chng_length by assumption. reflexivity.
Qed.

Lemma keys2chng_first (k : string) :
  In k keys2chng -> exists r, k = String "N" r \/ k = String "C" r.
Proof.
  unfold keys2chng. simpl. intros H.
  repeat (destruct H as [<-|H]; [eexists; auto|]). destruct H.
Qed.

Lemma pc_key_not_axis (i j n : nat) (k : string) :
  In k keys2chng -> pc_key i j <> (k ++ PyStr.fmt_d n)%string.
Proof.
  intros Hk E. apply keys2chng_first in Hk. destruct Hk as (r & [-> | ->]);
    unfold pc_key in E; simpl in E; discriminate E.
Qed.

Lemma pc_key_not_stokes (i j : nat) : pc_key i j <> "STOKES".
Proof. unfold pc_key. simpl. discriminate. Qed.


Lemma axis_key_not_stokes (k : string) (n : nat) :
  In k keys2chng -> (k ++ PyStr.fmt_d n)%string <> "STOKES".
Proof.
  intros Hk E. apply keys2chng_first in Hk. destruct Hk as (r & [-> | ->]);
    simpl in E; discriminate E.
Qed.

Lemma del_of_get (k : string) (h : header) :
  Hdr.get k h <> None -> exists h', Hdr.del k h = Some h'.
Proof.
  induction h as [|[k' v'] r IH]; simpl; [congruence|].
  destruct (String.eqb k' k); [eauto|].
  intros G. destruct (IH G) as (r' & ->). eauto.
Qed.

Lemma get_del_other (k k0 : string) (h h' : header) :
  Hdr.del k h = Some h' -> k0 <> k -> Hdr.get k0 h' = Hdr.get k0 h.
Proof.
  revert h'. induction h as [|[k' v'] r IH]; simpl; intros h' D N; [discriminate|].
  destruct (String.eqb_spec k' k).
  - inversion D. subst. destruct (String.eqb_spec k k0); [congruence | reflexivity].
  - destruct (Hdr.del k r) as [r'|]; [|discriminate]. inversion D. subst h'. simpl.
    destruct (String.eqb k' k0); [reflexivity | apply IH; auto].
Qed.

Lemma keywords_del (k : string) (h h' : header) :
  Hdr.del k h = Some h' ->
  forall x, In x (Hdr.keywords h') -> In x (Hdr.keywords h).
Proof.
  revert h'. induction h as [|[k' v'] r IH]; simpl; intros h' D x I; [discriminate|].
  destruct (String.eqb k' k).
  - inversion D. subst. auto.
  - destruct (Hdr.del k r) as [r'|]; [|discriminate]. inversion D. subst h'.
    simpl in I. destruct I as [I|I]; [auto | right; apply (IH r'); auto].
Qed.

Lemma nodup_del (k : string) (h h' : header) :
  NoDup (Hdr.keywords h) -> Hdr.del k h = Some h' -> NoDup (Hdr.keywords h').
Proof.
  revert h'. induction h as [|[k' v'] r IH]; simpl; intros h' N D; [discriminate|].
  inversion N as [|? ? Hn Hr]. subst.
  destruct (String.eqb k' k).
  - inversion D. subst. exact Hr.
  - destruct (Hdr.del k r) as [r'|] eqn:E; [|discriminate]. inversion D. subst h'.
    simpl. constructor; [|apply IH; auto].
    intros I. apply Hn. apply (keywords_del _ _ _ E). exact I.
Qed.

Lemma get_del_same (k : string) (h h' : header) :
  NoDup (Hdr.keywords h) -> Hdr.del k h = Some h' -> Hdr.get k h' = None.
Proof.
  revert h'. induction h as [|[k' v'] r IH]; simpl; intros h' N D; [discriminate|].
  inversion N as [|? ? Hn Hr]. subst.
  destruct (String.eqb_spec k' k).
  - inversion D. subst.
    destruct (Hdr.get k h') eqn:G; [|reflexivity].
    exfalso. apply Hn. apply get_in. congruence.
  - destruct (Hdr.del k r) as [r'|] eqn:E; [|discriminate]. inversion D. subst h'.
    simpl. destruct (String.eqb_spec k' k); [congruence|]. apply IH; auto.
Qed.

Lemma nodup_set (k : string) (v : value) (h : header) :
  NoDup (Hdr.keywords h) -> NoDup (Hdr.keywords (Hdr.set k v h)).
Proof.
  intros N. rewrite keywords_set. unfold Hdr.mem.
  destruct (Hdr.get k h) eqn:G; [exact N|].
  apply NoDup_app; [exact N | constructor; [tauto | constructor] |].
  intros x I [<-|[]]. apply get_in in I. congruence.
Qed.



Lemma for_each_app {S A : Type} (l1 l2 : list A) (f : A -> M S unit) (s : S) :
  for_each (l1 ++ l2) f s = bind (for_each l1 f) (fun _ => for_each l2 f) s.
Proof.
  revert s. induction l1 as [|x l1 IH]; intros s; simpl.
  - reflexivity.
  - unfold bind. destruct (f x s) as [[u|e] s1]; [|reflexivity].
    rewrite IH. reflexivity.
Qed.

Lemma bind_ext {S A B : Type} (m1 m2 : M S A) (f1 f2 : A -> M S B) (s : S) :
  m1 s = m2 s -> (forall a s', f1 a s' = f2 a s') -> bind m1 f1 s = bind m2 f2 s.
Proof.
  intros E F. unfold bind. rewrite E. destruct (m2 s) as [[a|e] s1]; [apply F | reflexivity].
Qed.

Lemma bind_assoc {S A B C : Type} (m : M S A) (f : A -> M S B) (g : B -> M S C) (s : S) :
  bind (bind m f) g s = bind m (fun a => bind (f a) g) s.
Proof. unfold bind. destruct (m s) as [[a|e] s1]; reflexivity. Qed.

Lemma squeeze_pc_row_moves (dims : list nat) (dim1 idx1 c1 : nat) :
  forall (idx2 c2 : nat) (h : header),
  squeeze_pc_row dims dim1 idx1 c1 idx2 c2 h
  = for_each (map (pc_move {| ax_index := idx1 + 1; ax_kept := (1 <? dim1)%nat; ax_new := c1 |})
                  (axis_entries dims idx2 c2)) move_step h.
Proof.
  induction dims as [|dim2 rest IH]; intros idx2 c2 h; simpl; [reflexivity|].
  unfold move_step at 1. rewrite bind_assoc. simpl src.
  apply bind_ext; [reflexivity|]. intros present s'.
  apply bind_ext; [|intros _ s''; apply IH].
  destruct present; [|reflexivity].
  apply bind_ext; [reflexivity|]. intros v s2.
  apply bind_ext; [reflexivity|]. intros _ s3. simpl.
  destruct ((1 <? dim1)%nat && (1 <? dim2)%nat); reflexivity.
Qed.

Lemma squeeze_pc_moves (dims all : list nat) :
  forall (idx1 c1 : nat) (h : header),
  squeeze_pc dims all idx1 c1 h
  = for_each (flat_map (fun a1 => map (pc_move a1) (axis_entries all 0 0))
                       (axis_entries dims idx1 c1)) move_step h.
Proof.
  induction dims as [|dim1 rest IH]; intros idx1 c1 h; simpl; [reflexivity|].
  rewrite for_each_app. apply bind_ext.
  - apply squeeze_pc_row_moves.
  - intros _ s'. apply IH.
Qed.

Lemma firstn_succ_nth (l : list nat) (i : nat) :
  i < List.length l -> firstn (S i) l = firstn i l ++ [nth i l 0].
Proof.
  revert i. induction l as [|d r IH]; intros i L; simpl in L; [lia|].
  destruct i as [|i]; [reflexivity|].
  change (firstn (S (S i)) (d :: r)) with (d :: firstn (S i) r).
  rewrite IH by lia. reflexivity.
Qed.

Lemma compact_index_succ (dims : list nat) (i : nat) :
  i < List.length dims ->
  compact_index dims (S i)
  = compact_index dims i + (if (1 <? nth i dims 0)%nat then 1 else 0).
Proof.
  intros L. unfold compact_index. rewrite firstn_succ_nth by exact L.
  rewrite filter_app, length_app. simpl.
  destruct (1 <? nth i dims 0)%nat; reflexivity.
Qed.

Lemma compact_index_zero (dims : list nat) : compact_index dims 0 = 0.
Proof. reflexivity. Qed.

Lemma compact_index_mono (dims : list nat) (i j : nat) :
  i <= j -> compact_index dims i <= compact_index dims j.
Proof.
  intros L. induction L as [|j L IH]; [lia|].
  destruct (Nat.lt_ge_cases j (List.length dims)) as [B|B].
  - rewrite compact_index_succ by exact B. lia.
  - unfold compact_index in *. rewrite (firstn_all2 (n := S j)) by lia.
    rewrite (firstn_all2 (n := j)) in IH by lia. exact IH.
Qed.


Lemma compact_index_kept (dims : list nat) (i j : nat) :
  1 <= j <= List.length dims -> 1 < axis_len dims j -> i < j ->
  compact_index dims i < compact_index dims j.
Proof.
  intros Hj K L. unfold axis_len in K.
  destruct j as [|j]; [lia|]. simpl in K. rewrite Nat.sub_0_r in K.
  rewrite compact_index_succ by lia.
  apply Nat.ltb_lt in K. rewrite K.
  pose proof (compact_index_mono dims i j). lia.
Qed.


Lemma axis_entries_spec (dims : list nat) :
  forall idx c0,
  axis_entries dims idx c0
  = map (fun i => {| ax_index := idx + i;
                     ax_kept := (1 <? axis_len dims i)%nat;
                     ax_new := c0 + compact_index dims i |})
        (seq 1 (List.length dims)).
Proof.
  induction dims as [|d r IH]; intros idx c0; simpl; [reflexivity|].
  f_equal.
  - unfold axis_len, compact_index. simpl. f_equal.
    destruct (1 <? d)%nat; simpl; lia.
  - rewrite IH. rewrite <- (seq_shift (List.length r) 1), map_map.
    apply map_ext_in. intros i Hi. apply in_seq in Hi.
    f_equal; [lia | |].
    + unfold axis_len. destruct i as [|i]; [lia|]. simpl. rewrite Nat.sub_0_r. reflexivity.
    + unfold compact_index. change (firstn (S i) (d :: r)) with (d :: firstn i r).
      simpl. destruct (1 <? d)%nat; simpl; lia.
Qed.

Lemma axis_entries_start (dims : list nat) :
  axis_entries dims 0 0 = map (entry_of dims) (seq 1 (List.length dims)).
Proof. rewrite axis_entries_spec. reflexivity. Qed.

Lemma flat_map_grid (dims : list nat) (l1 l2 : list nat) :
  flat_map (fun a1 => map (pc_move a1) (map (entry_of dims) l2)) (map (entry_of dims) l1)
  = map (grid_move dims) (list_prod l1 l2).
Proof.
  induction l1 as [|x l1 IH]; simpl; [reflexivity|].
  rewrite IH, map_app, !map_map. reflexivity.
Qed.

Lemma squeeze_pc_grid (dims : list nat) (h : header) :
  squeeze_pc dims dims 0 0 h
  = for_each (map (grid_move dims) (grid (List.length dims))) move_step h.
Proof.
  rewrite squeeze_pc_moves, axis_entries_start. unfold grid.
  rewrite flat_map_grid. reflexivity.
Qed.






Lemma grid_move_dst (dims : list nat) (p : nat * nat) (d : string) :
  dst (grid_move dims p) = Some d ->
  1 < axis_len dims (fst p) /\ 1 < axis_len dims (snd p) /\
  d = pc_key (compact_index dims (fst p)) (compact_index dims (snd p)).
Proof.
  unfold grid_move, pc_move. simpl.
  destruct (1 <? axis_len dims (fst p))%nat eqn:K1; simpl; [|discriminate].
  destruct (1 <? axis_len dims (snd p))%nat eqn:K2; simpl; [|discriminate].
  apply Nat.ltb_lt in K1, K2. intros E. inversion E. auto.
Qed.






Lemma preserves_ret {A : Type} (x : string) (a : A) : preserves x (ret a).
Proof. intros h r h' H. inversion H. reflexivity. Qed.

Lemma preserves_bind {A B : Type} (x : string) (m : M header A) (f : A -> M header B) :
  preserves x m -> (forall a, preserves x (f a)) -> preserves x (bind m f).
Proof.
  intros Hm Hf h r h' H. unfold bind in H.
  destruct (m h) as [[a|e] h1] eqn:E.
  - rewrite (Hf a _ _ _ H). apply (Hm _ _ _ E).
  - inversion H. subst. apply (Hm _ _ _ E).
Qed.

Lemma preserves_for_each {A : Type} (x : string) (l : list A) (f : A -> M header unit) :
  (forall a, In a l -> preserves x (f a)) -> preserves x (for_each l f).
Proof.
  induction l as [|a l IH]; intros Hf; simpl.
  - apply preserves_ret.
  - apply preserves_bind; [apply Hf; left; reflexivity|].
    intros _. apply IH. intros b Ib. apply Hf. right. exact Ib.
Qed.

Lemma preserves_readonly {A : Type} (x : string) (m : M header A) :
  readonly m -> preserves x m.
Proof. intros R h r h' H. rewrite (readonly_ok _ _ _ _ R H). reflexivity. Qed.

Lemma preserves_setitem (x k : string) (v : value) :
  x <> k -> preserves x (Hdr.setitem k v).
Proof. intros N h r h' H. inversion H. apply get_set_other. exact N. Qed.

Lemma preserves_remove (x k : string) : x <> k -> preserves x (Hdr.remove k).
Proof.
  intros N h r h' H. unfold Hdr.remove in H.
  destruct (Hdr.del k h) as [h0|] eqn:D; inversion H; subst; [|reflexivity].
  apply (get_del_other _ _ _ _ D N).
Qed.

Lemma keeps_nodup_ret {A : Type} (a : A) : keeps_nodup (ret a).
Proof. intros h r h' N H. inversion H. subst. exact N. Qed.

Lemma keeps_nodup_bind {A B : Type} (m : M header A) (f : A -> M header B) :
  keeps_nodup m -> (forall a, keeps_nodup (f a)) -> keeps_nodup (bind m f).
Proof.
  intros Hm Hf h r h' N H. unfold bind in H.
  destruct (m h) as [[a|e] h1] eqn:E.
  - apply (Hf a _ _ _ (Hm _ _ _ N E) H).
  - inversion H. subst. apply (Hm _ _ _ N E).
Qed.

Lemma keeps_nodup_for_each {A : Type} (l : list A) (f : A -> M header unit) :
  (forall a, keeps_nodup (f a)) -> keeps_nodup (for_each l f).
Proof.
  intros Hf. induction l as [|a l IH]; simpl.
  - apply keeps_nodup_ret.
  - apply keeps_nodup_bind; [apply Hf | intros _; exact IH].
Qed.

Lemma keeps_nodup_readonly {A : Type} (m : M header A) : readonly m -> keeps_nodup m.
Proof. intros R h r h' N H. rewrite (readonly_ok _ _ _ _ R H). exact N. Qed.

Lemma keeps_nodup_setitem (k : string) (v : value) : keeps_nodup (Hdr.setitem k v).
Proof. intros h r h' N H. inversion H. apply nodup_set. exact N. Qed.

Lemma keeps_nodup_remove (k : string) : keeps_nodup (Hdr.remove k).
Proof.
  intros h r h' N H. unfold Hdr.remove in H.
  destruct (Hdr.del k h) as [h0|] eqn:D; inversion H; subst; [|exact N].
  apply (nodup_del _ _ _ N D).
Qed.

Lemma preserves_squeeze_key (x : string) (dim idx c : nat) (k : string) :
  x <> (k ++ PyStr.fmt_d (idx + 1))%string -> x <> (k ++ PyStr.fmt_d c)%string ->
  x <> "STOKES" ->
  preserves x (squeeze_key dim idx c k).
Proof.
  intros N1 N2 N3. unfold squeeze_key.
  apply preserves_bind; [apply preserves_readonly, readonly_getitem|]. intros v.
  apply preserves_bind; [apply preserves_remove; exact N1|]. intros _.
  destruct (1 <? dim)%nat; [apply preserves_setitem; exact N2|].
  destruct (String.eqb k "CTYPE"); [|apply preserves_ret].
  apply preserves_bind; [apply preserves_readonly, readonly_value_startswith|].
  intros [|]; [|apply preserves_ret].
  apply preserves_bind; [apply preserves_readonly, readonly_getitem|]. intros w.
  apply preserves_setitem. exact N3.
Qed.

Lemma keeps_nodup_squeeze_key (dim idx c : nat) (k : string) :
  keeps_nodup (squeeze_key dim idx c k).
Proof.
  unfold squeeze_key.
  apply keeps_nodup_bind; [apply keeps_nodup_readonly, readonly_getitem|]. intros v.
  apply keeps_nodup_bind; [apply keeps_nodup_remove|]. intros _.
  destruct (1 <? dim)%nat; [apply keeps_nodup_setitem|].
  destruct (String.eqb k "CTYPE"); [|apply keeps_nodup_ret].
  apply keeps_nodup_bind; [apply keeps_nodup_readonly, readonly_value_startswith|].
  intros [|]; [|apply keeps_nodup_ret].
  apply keeps_nodup_bind; [apply keeps_nodup_readonly, readonly_getitem|]. intros w.
  apply keeps_nodup_setitem.
Qed.

Lemma squeeze_axes_cons (d : nat) (r : list nat) (idx c : nat) :
  squeeze_axes (d :: r) idx c
  = bind (for_each keys2chng
            (squeeze_key d idx (if (1 <? d)%nat then S c else c)))
         (fun _ => squeeze_axes r (S idx) (if (1 <? d)%nat then S c else c)).
Proof. reflexivity. Qed.

Lemma keeps_nodup_squeeze_axes (dims : list nat) :
  forall idx c, keeps_nodup (squeeze_axes dims idx c).
Proof.
  induction dims as [|d r IH]; intros idx c.
  - apply keeps_nodup_ret.
  - rewrite squeeze_axes_cons. apply keeps_nodup_bind; [|intros _; apply IH].
    apply keeps_nodup_for_each. intros k. apply keeps_nodup_squeeze_key.
Qed.

(** The first loop of the squeeze leaves every card alone that is neither
    an axis card nor the STOKES card. *)
Lemma preserves_squeeze_axes (x : string) (dims : list nat) :
  (forall k n, In k keys2chng -> x <> (k ++ PyStr.fmt_d n)%string) -> x <> "STOKES" ->
  forall idx c, preserves x (squeeze_axes dims idx c).
Proof.
  intros N1 N2. induction dims as [|d r IH]; intros idx c.
  - apply preserves_ret.
  - rewrite squeeze_axes_cons. apply preserves_bind; [|intros _; apply IH].
    apply preserves_for_each. intros k Ik.
    apply preserves_squeeze_key; auto.
Qed.

Lemma squeeze_key_total (dim idx c : nat) (k : string) (h : header) :
  In k keys2chng ->
  Hdr.get (k ++ PyStr.fmt_d (idx + 1))%string h <> None ->
  (k = "CTYPE" ->
   (exists s, Hdr.get ("CTYPE" ++ PyStr.fmt_d (idx + 1))%string h = Some (VStr s)) /\
   Hdr.get ("CRVAL" ++ PyStr.fmt_d (idx + 1))%string h <> None) ->
  exists h', squeeze_key dim idx c k h = (Ok tt, h').
Proof.
  intros Ik G T. unfold squeeze_key.
  destruct (Hdr.get (k ++ PyStr.fmt_d (idx + 1))%string h) as [v|] eqn:E; [|congruence].
  unfold bind at 1. rewrite (getitem_of_get _ _ _ E).
  destruct (del_of_get _ h ltac:(rewrite E; discriminate)) as (h0 & D).
  unfold bind at 1, Hdr.remove at 1. rewrite D.
  destruct (1 <? dim)%nat; [eexists; reflexivity|].
  destruct (String.eqb_spec k "CTYPE") as [->|Nk]; [|eexists; reflexivity].
  destruct (T eq_refl) as ((s & Gs) & Gc). rewrite E in Gs. inversion Gs. subst v.
  unfold bind at 1. simpl value_startswith. unfold ret at 1.
  destruct (PyStr.startswith s "STOKES"); [|eexists; reflexivity].
  assert (Gc0 : Hdr.get ("CRVAL" ++ PyStr.fmt_d (idx + 1))%string h0
                = Hdr.get ("CRVAL" ++ PyStr.fmt_d (idx + 1))%string h).
  { apply (get_del_other _ _ _ _ D). simpl. discriminate. }
  destruct (Hdr.get ("CRVAL" ++ PyStr.fmt_d (idx + 1))%string h0) as [w|] eqn:Ew; [|congruence].
  unfold bind at 1. rewrite (getitem_of_get _ _ _ Ew). eexists. reflexivity.
Qed.

Lemma squeeze_keys_total (dim idx c : nat) (ks : list string) :
  forall h : header,
  NoDup ks -> incl ks keys2chng -> crval_after_ctype ks = true ->
  (forall k, In k ks -> Hdr.get (k ++ PyStr.fmt_d (idx + 1))%string h <> None) ->
  (In "CTYPE" ks ->
   (exists s, Hdr.get ("CTYPE" ++ PyStr.fmt_d (idx + 1))%string h = Some (VStr s)) /\
   Hdr.get ("CRVAL" ++ PyStr.fmt_d (idx + 1))%string h <> None) ->
  exists h', for_each ks (squeeze_key dim idx c) h = (Ok tt, h').
Proof.
  induction ks as [|k ks IH]; intros h N I O P T; simpl.
  - eexists. reflexivity.
  - inversion N as [|? ? Nk Nr]. subst.
    assert (Ik : In k keys2chng) by (apply I; left; reflexivity).
    destruct (squeeze_key_total dim idx c k h Ik) as (h1 & E1).
    { apply P. left. reflexivity. }
    { intros ->. apply T. left. reflexivity. }
    unfold bind. rewrite E1.
    cbn [crval_after_ctype] in O. apply andb_true_iff in O. destruct O as [O1 O2].
    assert (Fr : forall k', In k' keys2chng -> k' <> k ->
               Hdr.get (k' ++ PyStr.fmt_d (idx + 1))%string h1
               = Hdr.get (k' ++ PyStr.fmt_d (idx + 1))%string h).
    { intros k' Ik' Nk'.
      apply (preserves_squeeze_key _ dim idx c k) with (r := Ok tt); [| | |exact E1].
      - intros E. apply axis_key_inj in E; [tauto | assumption | assumption].
      - intros E. apply axis_key_inj in E; [tauto | assumption | assumption].
      - apply axis_key_not_stokes. exact Ik'. }
    apply IH; [exact Nr | intros k' Ik'; apply I; right; exact Ik' | exact O2 | |].
    + intros k' Ik'. rewrite Fr.
      * apply P. right. exact Ik'.
      * apply I. right. exact Ik'.
      * intros ->. tauto.
    + intros Ic.
      assert (Ec : existsb (String.eqb "CTYPE") ks = true).
      { apply existsb_exists. exists "CTYPE". split; [exact Ic | reflexivity]. }
      rewrite Ec in O1. simpl in O1. rewrite orb_false_r in O1.
      apply negb_true_iff in O1. apply String.eqb_neq in O1.
      destruct (T (or_intror Ic)) as ((s & Gs) & Gc).
      split.
      * exists s. rewrite (Fr "CTYPE"); [exact Gs | unfold keys2chng; simpl; tauto |].
        intros E. apply Nk. rewrite <- E. exact Ic.
      * rewrite (Fr "CRVAL"); [exact Gc | unfold keys2chng; simpl; tauto |].
        intros E. apply O1. symmetry. exact E.
Qed.

Lemma squeeze_axes_total (dims : list nat) :
  forall (idx c : nat) (h : header),
  c <= idx ->
  (forall j, idx < j <= idx + List.length dims ->
     (forall k, In k keys2chng -> Hdr.get (k ++ PyStr.fmt_d j)%string h <> None) /\
     (exists s, Hdr.get (ctype_key j) h = Some (VStr s))) ->
  exists h', squeeze_axes dims idx c h = (Ok tt, h').
Proof.
  induction dims as [|d r IH]; intros idx c h L P.
  - eexists. reflexivity.
  - rewrite squeeze_axes_cons. set (c' := if (1 <? d)%nat then S c else c).
    assert (Lc : c' <= S idx) by (unfold c'; destruct (1 <? d)%nat; lia).
    destruct (P (idx + 1)) as [P1 P2]; [simpl; lia|].
    destruct (squeeze_keys_total d idx c' keys2chng h) as (h1 & E1).
    + unfold keys2chng. repeat constructor; simpl; intuition discriminate.
    + apply incl_refl.
    + reflexivity.
    + exact P1.
    + intros _. split; [exact P2|]. apply P1. unfold keys2chng. simpl. tauto.
    + unfold bind. rewrite E1. apply IH; [exact Lc|].
      intros j Hj. simpl in P.
      assert (Fr : forall k, In k keys2chng ->
                 Hdr.get (k ++ PyStr.fmt_d j)%string h1 = Hdr.get (k ++ PyStr.fmt_d j)%string h).
      { intros k Ik.
        apply (preserves_for_each _ keys2chng (squeeze_key d idx c')) with (r := Ok tt);
          [|exact E1].
        intros k0 Ik0. apply preserves_squeeze_key.
        - intros E. apply axis_key_inj in E; [lia | assumption | assumption].
        - intros E. apply axis_key_inj in E; [lia | assumption | assumption].
        - apply axis_key_not_stokes. exact Ik. }
      destruct (P j) as [Q1 Q2]; [lia|]. split.
      * intros k Ik. rewrite Fr by exact Ik. apply Q1. exact Ik.
      * destruct Q2 as (s & Gs). exists s. unfold ctype_key in *.
        rewrite Fr; [exact Gs | unfold keys2chng; simpl; tauto].
Qed.

Lemma move_step_total (m : move) (h : header) : exists h', move_step m h = (Ok tt, h').
Proof.
  unfold move_step, bind at 1, Hdr.contains, Hdr.mem.
  destruct (Hdr.get (src m) h) as [v|] eqn:G; [|eexists; reflexivity].
  unfold bind at 1, Hdr.getitem. rewrite G.
  destruct (del_of_get (src m) h) as (h0 & D); [congruence|].
  unfold bind at 1, Hdr.remove. rewrite D.
  destruct (dst m); eexists; reflexivity.
Qed.

Lemma for_each_total {S A : Type} (l : list A) (f : A -> M S unit) :
  (forall a s, exists s', f a s = (Ok tt, s')) ->
  forall s, exists s', for_each l f s = (Ok tt, s').
Proof.
  intros T. induction l as [|a l IH]; intros s; simpl.
  - eexists. reflexivity.
  - destruct (T a s) as (s1 & E). unfold bind. rewrite E. apply IH.
Qed.

Lemma squeeze_pc_total (dims : list nat) (h : header) :
  exists h', squeeze_pc dims dims 0 0 h = (Ok tt, h').
Proof. rewrite squeeze_pc_grid. apply for_each_total. apply move_step_total. Qed.

Lemma filter_split_length {A : Type} (f : A -> bool) (l : list A) :
  List.length (filter (fun x => negb (f x)) l) = List.length l - List.length (filter f l).
Proof.
  induction l as [|a l IH]; [reflexivity|].
  pose proof (filter_length_le f l). cbn [filter].
  destruct (f a); cbn [negb List.length]; lia.
Qed.

Lemma squeeze_ndim (a : ndarray) : ndim (squeeze a) = ndim a - count_ones (shape a).
Proof. unfold ndim, squeeze, count_ones. simpl. apply filter_split_length. Qed.

Lemma squeeze_no_ones (a : ndarray) : forall d, In d (shape (squeeze a)) -> d <> 1.
Proof.
  intros d I. unfold squeeze in I. simpl in I. apply filter_In in I.
  destruct I as [_ N]. apply negb_true_iff, Nat.eqb_neq in N. exact N.
Qed.

Lemma count_ones_zero (l : list nat) : count_ones l = 0 -> forall d, In d l -> d <> 1.
Proof.
  unfold count_ones. intros Z d I E. subst d.
  assert (J : In 1 (filter (fun d => Nat.eqb d 1) l)) by (apply filter_In; auto).
  destruct (filter (fun d => Nat.eqb d 1) l); [destruct J | discriminate Z].
Qed.

Lemma squeeze_identity (a : ndarray) : count_ones (shape a) = 0 -> squeeze a = a.
Proof.
  intros Z. pose proof (count_ones_zero _ Z) as N.
  destruct a as [sh fl]. unfold squeeze. simpl in *. f_equal.
  induction sh as [|d r IH]; simpl; [reflexivity|].
  destruct (Nat.eqb_spec d 1) as [->|Nd].
  - exfalso. apply (N 1); [left|]; reflexivity.
  - simpl. f_equal. apply IH.
    + unfold count_ones in *. simpl in Z.
      destruct (Nat.eqb_spec d 1); [congruence | exact Z].
    + intros x I. apply N. right. exact I.
Qed.

(** What [headersqueeze] does when it takes the second branch. *)
Lemma headersqueeze_steps (data data' : ndarray) (h h' : header) :
  count_ones (shape data) <> 0 ->
  headersqueeze data h = (Ok data', h') ->
  exists ha hp,
    squeeze_axes (rev (shape data)) 0 0 h = (Ok tt, ha) /\
    squeeze_pc (rev (shape data)) (rev (shape data)) 0 0 ha = (Ok tt, hp) /\
    h' = Hdr.set "NAXIS" (VInt (Z.of_nat (ndim data - count_ones (shape data)))) hp /\
    data' = squeeze data.
Proof.
  intros Z H. unfold headersqueeze in H.
  apply Nat.eqb_neq in Z. rewrite Z in H.
  apply bind_ok in H. destruct H as ([] & ha & A & H).
  apply bind_ok in H. destruct H as ([] & hp & P & H).
  apply bind_ok in H. destruct H as ([] & hn & S & H).
  apply ret_ok in H. destruct H as [-> ->].
  unfold Hdr.setitem in S. inversion S. eauto 8.
Qed.

Lemma axis_len_in (dims : list nat) (i : nat) :
  1 <= i <= List.length dims -> In (axis_len dims i) dims.
Proof. intros Hi. unfold axis_len. apply nth_In. lia. Qed.

Lemma compact_index_all_kept (dims : list nat) :
  (forall d, In d dims -> 1 < d) ->
  forall i, i <= List.length dims -> compact_index dims i = i.
Proof.
  intros K i. induction i as [|i IH]; intros L; [reflexivity|].
  rewrite compact_index_succ by lia. rewrite IH by lia.
  assert (E : (1 <? nth i dims 0)%nat = true).
  { apply Nat.ltb_lt. apply K. apply nth_In. lia. }
  rewrite E. lia.
Qed.

Lemma kept_count (l : list nat) :
  Forall (fun d => 1 <= d) l ->
  compact_index (rev l) (List.length l) = List.length l - count_ones l.
Proof.
  intros P. unfold compact_index.
  rewrite firstn_all2 by (rewrite length_rev; lia).
  rewrite filter_rev, length_rev. unfold count_ones.
  rewrite <- filter_split_length. f_equal.
  apply filter_ext_in. intros d I. rewrite Forall_forall in P. specialize (P d I).
  destruct (Nat.eqb_spec d 1) as [->|N]; simpl; [reflexivity|].
  apply Nat.ltb_lt. lia.
Qed.

Lemma all_ones_filtered (l : list nat) :
  (forall d, In d l -> d = 1) -> filter (fun d => negb (Nat.eqb d 1)) l = [].
Proof.
  induction l as [|d r IH]; intros A; simpl; [reflexivity|].
  rewrite (A d) by (left; reflexivity). simpl.
  apply IH. intros x I. apply A. right. exact I.
Qed.

(** C1: for a header and array that satisfy the Array invariant,
    [headersqueeze] returns the pair unchanged when no axis has length
    one; it returns whenever every axis carries its six cards with a string
    type card; and whenever it returns, NAXIS is the number of axes of the
    returned array, which is the squeezed array and has no axis of length
    one (when every axis had length one it has no axis at all). *)
Theorem headersqueeze_shape (h : header) (data : ndarray) :
  array_invariant h data ->
  (count_ones (shape data) = 0 -> headersqueeze data h = (Ok data, h)) /\
  (axis_cards h data -> exists data' h', headersqueeze data h = (Ok data', h')) /\
  (forall data' h',
     headersqueeze data h = (Ok data', h') ->
     Hdr.get "NAXIS" h' = Some (VInt (Z.of_nat (ndim data'))) /\
     (forall d, In d (shape data') -> d <> 1) /\
     data' = squeeze data /\
     ((forall d, In d (shape data) -> d = 1) -> shape data' = [])).
Proof.
  intros [Inv _]. split; [|split].
  - intros Z. unfold headersqueeze. rewrite Z. reflexivity.
  - intros C. unfold headersqueeze.
    destruct (Nat.eqb (count_ones (shape data)) 0); [eexists; eexists; reflexivity|].
    destruct (squeeze_axes_total (rev (shape data)) 0 0 h) as (ha & Ea); [lia| |].
    { intros j Hj. rewrite length_rev in Hj. apply C. unfold ndim. lia. }
    destruct (squeeze_pc_total (rev (shape data)) ha) as (hp & Ep).
    unfold bind. rewrite Ea, Ep. eexists. eexists. reflexivity.
  - intros data' h' H.
    destruct (Nat.eq_dec (count_ones (shape data)) 0) as [Z|Z].
    + unfold headersqueeze in H. rewrite Z in H. simpl in H.
      apply ret_ok in H. destruct H as [-> ->].
      split; [exact Inv|]. split; [apply count_ones_zero; exact Z|].
      split; [symmetry; apply squeeze_identity; exact Z|].
      intros A. pose proof (count_ones_zero _ Z) as N.
      destruct (shape data) as [|d r]; [reflexivity|].
      exfalso. apply (N d); [left; reflexivity | apply A; left; reflexivity].
    + destruct (headersqueeze_steps _ _ _ _ Z H) as (ha & hp & _ & _ & -> & ->).
      split; [rewrite get_set_same, squeeze_ndim; reflexivity|].
      split; [apply squeeze_no_ones|]. split; [reflexivity|].
      intros A. unfold squeeze. simpl. apply all_ones_filtered. exact A.
Qed.

Lemma headersqueeze_shape_witness :
  exists data' h',
    headersqueeze sample_cube sample_cube_header = (Ok data', h') /\
    Hdr.get "NAXIS" h' = Some (VInt (Z.of_nat (ndim data'))).
Proof.
  assert (I : array_invariant sample_cube_header sample_cube).
  { split; [reflexivity|]. intros i Hi. change (1 <= i <= 3) in Hi.
    assert (E : i = 1 \/ i = 2 \/ i = 3) by lia.
    destruct E as [-> | [-> | ->]]; reflexivity. }
  assert (C : axis_cards sample_cube_header sample_cube).
  { intros i Hi. change (1 <= i <= 3) in Hi.
    assert (E : i = 1 \/ i = 2 \/ i = 3) by lia.
    destruct E as [-> | [-> | ->]];
      (split; [|eexists; reflexivity]);
      intros k Ik; unfold keys2chng in Ik; simpl in Ik;
      repeat (destruct Ik as [<-|Ik]; [vm_compute; discriminate|]); destruct Ik. }
  destruct (headersqueeze_shape sample_cube_header sample_cube I) as (_ & T & P).
  destruct (T C) as (data' & h' & E).
  exists data', h'. split; [exact E|]. apply (P data' h' E).
Defined.




(* ----------------------------------------------------------------- *)
(** ** headersqueeze: the axis cards *)

Lemma fmt_d_nonempty (n : nat) : PyStr.fmt_d n <> "".
Proof.
  unfold PyStr.fmt_d, NilZero.string_of_uint.
  destruct (Nat.to_uint n); simpl; discriminate.
Qed.

Lemma axis_key_not_naxis (k : string) (n : nat) :
  In k keys2chng -> (k ++ PyStr.fmt_d n)%string <> "NAXIS".
Proof.
  intros Hk E. change "NAXIS" with ("NAXIS" ++ "")%string in E.
  apply append_inj_length in E.
  - destruct E as [_ E]. apply (fmt_d_nonempty n E).
  - rewrite keys2chng_length by exact Hk. reflexivity.
Qed.

Lemma for_each_cons {S A : Type} (x : A) (l : list A) (f : A -> M S unit) :
  for_each (x :: l) f = bind (f x) (fun _ => for_each l f).
Proof. reflexivity. Qed.

(** One key of one axis, when the statements return: the card was there,
    and on a kept axis its value is now under the compacted index. *)
Lemma squeeze_key_ok (d idx c : nat) (k : string) (h h1 : header) :
  squeeze_key d idx c k h = (Ok tt, h1) ->
  exists v, Hdr.get (k ++ PyStr.fmt_d (idx + 1))%string h = Some v /\
            ((1 <? d)%nat = true -> Hdr.get (k ++ PyStr.fmt_d c)%string h1 = Some v).
Proof.
  unfold squeeze_key. intros H.
  apply bind_ok in H. destruct H as (v & h0 & G & H).
  apply getitem_ok in G. destruct G as [G ->].
  apply bind_ok in H. destruct H as ([] & h2 & D & H).
  exists v. split; [exact G|]. intros K. rewrite K in H.
  unfold Hdr.setitem in H. inversion H. apply get_set_same.
Qed.

Lemma preserves_squeeze_key_kept (x : string) (d idx c : nat) (k : string) :
  x <> (k ++ PyStr.fmt_d (idx + 1))%string ->
  ((1 <? d)%nat = true -> x <> (k ++ PyStr.fmt_d c)%string) ->
  ((1 <? d)%nat = false -> x <> "STOKES") ->
  preserves x (squeeze_key d idx c k).
Proof.
  intros N1 N2 N3. unfold squeeze_key.
  apply preserves_bind; [apply preserves_readonly, readonly_getitem|]. intros v.
  apply preserves_bind; [apply preserves_remove; exact N1|]. intros _.
  destruct (1 <? d)%nat; [apply preserves_setitem; auto|].
  destruct (String.eqb k "CTYPE"); [|apply preserves_ret].
  apply preserves_bind; [apply preserves_readonly, readonly_value_startswith|].
  intros [|]; [|apply preserves_ret].
  apply preserves_bind; [apply preserves_readonly, readonly_getitem|]. intros w.
  apply preserves_setitem. auto.
Qed.

(** The keys of one axis. *)
Lemma squeeze_keys_ok (d idx c : nat) (ks : list string) :
  forall h h1 : header,
  NoDup ks -> incl ks keys2chng ->
  for_each ks (squeeze_key d idx c) h = (Ok tt, h1) ->
  forall k, In k ks ->
  exists v, Hdr.get (k ++ PyStr.fmt_d (idx + 1))%string h = Some v /\
            ((1 <? d)%nat = true -> Hdr.get (k ++ PyStr.fmt_d c)%string h1 = Some v).
Proof.
  induction ks as [|k0 ks IH]; intros h h1 N I H k Ik; [destruct Ik|].
  inversion N as [|? ? Nk Nr]. subst.
  rewrite for_each_cons in H. apply bind_ok in H. destruct H as ([] & ha & E0 & H).
  assert (I0 : In k0 keys2chng) by (apply I; left; reflexivity).
  assert (Ir : incl ks keys2chng) by (intros y Iy; apply I; right; exact Iy).
  destruct Ik as [<-|Ik].
  - destruct (squeeze_key_ok _ _ _ _ _ _ E0) as (v & G & K).
    exists v. split; [exact G|]. intros Kd. rewrite <- (K Kd).
    apply (preserves_for_each _ ks (squeeze_key d idx c)) with (r := Ok tt); [|exact H].
    intros k' Ik'. assert (k0 <> k') by (intros ->; tauto).
    apply preserves_squeeze_key_kept.
    + intros E. apply axis_key_inj in E; [tauto | exact I0 | apply Ir; exact Ik'].
    + intros _ E. apply axis_key_inj in E; [tauto | exact I0 | apply Ir; exact Ik'].
    + intros _. apply axis_key_not_stokes. exact I0.
  - destruct (IH _ _ Nr Ir H k Ik) as (v & G & K).
    exists v. split; [|exact K]. rewrite <- G. symmetry.
    assert (k <> k0) by (intros ->; tauto).
    apply (preserves_squeeze_key_kept _ d idx c k0) with (r := Ok tt); [| | |exact E0].
    + intros E. apply axis_key_inj in E; [tauto | apply Ir; exact Ik | exact I0].
    + intros _ E. apply axis_key_inj in E; [tauto | apply Ir; exact Ik | exact I0].
    + intros _. apply axis_key_not_stokes. apply Ir. exact Ik.
Qed.

Lemma keys2chng_nodup : NoDup keys2chng.
Proof. unfold keys2chng. repeat constructor; simpl; intuition discriminate. Qed.

(** The first loop leaves the card [k a] alone when [a] is an index the
    loop has passed and no kept axis still to come moves to it. *)
Lemma preserves_squeeze_axes_key (k : string) (a : nat) (dims : list nat) :
  In k keys2chng ->
  forall idx c,
  a <= idx ->
  (forall e, In e (axis_entries dims idx c) -> ax_kept e = true -> ax_new e <> a) ->
  preserves (k ++ PyStr.fmt_d a)%string (squeeze_axes dims idx c).
Proof.
  intros Ik. induction dims as [|d r IH]; intros idx c L P.
  - apply preserves_ret.
  - rewrite squeeze_axes_cons. simpl in P.
    apply preserves_bind.
    + apply preserves_for_each. intros k0 I0.
      apply preserves_squeeze_key_kept.
      * intros E. apply axis_key_inj in E; [lia | exact Ik | exact I0].
      * intros K E. apply axis_key_inj in E; [|exact Ik | exact I0].
        destruct E as [_ E]. apply (P _ (or_introl eq_refl)); [exact K|].
        simpl. rewrite K. rewrite K in E. symmetry. exact E.
      * intros _. apply axis_key_not_stokes. exact Ik.
    + intros _. apply IH; [lia|].
      intros e Ie. apply P. right. exact Ie.
Qed.

Lemma axis_entries_in (dims : list nat) (idx c : nat) (e : axis_entry) :
  In e (axis_entries dims idx c) ->
  exists i, 1 <= i <= List.length dims /\
            ax_index e = idx + i /\
            ax_kept e = (1 <? axis_len dims i)%nat /\
            ax_new e = c + compact_index dims i.
Proof.
  rewrite axis_entries_spec. intros I. apply in_map_iff in I.
  destruct I as (i & <- & Hi). apply in_seq in Hi. exists i. simpl.
  repeat split; lia.
Qed.

Lemma entry_new_after (dims : list nat) (idx c : nat) (e : axis_entry) :
  In e (axis_entries dims idx c) -> ax_kept e = true -> c < ax_new e.
Proof.
  intros I K. apply axis_entries_in in I. destruct I as (i & Hi & _ & Ek & ->).
  rewrite Ek in K. apply Nat.ltb_lt in K.
  pose proof (compact_index_kept dims 0 i Hi K ltac:(lia)) as Q.
  rewrite compact_index_zero in Q. lia.
Qed.

(** The first loop as a whole, when it returns: every axis had its six
    cards, and the cards of a kept axis are now under its compacted index. *)
Lemma squeeze_axes_ok (dims : list nat) :
  forall (idx c : nat) (h h' : header),
  c <= idx ->
  squeeze_axes dims idx c h = (Ok tt, h') ->
  forall e k, In e (axis_entries dims idx c) -> In k keys2chng ->
  exists v, Hdr.get (k ++ PyStr.fmt_d (ax_index e))%string h = Some v /\
            (ax_kept e = true ->
             Hdr.get (k ++ PyStr.fmt_d (ax_new e))%string h' = Some v).
Proof.
  induction dims as [|d r IH]; intros idx c h h' L H e k Ie Ik; [destruct Ie|].
  rewrite squeeze_axes_cons in H. apply bind_ok in H. destruct H as ([] & h1 & E1 & H).
  set (c' := if (1 <? d)%nat then S c else c) in *.
  assert (Lc : c' <= S idx) by (unfold c'; destruct (1 <? d)%nat; lia).
  simpl in Ie. fold c' in Ie. destruct Ie as [<-|Ie].
  - simpl.
    destruct (squeeze_keys_ok _ _ _ _ _ _ keys2chng_nodup (incl_refl _) E1 k Ik)
      as (v & G & K).
    exists v. split; [exact G|]. intros Kd. rewrite <- (K Kd).
    apply (preserves_squeeze_axes_key k c' r Ik (S idx) c') with (r := Ok tt);
      [exact Lc | | exact H].
    intros e Ie Ke. pose proof (entry_new_after _ _ _ _ Ie Ke). lia.
  - destruct (IH _ _ _ _ Lc H e k Ie Ik) as (v & G & K).
    exists v. split; [|exact K]. rewrite <- G. symmetry.
    apply axis_entries_in in Ie. destruct Ie as (i & Hi & Ei & _).
    apply (preserves_for_each _ keys2chng (squeeze_key d idx c')) with (r := Ok tt);
      [|exact E1].
    intros k0 I0. apply preserves_squeeze_key.
    + intros E. apply axis_key_inj in E; [lia | exact Ik | exact I0].
    + intros E. apply axis_key_inj in E; [lia | exact Ik | exact I0].
    + apply axis_key_not_stokes. exact Ik.
Qed.

Lemma squeeze_key_gone (d idx c : nat) (k : string) (h h1 : header) :
  In k keys2chng -> NoDup (Hdr.keywords h) ->
  ((1 <? d)%nat = true -> c <> idx + 1) ->
  squeeze_key d idx c k h = (Ok tt, h1) ->
  Hdr.get (k ++ PyStr.fmt_d (idx + 1))%string h1 = None.
Proof.
  intros Ik N C. unfold squeeze_key. intros H.
  apply bind_ok in H. destruct H as (v & h0 & G & H).
  apply getitem_ok in G. destruct G as [G ->].
  apply bind_ok in H. destruct H as ([] & h2 & D & H).
  unfold Hdr.remove in D. destruct (Hdr.del _ h) as [hd|] eqn:Ed; inversion D. subst hd.
  pose proof (get_del_same _ _ _ N Ed) as Z.
  destruct (1 <? d)%nat.
  - unfold Hdr.setitem in H. inversion H. rewrite get_set_other; [exact Z|].
    intros E. apply axis_key_inj in E; [|exact Ik|exact Ik].
    destruct E as [_ E]. apply C; auto.
  - destruct (String.eqb k "CTYPE"); [|apply ret_ok in H; destruct H as [_ ->]; exact Z].
    apply bind_ok in H. destruct H as (b & h3 & S & H).
    apply value_startswith_ok in S. destruct S as (t & _ & _ & ->).
    destruct b; [|apply ret_ok in H; destruct H as [_ ->]; exact Z].
    apply bind_ok in H. destruct H as (w & h4 & Gw & H).
    apply getitem_ok in Gw. destruct Gw as [_ ->].
    unfold Hdr.setitem in H. inversion H. rewrite get_set_other; [exact Z|].
    apply axis_key_not_stokes. exact Ik.
Qed.

Lemma squeeze_keys_gone (d idx c : nat) (ks : list string) :
  forall h h1 : header,
  NoDup ks -> incl ks keys2chng -> NoDup (Hdr.keywords h) ->
  ((1 <? d)%nat = true -> c <> idx + 1) ->
  for_each ks (squeeze_key d idx c) h = (Ok tt, h1) ->
  forall k, In k ks -> Hdr.get (k ++ PyStr.fmt_d (idx + 1))%string h1 = None.
Proof.
  induction ks as [|k0 ks IH]; intros h h1 N I Nh C H k Ik; [destruct Ik|].
  inversion N as [|? ? Nk Nr]. subst.
  rewrite for_each_cons in H. apply bind_ok in H. destruct H as ([] & ha & E0 & H).
  assert (I0 : In k0 keys2chng) by (apply I; left; reflexivity).
  assert (Ir : incl ks keys2chng) by (intros y Iy; apply I; right; exact Iy).
  destruct Ik as [<-|Ik].
  - rewrite <- (squeeze_key_gone _ _ _ _ _ _ I0 Nh C E0).
    apply (preserves_for_each _ ks (squeeze_key d idx c)) with (r := Ok tt); [|exact H].
    intros k' Ik'. assert (k0 <> k') by (intros ->; tauto).
    apply preserves_squeeze_key_kept.
    + intros E. apply axis_key_inj in E; [tauto | exact I0 | apply Ir; exact Ik'].
    + intros _ E. apply axis_key_inj in E; [tauto | exact I0 | apply Ir; exact Ik'].
    + intros _. apply axis_key_not_stokes. exact I0.
  - apply (IH ha h1 Nr Ir); [|exact C|exact H|exact Ik].
    apply (keeps_nodup_squeeze_key d idx c k0 h (Ok tt) ha Nh E0).
Qed.

(** On a header without repeated keywords the cards of an axis are gone
    from its old index unless a kept axis moved there. *)
Lemma squeeze_axes_gone (dims : list nat) :
  forall (idx c : nat) (h h' : header),
  NoDup (Hdr.keywords h) -> c <= idx ->
  squeeze_axes dims idx c h = (Ok tt, h') ->
  forall e k, In e (axis_entries dims idx c) -> In k keys2chng ->
  (forall e', In e' (axis_entries dims idx c) -> ax_kept e' = true ->
     ax_new e' <> ax_index e) ->
  Hdr.get (k ++ PyStr.fmt_d (ax_index e))%string h' = None.
Proof.
  induction dims as [|d r IH]; intros idx c h h' N L H e k Ie Ik P; [destruct Ie|].
  rewrite squeeze_axes_cons in H. apply bind_ok in H. destruct H as ([] & h1 & E1 & H).
  set (c' := if (1 <? d)%nat then S c else c) in *.
  assert (Lc : c' <= S idx) by (unfold c'; destruct (1 <? d)%nat; lia).
  assert (N1 : NoDup (Hdr.keywords h1)).
  { apply (keeps_nodup_for_each keys2chng (squeeze_key d idx c')
             (fun k => keeps_nodup_squeeze_key d idx c' k) h (Ok tt) h1 N E1). }
  simpl in Ie, P. fold c' in Ie, P. destruct Ie as [<-|Ie].
  - simpl in *.
    rewrite <- (squeeze_keys_gone d idx c' keys2chng h h1 keys2chng_nodup (incl_refl _) N)
      with (k := k); [| |exact E1|exact Ik].
    + apply (preserves_squeeze_axes_key k (idx + 1) r Ik (S idx) c') with (r := Ok tt);
        [lia | | exact H].
      intros e Ie Ke. apply (P e); auto.
    + intros K. apply (P _ (or_introl eq_refl)). exact K.
  - apply (IH _ _ _ _ N1 Lc H e k Ie Ik).
    intros e' Ie'. apply P. right. exact Ie'.
Qed.

Lemma axis_step_frame (d idx c : nat) (h h1 : header) (r : result unit)
  (k : string) (j : nat) :
  for_each keys2chng (squeeze_key d idx c) h = (r, h1) ->
  In k keys2chng -> idx + 1 < j -> c <= idx + 1 ->
  Hdr.get (k ++ PyStr.fmt_d j)%string h1 = Hdr.get (k ++ PyStr.fmt_d j)%string h.
Proof.
  intros E Ik Lj Lc.
  apply (preserves_for_each _ keys2chng (squeeze_key d idx c)) with (r := r); [|exact E].
  intros k0 I0. apply preserves_squeeze_key.
  - intros X. apply axis_key_inj in X; [lia | exact Ik | exact I0].
  - intros X. apply axis_key_inj in X; [lia | exact Ik | exact I0].
  - apply axis_key_not_stokes. exact Ik.
Qed.

Lemma preserves_move_step (x : string) (m : move) :
  x <> src m -> dst m <> Some x -> preserves x (move_step m).
Proof.
  intros N1 N2. unfold move_step.
  apply preserves_bind; [intros h r h' H; inversion H; reflexivity|].
  intros [|]; [|apply preserves_ret].
  apply preserves_bind; [apply preserves_readonly, readonly_getitem|]. intros v.
  apply preserves_bind; [apply preserves_remove; exact N1|]. intros _.
  destruct (dst m) as [d|]; [|apply preserves_ret].
  apply preserves_setitem. congruence.
Qed.

Lemma keeps_nodup_move_step (m : move) : keeps_nodup (move_step m).
Proof.
  unfold move_step.
  apply keeps_nodup_bind; [intros h r h' N H; inversion H; subst; exact N|].
  intros [|]; [|apply keeps_nodup_ret].
  apply keeps_nodup_bind; [apply keeps_nodup_readonly, readonly_getitem|]. intros v.
  apply keeps_nodup_bind; [apply keeps_nodup_remove|]. intros _.
  destruct (dst m) as [d|]; [apply keeps_nodup_setitem | apply keeps_nodup_ret].
Qed.

(** The second loop touches only cards of the transform-matrix block. *)
Lemma preserves_squeeze_pc (x : string) (dims : list nat) :
  (forall a b, x <> pc_key a b) -> preserves x (squeeze_pc dims dims 0 0).
Proof.
  intros N h r h' H. rewrite squeeze_pc_grid in H.
  refine (preserves_for_each x _ move_step _ h r h' H).
  intros m Im. apply in_map_iff in Im. destruct Im as (p & <- & _).
  apply preserves_move_step.
  - unfold grid_move, pc_move. simpl. apply N.
  - intros Ed. apply grid_move_dst in Ed. destruct Ed as (_ & _ & Ed). apply (N _ _ Ed).
Qed.

Lemma keeps_nodup_squeeze_pc (dims : list nat) : keeps_nodup (squeeze_pc dims dims 0 0).
Proof.
  intros h r h' N H. rewrite squeeze_pc_grid in H.
  apply (keeps_nodup_for_each _ move_step keeps_nodup_move_step h r h' N H).
Qed.

Lemma preserves_headersqueeze (x : string) (data : ndarray) :
  (forall k n, In k keys2chng -> x <> (k ++ PyStr.fmt_d n)%string) ->
  (forall a b, x <> pc_key a b) -> x <> "STOKES" -> x <> "NAXIS" ->
  preserves x (headersqueeze data).
Proof.
  intros N1 N2 N3 N4. unfold headersqueeze.
  destruct (Nat.eqb (count_ones (shape data)) 0); [apply preserves_ret|].
  apply preserves_bind; [apply preserves_squeeze_axes; assumption|]. intros _.
  apply preserves_bind; [apply preserves_squeeze_pc; assumption|]. intros _.
  apply preserves_bind; [apply preserves_setitem; assumption|]. intros _.
  apply preserves_ret.
Qed.

Lemma keeps_nodup_headersqueeze (data : ndarray) : keeps_nodup (headersqueeze data).
Proof.
  unfold headersqueeze.
  destruct (Nat.eqb (count_ones (shape data)) 0); [apply keeps_nodup_ret|].
  apply keeps_nodup_bind; [apply keeps_nodup_squeeze_axes|]. intros _.
  apply keeps_nodup_bind; [apply keeps_nodup_squeeze_pc|]. intros _.
  apply keeps_nodup_bind; [apply keeps_nodup_setitem|]. intros _.
  apply keeps_nodup_ret.
Qed.

Lemma entry_of_in (dims : list nat) (i : nat) :
  1 <= i <= List.length dims -> In (entry_of dims i) (axis_entries dims 0 0).
Proof.
  intros Hi. rewrite axis_entries_start. apply in_map. apply in_seq. lia.
Qed.

Lemma all_kept_of_no_ones (data : ndarray) :
  Forall (fun d => 1 <= d) (shape data) -> count_ones (shape data) = 0 ->
  forall d, In d (rev (shape data)) -> 1 < d.
Proof.
  intros P Z d I. apply in_rev in I. rewrite Forall_forall in P.
  pose proof (P d I). pose proof (count_ones_zero _ Z d I). lia.
Qed.

(** The cards of a kept axis after the squeeze. *)
Lemma headersqueeze_moves_axis (h h' : header) (data data' : ndarray) :
  Forall (fun d => 1 <= d) (shape data) ->
  headersqueeze data h = (Ok data', h') ->
  forall i k, 1 <= i <= ndim data -> In k keys2chng ->
    axis_len (rev (shape data)) i <> 1 ->
    Hdr.get (k ++ PyStr.fmt_d (compact_index (rev (shape data)) i))%string h'
    = Hdr.get (k ++ PyStr.fmt_d i)%string h.
Proof.
  intros P H i k Hi Ik Ki. set (dims := rev (shape data)) in *.
  assert (Ld : List.length dims = ndim data) by (unfold dims, ndim; apply length_rev).
  destruct (Nat.eq_dec (count_ones (shape data)) 0) as [Z|Z].
  - unfold headersqueeze in H. rewrite Z in H. simpl in H.
    apply ret_ok in H. destruct H as [-> ->].
    rewrite compact_index_all_kept; [reflexivity | | lia].
    apply all_kept_of_no_ones; assumption.
  - destruct (headersqueeze_steps _ _ _ _ Z H) as (ha & hp & Ea & Ep & -> & ->).
    fold dims in Ea, Ep.
    rewrite get_set_other by (apply axis_key_not_naxis; exact Ik).
    rewrite (preserves_squeeze_pc _ dims) with (r := Ok tt) (h := ha);
      [| |exact Ep].
    2:{ intros a b E. symmetry in E. revert E. apply pc_key_not_axis. exact Ik. }
    destruct (squeeze_axes_ok dims 0 0 h ha (le_n 0) Ea (entry_of dims i) k) as (v & G & K);
      [apply entry_of_in; lia | exact Ik |].
    simpl in G, K. rewrite G. apply K. apply Nat.ltb_lt.
    assert (1 <= axis_len dims i).
    { rewrite Forall_forall in P. apply P. apply in_rev. apply axis_len_in.
      fold dims. lia. }
    lia.
Qed.

(** X1: after [headersqueeze] on an array whose axes all have length at
    least one, the six cards of every axis whose length is not one sit
    under the compacted index of the axis, with their values; and on a
    header without repeated keywords no axis card is left at an index
    beyond the number of axes kept. *)
Theorem headersqueeze_axis_cards (h h' : header) (data data' : ndarray) :
  Forall (fun d => 1 <= d) (shape data) ->
  headersqueeze data h = (Ok data', h') ->
  (forall i k, 1 <= i <= ndim data -> In k keys2chng ->
     axis_len (rev (shape data)) i <> 1 ->
     Hdr.get (k ++ PyStr.fmt_d (compact_index (rev (shape data)) i))%string h'
     = Hdr.get (k ++ PyStr.fmt_d i)%string h) /\
  (NoDup (Hdr.keywords h) ->
   forall a k, ndim data' < a <= ndim data -> In k keys2chng ->
     Hdr.get (k ++ PyStr.fmt_d a)%string h' = None).
Proof.
  intros P H. split; [apply (headersqueeze_moves_axis h h' data data' P H)|].
  intros N a k Ha Ik. set (dims := rev (shape data)) in *.
  assert (Ld : List.length dims = ndim data) by (unfold dims, ndim; apply length_rev).
  destruct (Nat.eq_dec (count_ones (shape data)) 0) as [Z|Z].
  - unfold headersqueeze in H. rewrite Z in H. simpl in H.
    apply ret_ok in H. destruct H as [-> ->]. lia.
  - destruct (headersqueeze_steps _ _ _ _ Z H) as (ha & hp & Ea & Ep & -> & ->).
    fold dims in Ea, Ep.
    rewrite get_set_other by (apply axis_key_not_naxis; exact Ik).
    rewrite (preserves_squeeze_pc _ dims) with (r := Ok tt) (h := ha);
      [| |exact Ep].
    2:{ intros x y E. symmetry in E. revert E. apply pc_key_not_axis. exact Ik. }
    apply (squeeze_axes_gone dims 0 0 h ha N (le_n 0) Ea (entry_of dims a) k);
      [apply entry_of_in; lia | exact Ik |].
    intros e' Ie' Ke'. apply axis_entries_in in Ie'.
    destruct Ie' as (i & Hi & _ & _ & En). rewrite En. simpl.
    rewrite squeeze_ndim in Ha. unfold ndim in Ha. rewrite <- kept_count in Ha by exact P.
    fold dims in Ha.
    pose proof (compact_index_mono dims i (List.length (shape data))) as Q.
    rewrite Ld in Hi. unfold ndim in Hi. lia.
Qed.

Ltac nodup_keywords :=
  apply (NoDup_count_occ string_dec); intros x;
  match goal with
  | |- count_occ _ ?l _ <= 1 =>
      let J := fresh "J" in
      destruct (in_dec string_dec x l) as [J|J];
      [ vm_compute in J; repeat (destruct J as [<-|J]; [vm_compute; lia|]); destruct J
      | apply (count_occ_not_In string_dec) in J; lia ]
  end.

Lemma headersqueeze_axis_cards_witness :
  Hdr.get "CTYPE2" (snd (headersqueeze sample_cube sample_cube_header))
  = Some (VStr "FREQ") /\
  Hdr.get "CTYPE3" (snd (headersqueeze sample_cube sample_cube_header)) = None.
Proof.
  assert (N : NoDup (Hdr.keywords sample_cube_header)) by nodup_keywords.
  assert (P : Forall (fun d => 1 <= d) (shape sample_cube)) by (repeat constructor).
  destruct (headersqueeze sample_cube sample_cube_header) as [[data'|e] h'] eqn:E;
    [|vm_compute in E; discriminate E].
  destruct (headersqueeze_axis_cards _ _ _ _ P E) as (A & B).
  assert (D : ndim data' = 2).
  { vm_compute in E. inversion E. reflexivity. }
  split.
  - specialize (A 3 "CTYPE").
    change (compact_index (rev (shape sample_cube)) 3) with 2 in A.
    simpl snd. change ("CTYPE" ++ PyStr.fmt_d 2)%string with "CTYPE2" in A.
    rewrite A; [reflexivity | vm_compute; lia | vm_compute; tauto | vm_compute; discriminate].
  - apply (B N 3 "CTYPE"); [rewrite D; vm_compute; lia | vm_compute; tauto].
Defined.

Lemma compact_index_cons (d : nat) (r : list nat) (i : nat) :
  compact_index (d :: r) (S i)
  = (if (1 <? d)%nat then 1 else 0) + compact_index r i.
Proof. unfold compact_index. simpl. destruct (1 <? d)%nat; reflexivity. Qed.

Lemma axis_len_cons (d : nat) (r : list nat) (i : nat) :
  1 <= i -> axis_len (d :: r) (S i) = axis_len r i.
Proof.
  intros L. unfold axis_len. destruct i as [|i]; [lia|].
  simpl. rewrite Nat.sub_0_r. reflexivity.
Qed.

(** Every axis of the squeezed array is a kept axis of the array. *)
Lemma kept_axis_of (dims : list nat) :
  forall a,
  1 <= a <= List.length (filter (fun d => (1 <? d)%nat) dims) ->
  exists i, 1 <= i <= List.length dims /\ 1 < axis_len dims i /\
            compact_index dims i = a /\
            axis_len (filter (fun d => (1 <? d)%nat) dims) a = axis_len dims i.
Proof.
  induction dims as [|d r IH]; intros a Ha; cbn [filter] in Ha; [simpl in Ha; lia|].
  cbn [filter]. destruct (1 <? d)%nat eqn:K.
  - cbn [List.length] in Ha. destruct (Nat.eq_dec a 1) as [->|Na].
    + exists 1. apply Nat.ltb_lt in K as K'.
      rewrite (compact_index_cons d r 0), K, compact_index_zero.
      unfold axis_len. cbn [List.length Nat.sub nth].
      repeat split; lia.
    + destruct (IH (a - 1)) as (i & Hi & Ki & Ci & Ai); [lia|].
      exists (S i). cbn [List.length]. rewrite compact_index_cons, K.
      rewrite axis_len_cons by lia.
      replace a with (S (a - 1)) at 2 by lia.
      rewrite axis_len_cons by lia.
      repeat split; try lia; assumption.
  - destruct (IH a Ha) as (i & Hi & Ki & Ci & Ai).
    exists (S i). cbn [List.length]. rewrite compact_index_cons, K.
    rewrite axis_len_cons by lia.
    repeat split; try lia; assumption.
Qed.

Lemma squeezed_axes (data : ndarray) :
  Forall (fun d => 1 <= d) (shape data) ->
  rev (shape (squeeze data)) = filter (fun d => (1 <? d)%nat) (rev (shape data)).
Proof.
  intros P. unfold squeeze. simpl. rewrite <- filter_rev.
  apply filter_ext_in. intros d I. apply in_rev in I.
  rewrite Forall_forall in P. specialize (P d I).
  destruct (Nat.eqb_spec d 1) as [->|N]; [reflexivity|].
  simpl. symmetry. apply Nat.ltb_lt. lia.
Qed.

(** X2: [headersqueeze] keeps the Array invariant: on an array whose
    axes all have length at least one, NAXIS and the NAXISi cards of the
    header returned describe the array returned. *)
Theorem headersqueeze_array_invariant (h h' : header) (data data' : ndarray) :
  array_invariant h data ->
  Forall (fun d => 1 <= d) (shape data) ->
  headersqueeze data h = (Ok data', h') ->
  array_invariant h' data'.
Proof.
  intros Inv P H.
  destruct (Nat.eq_dec (count_ones (shape data)) 0) as [Z|Z].
  { unfold headersqueeze in H. rewrite Z in H. simpl in H.
    apply ret_ok in H. destruct H as [-> ->]. exact Inv. }
  pose proof (headersqueeze_moves_axis h h' data data' P H) as Mv.
  destruct (headersqueeze_steps _ _ _ _ Z H) as (ha & hp & _ & _ & Eh & Ed).
  subst data'. split.
  - rewrite Eh, get_set_same, squeeze_ndim. reflexivity.
  - intros a Ha. rewrite squeezed_axes by exact P.
    assert (La : 1 <= a <= List.length (filter (fun d => (1 <? d)%nat) (rev (shape data)))).
    { rewrite <- squeezed_axes by exact P. rewrite length_rev. exact Ha. }
    destruct (kept_axis_of _ a La) as (i & Hi & Ki & Ci & Ai).
    rewrite length_rev in Hi.
    rewrite Ai, <- Ci.
    rewrite (Mv i "NAXIS" Hi); [|unfold keys2chng; simpl; tauto | lia].
    apply Inv. exact Hi.
Qed.

Lemma headersqueeze_array_invariant_witness :
  array_invariant (snd (headersqueeze sample_cube sample_cube_header))
                  (squeeze sample_cube).
Proof.
  assert (I : array_invariant sample_cube_header sample_cube).
  { split; [reflexivity|]. intros i Hi. change (1 <= i <= 3) in Hi.
    assert (E : i = 1 \/ i = 2 \/ i = 3) by lia.
    destruct E as [-> | [-> | ->]]; reflexivity. }
  assert (P : Forall (fun d => 1 <= d) (shape sample_cube)) by (repeat constructor).
  apply (headersqueeze_array_invariant sample_cube_header _ sample_cube _ I P).
  vm_compute. reflexivity.
Defined.

(** X3: a second [headersqueeze], run on what a first one returned,
    returns it unchanged. *)
Theorem headersqueeze_twice (h h' : header) (data data' : ndarray) :
  headersqueeze data h = (Ok data', h') ->
  headersqueeze data' h' = (Ok data', h').
Proof.
  intros H.
  assert (Z : count_ones (shape data') = 0).
  { destruct (Nat.eq_dec (count_ones (shape data)) 0) as [Z|Z].
    - unfold headersqueeze in H. rewrite Z in H. simpl in H.
      apply ret_ok in H. destruct H as [-> _]. exact Z.
    - destruct (headersqueeze_steps _ _ _ _ Z H) as (_ & _ & _ & _ & _ & ->).
      unfold count_ones, squeeze. simpl. clear.
      induction (shape data) as [|d r IH]; simpl; [reflexivity|].
      destruct (Nat.eqb d 1) eqn:E; simpl; [exact IH|]. rewrite E. exact IH. }
  unfold headersqueeze. rewrite Z. reflexivity.
Qed.

Lemma headersqueeze_twice_witness :
  headersqueeze (squeeze sample_cube) (snd (headersqueeze sample_cube sample_cube_header))
  = (Ok (squeeze sample_cube), snd (headersqueeze sample_cube sample_cube_header)).
Proof.
  apply (headersqueeze_twice sample_cube_header _ sample_cube _).
  vm_compute. reflexivity.
Defined.

(** X4: whether it returns or raises, [headersqueeze] leaves alone every
    card that is neither an axis card, nor a card of the transform-matrix
    block, nor STOKES, nor NAXIS; and it keeps the keywords free of
    repetitions. *)
Theorem headersqueeze_other_cards (h h' : header) (data : ndarray)
  (r : result ndarray) :
  headersqueeze data h = (r, h') ->
  (forall x,
     (forall k n, In k keys2chng -> x <> (k ++ PyStr.fmt_d n)%string) ->
     (forall a b, x <> pc_key a b) -> x <> "STOKES" -> x <> "NAXIS" ->
     Hdr.get x h' = Hdr.get x h) /\
  (NoDup (Hdr.keywords h) -> NoDup (Hdr.keywords h')).
Proof.
  intros H. split.
  - intros x N1 N2 N3 N4. apply (preserves_headersqueeze x data N1 N2 N3 N4 h r h' H).
  - intros N. apply (keeps_nodup_headersqueeze data h r h' N H).
Qed.

Lemma headersqueeze_other_cards_witness :
  Hdr.get "RESTFRQ"
    (snd (headersqueeze sample_cube (sample_cube_header ++ [("RESTFRQ", VFloat 1e9)])))
  = Some (VFloat 1e9).
Proof.
  destruct (headersqueeze sample_cube (sample_cube_header ++ [("RESTFRQ", VFloat 1e9)]))
    as [r h'] eqn:E.
  destruct (headersqueeze_other_cards _ _ _ _ E) as [F _]. simpl snd.
  rewrite (F "RESTFRQ"); [reflexivity | | | discriminate | discriminate].
  - intros k n Ik X. apply keys2chng_first in Ik.
    destruct Ik as (t & [-> | ->]); simpl in X; discriminate X.
  - intros a b X. unfold pc_key in X. simpl in X. discriminate X.
Defined.

(** X5: when some axis has length one, [headersqueeze] raises as soon
    as one of the six cards of some axis is missing. *)
Theorem headersqueeze_missing_card (h : header) (data : ndarray) (i : nat) (k : string) :
  count_ones (shape data) <> 0 ->
  1 <= i <= ndim data -> In k keys2chng ->
  Hdr.get (k ++ PyStr.fmt_d i)%string h = None ->
  exists e h1, headersqueeze data h = (Raise e, h1).
Proof.
  intros Z Hi Ik G.
  destruct (headersqueeze data h) as [[data'|e] h1] eqn:H; [|eauto].
  exfalso.
  destruct (headersqueeze_steps _ _ _ _ Z H) as (ha & hp & Ea & _).
  destruct (squeeze_axes_ok _ 0 0 h ha (le_n 0) Ea (entry_of (rev (shape data)) i) k)
    as (v & Gv & _); [|exact Ik|].
  - apply entry_of_in. rewrite length_rev. exact Hi.
  - simpl in Gv. congruence.
Qed.

Lemma headersqueeze_missing_card_witness :
  exists e h1,
    headersqueeze sample_cube
      [("NAXIS", VInt 3); ("NAXIS1", VInt 3); ("NAXIS2", VInt 1); ("NAXIS3", VInt 2)]
    = (Raise e, h1).
Proof.
  apply (headersqueeze_missing_card _ sample_cube 2 "CTYPE");
    [vm_compute; discriminate | vm_compute; lia | vm_compute; tauto | reflexivity].
Defined.

(* ----------------------------------------------------------------- *)
(** ** headersqueeze: the STOKES card *)

Lemma stokes_not_axis_key (k : string) (n : nat) :
  In k keys2chng -> "STOKES" <> (k ++ PyStr.fmt_d n)%string.
Proof. intros Ik E. symmetry in E. revert E. apply axis_key_not_stokes. exact Ik. Qed.

Lemma preserves_stokes_kept (d idx c : nat) (k : string) :
  In k keys2chng -> (1 <? d)%nat = true -> preserves "STOKES" (squeeze_key d idx c k).
Proof.
  intros Ik K. apply preserves_squeeze_key_kept.
  - apply stokes_not_axis_key. exact Ik.
  - intros _. apply stokes_not_axis_key. exact Ik.
  - congruence.
Qed.

Lemma preserves_stokes_other (d idx c : nat) (k : string) :
  In k keys2chng -> k <> "CTYPE" -> preserves "STOKES" (squeeze_key d idx c k).
Proof.
  intros Ik N. unfold squeeze_key.
  apply preserves_bind; [apply preserves_readonly, readonly_getitem|]. intros v.
  apply preserves_bind; [apply preserves_remove, stokes_not_axis_key; exact Ik|]. intros _.
  destruct (1 <? d)%nat; [apply preserves_setitem, stokes_not_axis_key; exact Ik|].
  apply String.eqb_neq in N. rewrite N. apply preserves_ret.
Qed.

(** The type card of an axis that is not kept. *)
Lemma squeeze_key_ctype (d idx c : nat) (h h1 : header) :
  (1 <? d)%nat = false ->
  squeeze_key d idx c "CTYPE" h = (Ok tt, h1) ->
  exists s, Hdr.get (ctype_key (idx + 1)) h = Some (VStr s) /\
            Hdr.get "STOKES" h1
            = if PyStr.startswith s "STOKES"
              then Hdr.get ("CRVAL" ++ PyStr.fmt_d (idx + 1))%string h
              else Hdr.get "STOKES" h.
Proof.
  intros K H. unfold squeeze_key in H. rewrite K in H.
  apply bind_ok in H. destruct H as (v & h0 & G & H).
  apply getitem_ok in G. destruct G as [G ->].
  apply bind_ok in H. destruct H as ([] & h2 & D & H).
  unfold Hdr.remove in D. destruct (Hdr.del _ h) as [hd|] eqn:Ed; inversion D. subst hd.
  change (String.eqb "CTYPE" "CTYPE") with true in H. cbv iota in H.
  apply bind_ok in H. destruct H as (b & h3 & S & H).
  apply value_startswith_ok in S. destruct S as (s & -> & -> & ->).
  exists s. split; [exact G|].
  destruct (PyStr.startswith s "STOKES").
  - apply bind_ok in H. destruct H as (w & h4 & Gw & H).
    apply getitem_ok in Gw. destruct Gw as [Gw ->].
    unfold Hdr.setitem in H. inversion H. rewrite get_set_same, <- Gw.
    apply (get_del_other _ _ _ _ Ed). simpl. discriminate.
  - apply ret_ok in H. destruct H as [_ ->].
    apply (get_del_other _ _ _ _ Ed). simpl. discriminate.
Qed.

(** The six keys of one axis and the STOKES card. *)
Lemma squeeze_axis_stokes (d idx c : nat) (h h1 : header) :
  for_each keys2chng (squeeze_key d idx c) h = (Ok tt, h1) ->
  if (1 <? d)%nat
  then Hdr.get "STOKES" h1 = Hdr.get "STOKES" h
  else exists s, Hdr.get (ctype_key (idx + 1)) h = Some (VStr s) /\
                 Hdr.get "STOKES" h1
                 = if PyStr.startswith s "STOKES"
                   then Hdr.get ("CRVAL" ++ PyStr.fmt_d (idx + 1))%string h
                   else Hdr.get "STOKES" h.
Proof.
  intros H. destruct (1 <? d)%nat eqn:K.
  - apply (preserves_for_each _ keys2chng (squeeze_key d idx c)) with (r := Ok tt);
      [|exact H].
    intros k Ik. apply preserves_stokes_kept; assumption.
  - unfold keys2chng in H. rewrite !for_each_cons in H.
    apply bind_ok in H. destruct H as ([] & ha & E0 & H).
    apply bind_ok in H. destruct H as ([] & hb & E1 & H).
    destruct (squeeze_key_ctype _ _ _ _ _ K E1) as (s & G & S).
    assert (Fr : forall x, x <> ("NAXIS" ++ PyStr.fmt_d (idx + 1))%string ->
                           x <> "STOKES" -> Hdr.get x ha = Hdr.get x h).
    { intros x N1 N2.
      apply (preserves_squeeze_key_kept x d idx c "NAXIS") with (r := Ok tt);
        [exact N1 | congruence | auto | exact E0]. }
    assert (F0 : Hdr.get "STOKES" ha = Hdr.get "STOKES" h).
    { apply (preserves_stokes_other d idx c "NAXIS") with (r := Ok tt);
        [unfold keys2chng; simpl; tauto | discriminate | exact E0]. }
    exists s. split.
    + rewrite <- G. symmetry. apply Fr; unfold ctype_key; simpl; discriminate.
    + transitivity (Hdr.get "STOKES" hb).
      * change (bind (squeeze_key d idx c "CRVAL")
                  (fun _ => bind (squeeze_key d idx c "CDELT")
                     (fun _ => bind (squeeze_key d idx c "CRPIX")
                        (fun _ => bind (squeeze_key d idx c "CUNIT")
                           (fun _ => for_each [] (squeeze_key d idx c))))) hb
                = (Ok tt, h1))
          with (for_each ["CRVAL"; "CDELT"; "CRPIX"; "CUNIT"] (squeeze_key d idx c) hb
                = (Ok tt, h1)) in H.
        refine (preserves_for_each "STOKES" ["CRVAL"; "CDELT"; "CRPIX"; "CUNIT"]
                  (squeeze_key d idx c) _ hb (Ok tt) h1 H).
        intros k Ik. apply preserves_stokes_other.
        -- unfold keys2chng. simpl in *. tauto.
        -- simpl in Ik. intros ->.
           repeat (destruct Ik as [Ik|Ik]; [discriminate Ik|]). destruct Ik.
      * rewrite S. rewrite F0.
        rewrite (Fr ("CRVAL" ++ PyStr.fmt_d (idx + 1))%string);
          [reflexivity | simpl; discriminate | simpl; discriminate].
Qed.

Lemma axis_step_ctype_frame (d idx c : nat) (h h1 : header) (e : axis_entry)
  (r : list nat) (k : string) :
  c <= idx + 1 ->
  for_each keys2chng (squeeze_key d idx c) h = (Ok tt, h1) ->
  In e (axis_entries r (S idx) c) -> In k keys2chng ->
  Hdr.get (k ++ PyStr.fmt_d (ax_index e))%string h1
  = Hdr.get (k ++ PyStr.fmt_d (ax_index e))%string h.
Proof.
  intros Lc E Ie Ik. apply axis_entries_in in Ie. destruct Ie as (i & Hi & Ei & _).
  apply (axis_step_frame d idx c h h1 (Ok tt) k _ E Ik); lia.
Qed.

(** The first loop leaves the STOKES card alone when no axis that is not
    kept has a type card that starts with STOKES. *)
Lemma squeeze_axes_stokes_kept (dims : list nat) :
  forall (idx c : nat) (h h' : header),
  c <= idx ->
  squeeze_axes dims idx c h = (Ok tt, h') ->
  (forall e s, In e (axis_entries dims idx c) -> ax_kept e = false ->
     Hdr.get (ctype_key (ax_index e)) h = Some (VStr s) ->
     PyStr.startswith s "STOKES" = false) ->
  Hdr.get "STOKES" h' = Hdr.get "STOKES" h.
Proof.
  induction dims as [|d r IH]; intros idx c h h' L H P.
  - simpl in H. apply ret_ok in H. destruct H as [_ ->]. reflexivity.
  - rewrite squeeze_axes_cons in H. apply bind_ok in H. destruct H as ([] & h1 & E1 & H).
    set (c' := if (1 <? d)%nat then S c else c) in *.
    assert (Lc : c' <= S idx) by (unfold c'; destruct (1 <? d)%nat; lia).
    simpl in P. fold c' in P.
    transitivity (Hdr.get "STOKES" h1).
    + apply (IH _ _ _ _ Lc H). intros e s Ie Ke Ge.
      apply (P e s (or_intror Ie) Ke). rewrite <- Ge. symmetry.
      apply (axis_step_ctype_frame d idx c' h h1 e r "CTYPE"); try assumption;
        [lia | unfold keys2chng; simpl; tauto].
    + pose proof (squeeze_axis_stokes _ _ _ _ _ E1) as S.
      destruct (1 <? d)%nat eqn:K; [exact S|].
      destruct S as (s & G & S). rewrite S.
      rewrite (P _ s (or_introl eq_refl)); [reflexivity | reflexivity | exact G].
Qed.

(** The axis whose value the first loop leaves in the STOKES card. *)
Lemma squeeze_axes_stokes (dims : list nat) :
  forall (idx c : nat) (h h' : header) (e : axis_entry) (s : string),
  c <= idx ->
  squeeze_axes dims idx c h = (Ok tt, h') ->
  In e (axis_entries dims idx c) -> ax_kept e = false ->
  Hdr.get (ctype_key (ax_index e)) h = Some (VStr s) ->
  PyStr.startswith s "STOKES" = true ->
  (forall e' s', In e' (axis_entries dims idx c) -> ax_index e < ax_index e' ->
     ax_kept e' = false ->
     Hdr.get (ctype_key (ax_index e')) h = Some (VStr s') ->
     PyStr.startswith s' "STOKES" = false) ->
  Hdr.get "STOKES" h' = Hdr.get ("CRVAL" ++ PyStr.fmt_d (ax_index e))%string h.
Proof.
  induction dims as [|d r IH]; intros idx c h h' e s L H Ie Ke Ge Se P; [destruct Ie|].
  rewrite squeeze_axes_cons in H. apply bind_ok in H. destruct H as ([] & h1 & E1 & H).
  set (c' := if (1 <? d)%nat then S c else c) in *.
  assert (Lc : c' <= S idx) by (unfold c'; destruct (1 <? d)%nat; lia).
  assert (Lc' : c' <= idx + 1) by lia.
  simpl in Ie, P. fold c' in Ie, P.
  assert (Fr : forall e0 k, In e0 (axis_entries r (S idx) c') -> In k keys2chng ->
             Hdr.get (k ++ PyStr.fmt_d (ax_index e0))%string h1
             = Hdr.get (k ++ PyStr.fmt_d (ax_index e0))%string h).
  { intros e0 k I0 Ik. apply (axis_step_ctype_frame d idx c' h h1 e0 r k); assumption. }
  destruct Ie as [<-|Ie].
  - simpl in *. rewrite (squeeze_axes_stokes_kept r _ _ _ _ Lc H).
    + pose proof (squeeze_axis_stokes _ _ _ _ _ E1) as S. rewrite Ke in S.
      destruct S as (s0 & G0 & S). rewrite Ge in G0. inversion G0. subst s0.
      rewrite Se in S. exact S.
    + intros e0 s0 I0 K0 G0. apply (P e0 s0 (or_intror I0)); [|exact K0|].
      * apply axis_entries_in in I0. destruct I0 as (i & Hi & Ei & _). lia.
      * rewrite <- G0. symmetry. apply (Fr e0 "CTYPE" I0). unfold keys2chng. simpl. tauto.
  - rewrite (IH _ _ _ _ e s Lc H Ie Ke).
    + apply (Fr e "CRVAL" Ie). unfold keys2chng. simpl. tauto.
    + rewrite <- Ge. apply (Fr e "CTYPE" Ie). unfold keys2chng. simpl. tauto.
    + exact Se.
    + intros e0 s0 I0 L0 K0 G0. apply (P e0 s0 (or_intror I0) L0 K0).
      rewrite <- G0. symmetry. apply (Fr e0 "CTYPE" I0). unfold keys2chng. simpl. tauto.
Qed.

(** X6: when the last axis of length one whose type card starts with
    STOKES is axis [i], [headersqueeze] leaves the CRVAL card of that axis
    in the card STOKES. *)
Theorem headersqueeze_stokes_card (h h' : header) (data data' : ndarray)
  (i : nat) (s : string) :
  headersqueeze data h = (Ok data', h') ->
  1 <= i <= ndim data ->
  axis_len (rev (shape data)) i = 1 ->
  Hdr.get (ctype_key i) h = Some (VStr s) ->
  PyStr.startswith s "STOKES" = true ->
  (forall j s', i < j <= ndim data -> axis_len (rev (shape data)) j <= 1 ->
     Hdr.get (ctype_key j) h = Some (VStr s') ->
     PyStr.startswith s' "STOKES" = false) ->
  Hdr.get "STOKES" h' = Hdr.get ("CRVAL" ++ PyStr.fmt_d i)%string h.
Proof.
  intros H Hi Ki G S P. set (dims := rev (shape data)) in *.
  assert (Ld : List.length dims = ndim data) by (unfold dims, ndim; apply length_rev).
  assert (Z : count_ones (shape data) <> 0).
  { intros Z. apply (count_ones_zero _ Z 1); [|reflexivity].
    apply in_rev. fold dims. rewrite <- Ki. apply axis_len_in. lia. }
  destruct (headersqueeze_steps _ _ _ _ Z H) as (ha & hp & Ea & Ep & -> & _).
  fold dims in Ea, Ep.
  rewrite get_set_other by discriminate.
  rewrite (preserves_squeeze_pc _ dims) with (r := Ok tt) (h := ha); [| |exact Ep].
  2:{ intros a b E. symmetry in E. revert E. apply pc_key_not_stokes. }
  apply (squeeze_axes_stokes dims 0 0 h ha (entry_of dims i) s (le_n 0) Ea).
  - apply entry_of_in. lia.
  - simpl. rewrite Ki. reflexivity.
  - exact G.
  - exact S.
  - intros e' s' Ie' Lt Ke' Ge'. apply axis_entries_in in Ie'.
    destruct Ie' as (j & Hj & Ej & Ek & _). simpl in Ej, Lt. rewrite Ej in Ge', Lt.
    apply (P j s'); [lia | | exact Ge'].
    rewrite Ek in Ke'. apply Nat.ltb_ge in Ke'. exact Ke'.
Qed.

Lemma headersqueeze_stokes_card_witness :
  Hdr.get "STOKES" (snd (headersqueeze sample_cube sample_cube_header))
  = Some (VFloat 0.0).
Proof.
  destruct (headersqueeze sample_cube sample_cube_header) as [[data'|e] h'] eqn:E;
    [|vm_compute in E; discriminate E].
  simpl snd.
  rewrite (headersqueeze_stokes_card _ _ _ _ 2 "STOKES" E);
    [reflexivity | vm_compute; lia | reflexivity | reflexivity | reflexivity |].
  intros j s' Hj Kj Gj. change (2 < j <= 3) in Hj.
  assert (j = 3) as -> by lia. vm_compute in Kj. lia.
Defined.

(** [headersqueeze] returns whenever every axis carries its six cards
    with a string type card. *)
Lemma headersqueeze_returns (h : header) (data : ndarray) :
  axis_cards h data -> exists data' h', headersqueeze data h = (Ok data', h').
Proof.
  intros C. unfold headersqueeze.
  destruct (Nat.eqb (count_ones (shape data)) 0); [eexists; eexists; reflexivity|].
  destruct (squeeze_axes_total (rev (shape data)) 0 0 h) as (ha & Ea); [lia| |].
  { intros j Hj. rewrite length_rev in Hj. apply C. unfold ndim. lia. }
  destruct (squeeze_pc_total (rev (shape data)) ha) as (hp & Ep).
  unfold bind. rewrite Ea, Ep. eexists. eexists. reflexivity.
Qed.

Lemma headersqueeze_data (data data' : ndarray) (h h' : header) :
  headersqueeze data h = (Ok data', h') -> data' = squeeze data.
Proof.
  intros H. destruct (Nat.eq_dec (count_ones (shape data)) 0) as [Z|Z].
  - unfold headersqueeze in H. rewrite Z in H. simpl in H.
    apply ret_ok in H. destruct H as [-> _]. symmetry. apply squeeze_identity. exact Z.
  - destruct (headersqueeze_steps _ _ _ _ Z H) as (_ & _ & _ & _ & _ & ->). reflexivity.
Qed.

(* ----------------------------------------------------------------- *)
(** ** write *)

Section WriteProperties.

Variable expanduser : string -> string.
Variable astype_uint8 : ndarray -> ndarray.

Lemma write_refusal (fname : string) (mask : option ndarray) (fix_invalid : bool)
  (filled_value : float) (kwargs : list (string * value)) (fr : frame) :
  3 < ndim (f_data fr) - count_ones (shape (f_data fr)) ->
  write expanduser astype_uint8 fname mask fix_invalid filled_value kwargs fr
  = (Ok 0%Z, fr).
Proof.
  intros H. unfold write, bind, get_data.
  apply Nat.ltb_lt in H. rewrite H. reflexivity.
Qed.

(** C7: an array whose dimensions that are not of length one number more
    than three makes [write] return 0, with no exception; the frame is
    left as it was, so no file is created. *)
Theorem write_refuses_more_than_3d (fname : string) (mask : option ndarray)
  (fix_invalid : bool) (filled_value : float) (kwargs : list (string * value))
  (fr : frame) :
  3 < ndim (f_data fr) - count_ones (shape (f_data fr)) ->
  exists fr',
    write expanduser astype_uint8 fname mask fix_invalid filled_value kwargs fr
    = (Ok 0%Z, fr') /\
    files (f_world fr') = files (f_world fr) /\
    Fs.lookup (expanduser fname) (files (f_world fr'))
    = Fs.lookup (expanduser fname) (files (f_world fr)).
Proof.
  intros H. exists fr. rewrite write_refusal by exact H. auto.
Qed.


Lemma on_header_run {A : Type} (m : M header A) (fr : frame) :
  on_header m fr
  = (fst (m (f_header fr)),
     {| f_data := f_data fr; f_header := snd (m (f_header fr)); f_world := f_world fr |}).
Proof. unfold on_header. destruct (m (f_header fr)). reflexivity. Qed.

Lemma on_world_run {A : Type} (m : M world A) (fr : frame) :
  on_world m fr
  = (fst (m (f_world fr)),
     {| f_data := f_data fr; f_header := f_header fr; f_world := snd (m (f_world fr)) |}).
Proof. unfold on_world. destruct (m (f_world fr)). reflexivity. Qed.

(** [write] past its refusal test, step by step. *)
Lemma write_run (fname : string) (mask : option ndarray) (fix_invalid : bool)
  (filled_value : float) (kwargs : list (string * value)) (fr : frame) :
  ndim (f_data fr) - count_ones (shape (f_data fr)) <= 3 ->
  let data0 := if fix_invalid then fill_nan filled_value (f_data fr) else f_data fr in
  write expanduser astype_uint8 fname mask fix_invalid filled_value kwargs fr
  = match headersqueeze data0 (f_header fr) with
    | (Ok d', h') =>
        let hdul := PrimaryHDU [] NoData :: CompImageHDU h' d' kwargs
                    :: match mask with
                       | None => []
                       | Some m => [CompImageHDU [] (astype_uint8 m) kwargs]
                       end in
        match Fs.lookup (expanduser fname) (files (f_world fr)) with
        | None =>
            (Ok 1%Z,
             {| f_data := data0; f_header := h';
                f_world := {| files := (expanduser fname, hdul) :: files (f_world fr);
                              stdout := stdout (f_world fr) |} |})
        | Some _ =>
            (Raise OSError, {| f_data := data0; f_header := h'; f_world := f_world fr |})
        end
    | (Raise e, h') =>
        (Raise e, {| f_data := data0; f_header := h'; f_world := f_world fr |})
    end.
Proof.
  intros H data0. unfold write.
  unfold bind at 1, get_data at 1.
  assert (E : (3 <? ndim (f_data fr) - count_ones (shape (f_data fr)))%nat = false)
    by (apply Nat.ltb_ge; exact H).
  rewrite E. clear E.
  assert (P : (if fix_invalid then put_data (fill_nan filled_value (f_data fr)) else ret tt) fr
              = (Ok tt, {| f_data := data0; f_header := f_header fr;
                           f_world := f_world fr |})).
  { unfold data0. destruct fix_invalid; [reflexivity|]. destruct fr; reflexivity. }
  unfold bind at 1. rewrite P.
  unfold bind at 1, get_data at 1. simpl f_data.
  unfold bind at 1. rewrite on_header_run. simpl f_header. simpl f_data. simpl f_world.
  destruct (headersqueeze data0 (f_header fr)) as [[d'|e] h']; simpl fst; simpl snd;
    [|reflexivity].
  unfold bind at 1, get_header at 1. simpl f_header.
  unfold bind at 1. rewrite on_world_run. simpl f_world. simpl f_data. simpl f_header.
  unfold Fs.writeto.
  destruct mask; destruct (Fs.lookup (expanduser fname) (files (f_world fr)));
    reflexivity.
Qed.

(** C10: when [write] proceeds with [fix_invalid], the caller's array
    holds [filled_value] wherever it held NaN and is otherwise as it was,
    and the caller's header is the header [headersqueeze] leaves behind,
    whether or not the call then completes.  For a header and array that
    satisfy the Array invariant, every axis carrying its six cards and at
    least one axis having length one, that header differs from the one
    passed in: its NAXIS card, which was the number of axes, is the number
    of axes longer than one, and (all lengths being at least one) the cards
    of every axis that is kept sit under its compacted index; the call
    then returns 1 or raises because the file exists.  When [write]
    refuses, it returns 0 and the caller's array and header are unchanged. *)
Theorem write_mutates_arguments (fname : string) (mask : option ndarray)
  (filled_value : float) (kwargs : list (string * value)) (fr : frame) :
  (3 < ndim (f_data fr) - count_ones (shape (f_data fr)) ->
   forall fix_invalid,
     write expanduser astype_uint8 fname mask fix_invalid filled_value kwargs fr
     = (Ok 0%Z, fr)) /\
  (ndim (f_data fr) - count_ones (shape (f_data fr)) <= 3 ->
   forall r fr',
     write expanduser astype_uint8 fname mask true filled_value kwargs fr = (r, fr') ->
     f_data fr' = fill_nan filled_value (f_data fr) /\
     flat (f_data fr')
     = map (fun s => if PrimFloat.is_nan s then filled_value else s) (flat (f_data fr)) /\
     f_header fr'
     = snd (headersqueeze (fill_nan filled_value (f_data fr)) (f_header fr)) /\
     (array_invariant (f_header fr) (f_data fr) ->
      axis_cards (f_header fr) (f_data fr) ->
      count_ones (shape (f_data fr)) <> 0 ->
      (r = Ok 1%Z \/ r = Raise OSError) /\
      Hdr.get "NAXIS" (f_header fr) = Some (VInt (Z.of_nat (ndim (f_data fr)))) /\
      Hdr.get "NAXIS" (f_header fr')
      = Some (VInt (Z.of_nat (ndim (f_data fr) - count_ones (shape (f_data fr))))) /\
      f_header fr' <> f_header fr /\
      (Forall (fun d => 1 <= d) (shape (f_data fr)) ->
       forall i k, 1 <= i <= ndim (f_data fr) -> In k keys2chng ->
         axis_len (rev (shape (f_data fr))) i <> 1 ->
         Hdr.get (k ++ PyStr.fmt_d (compact_index (rev (shape (f_data fr))) i))%string
                 (f_header fr')
         = Hdr.get (k ++ PyStr.fmt_d i)%string (f_header fr)))).
Proof.
  split.
  - intros H fix_invalid. apply write_refusal. exact H.
  - intros H r fr' W. rewrite write_run in W by exact H. cbv zeta in W.
    set (data0 := fill_nan filled_value (f_data fr)) in *.
    assert (Base : f_data fr' = data0 /\
                   f_header fr' = snd (headersqueeze data0 (f_header fr))).
    { destruct (headersqueeze data0 (f_header fr)) as [[d'|e] h'].
      - destruct (Fs.lookup (expanduser fname) (files (f_world fr)));
          inversion W; subst; simpl; auto.
      - inversion W; subst; simpl; auto. }
    destruct Base as [Bd Bh].
    split; [exact Bd|]. split; [rewrite Bd; reflexivity|]. split; [exact Bh|].
    intros Inv Cards Z.
    destruct (headersqueeze_returns (f_header fr) data0) as (d' & h' & S).
    { exact Cards. }
    rewrite S in W, Bh. simpl in Bh.
    assert (Zn : count_ones (shape data0) <> 0) by exact Z.
    destruct (headersqueeze_steps _ _ _ _ Zn S) as (ha & hp & _ & _ & Eh & _).
    assert (Nx : Hdr.get "NAXIS" (f_header fr')
                 = Some (VInt (Z.of_nat (ndim (f_data fr)
                                         - count_ones (shape (f_data fr)))))).
    { rewrite Bh, Eh. apply get_set_same. }
    split.
    { destruct (Fs.lookup (expanduser fname) (files (f_world fr)));
        inversion W; auto. }
    split; [apply Inv|]. split; [exact Nx|]. split.
    { intros E. rewrite E in Nx. destruct Inv as [I0 _]. rewrite I0 in Nx.
      inversion Nx as [Q]. apply Nat2Z.inj in Q.
      assert (Le : count_ones (shape (f_data fr)) <= ndim (f_data fr)).
      { unfold count_ones, ndim. apply filter_length_le. }
      lia. }
    intros P i k Hi Ik Ki. rewrite Bh.
    apply (headersqueeze_moves_axis (f_header fr) h' data0 d' P S i k Hi Ik Ki).
Qed.

End WriteProperties.

Lemma write_refuses_more_than_3d_witness :
  exists fr',
    write (fun p => p) (fun m => m) "out.fits" None true 0%float []
      {| f_data := zeros [4; 4; 4; 4]; f_header := [("NAXIS", VInt 4)];
         f_world := {| files := []; stdout := [] |} |}
    = (Ok 0%Z, fr') /\
    files (f_world fr') = [] /\
    Fs.lookup "out.fits" (files (f_world fr')) = None.
Proof.
  apply (write_refuses_more_than_3d (fun p => p) (fun m => m) "out.fits" None true
           0%float []
           {| f_data := zeros [4; 4; 4; 4]; f_header := [("NAXIS", VInt 4)];
              f_world := {| files := []; stdout := [] |} |}).
  vm_compute. lia.
Defined.

Lemma write_mutates_arguments_witness :
  fst (write (fun p => p) (fun m => m) "out.fits" None true 0%float [] nan_frame)
  = Ok 1%Z /\
  flat (f_data (snd (write (fun p => p) (fun m => m) "out.fits" None true 0%float []
                       nan_frame)))
  = [0; 1; 2; 3; 4; 5]%float /\
  Hdr.get "NAXIS" (f_header nan_frame) = Some (VInt 3) /\
  Hdr.get "NAXIS"
    (f_header (snd (write (fun p => p) (fun m => m) "out.fits" None true 0%float []
                      nan_frame)))
  = Some (VInt 2) /\
  f_header (snd (write (fun p => p) (fun m => m) "out.fits" None true 0%float []
                   nan_frame))
  <> f_header nan_frame /\
  Hdr.get "CTYPE2"
    (f_header (snd (write (fun p => p) (fun m => m) "out.fits" None true 0%float []
                      nan_frame)))
  = Some (VStr "FREQ").
Proof.
  destruct (write_mutates_arguments (fun p => p) (fun m => m) "out.fits" None 0%float []
              nan_frame) as [_ P].
  destruct (write (fun p => p) (fun m => m) "out.fits" None true 0%float [] nan_frame)
    as [r fr'] eqn:W.
  destruct (P ltac:(vm_compute; lia) r fr' eq_refl) as (_ & F & _ & M).
  assert (I : array_invariant (f_header nan_frame) (f_data nan_frame)).
  { split; [reflexivity|]. intros i Hi. change (1 <= i <= 3) in Hi.
    assert (E : i = 1 \/ i = 2 \/ i = 3) by lia.
    destruct E as [-> | [-> | ->]]; reflexivity. }
  assert (C : axis_cards (f_header nan_frame) (f_data nan_frame)).
  { intros i Hi. change (1 <= i <= 3) in Hi.
    assert (E : i = 1 \/ i = 2 \/ i = 3) by lia.
    destruct E as [-> | [-> | ->]];
      (split; [|eexists; reflexivity]);
      intros k Ik; unfold keys2chng in Ik; simpl in Ik;
      repeat (destruct Ik as [<-|Ik]; [vm_compute; discriminate|]); destruct Ik. }
  destruct (M I C ltac:(vm_compute; discriminate)) as (_ & N0 & N1 & D & A).
  simpl fst. simpl snd.
  split; [vm_compute in W; inversion W; reflexivity|].
  split; [exact F|]. split; [exact N0|]. split; [exact N1|]. split; [exact D|].
  specialize (A ltac:(repeat constructor) 3 "CTYPE").
  change (compact_index (rev (shape (f_data nan_frame))) 3) with 2 in A.
  change ("CTYPE" ++ PyStr.fmt_d 2)%string with "CTYPE2" in A.
  rewrite A; [reflexivity | vm_compute; lia | vm_compute; tauto | vm_compute; discriminate].
Defined.

(* ----------------------------------------------------------------- *)
(** ** wrap *)

Section WrapProperties.

Variable expanduser : string -> string.
Variable astype_uint8 : ndarray -> ndarray.
Variable allbd_name : value -> value -> option string.

(** C8: with at most one path, [wrap] prints its diagnostic and returns
    the empty string; it raises nothing and the files are left as they
    were. *)
Theorem wrap_needs_two_files (fitsfiles : pathlist) (outfitsfile : option string)
  (docompress : bool) (mask : option ndarray) (fix_invalid : bool)
  (filled_value : float) (observatory : option value)
  (imres : option (list (float * float))) (verbose : bool)
  (kwargs : list (string * value)) (w : world) :
  List.length (paths fitsfiles) <= 1 ->
  wrap expanduser astype_uint8 allbd_name fitsfiles outfitsfile docompress mask
       fix_invalid filled_value observatory imres verbose kwargs w
  = (Ok "",
     {| files := files w;
        stdout := stdout w ++
                  [Text "There is only one files in the fits file list. wrap is aborted!"] |}).
Proof.
  intros H. unfold wrap. apply Nat.leb_le in H. rewrite H. reflexivity.
Qed.

End WrapProperties.

Lemma wrap_needs_two_files_witness :
  wrap (fun p => p) (fun m => m) (fun _ _ => None) (PyList ["a.fits"]) None true None
       true 0%float None None true [] {| files := []; stdout := [] |}
  = (Ok "",
     {| files := [];
        stdout := [Text "There is only one files in the fits file list. wrap is aborted!"] |}).
Proof.
  apply (wrap_needs_two_files (fun p => p) (fun m => m) (fun _ _ => None)
           (PyList ["a.fits"]) None true None true 0%float None None true []
           {| files := []; stdout := [] |}).
  simpl. lia.
Defined.

(** The spacing of the scenario: the gaps 2 GHz over two slots and 1 GHz
    over one slot average to 1 GHz, which is also the span 3 GHz over the
    three slots. *)
Example mean_spacing_scenario :
  mean_spacing [1e9; 3e9; 4e9]%float [0; 2; 3] = 1e9%float /\
  PrimFloat.div (PrimFloat.sub 4e9 1e9) (float_of_Z (3 - 0)) = 1e9%float.
Proof. split; vm_compute; reflexivity. Qed.

(** The reordering statement of the branch for sources without frequency
    axis raises whenever the number of existing files is neither one nor
    the number of band slots. *)
Lemma reorder_bands_mismatch {S : Type} (cube : ndarray) (npol nbd ny nx pidx : nat)
  (ind : list nat) (s : S) :
  shape cube = [npol; nbd; ny; nx] ->
  pidx < npol ->
  Forall (fun j => j < nbd) ind ->
  List.length ind <> nbd -> List.length ind <> 1 ->
  reorder_bands cube pidx ind s = (Raise (ValueError "broadcast"), s).
Proof.
  intros Sh Hp Hi N1 N2. unfold reorder_bands. rewrite Sh.
  assert (E1 : (pidx <? npol)%nat = true) by (apply Nat.ltb_lt; exact Hp).
  assert (E2 : forallb (fun j => (j <? nbd)%nat) ind = true).
  { apply forallb_forall. rewrite Forall_forall in Hi.
    intros j Ij. apply Nat.ltb_lt. apply Hi. exact Ij. }
  rewrite E1, E2. cbn [andb].
  unfold broadcast_to. cbn [shape List.length Nat.sub strip_ones repeat app compatible].
  apply Nat.eqb_neq in N1, N2. rewrite N1, N2. reflexivity.
Qed.

(** The branch for four-dimensional sources meets the band-merge scenario:
    CDELT3 is 1 GHz, slot 1 of the cube is zero and slots 0, 2 and 3 hold
    the images of the three files. *)
Lemma wrap_missing_band_4d :
  exists w' h cube,
    wrap_bands bands_4d = (Ok "allbd.fits", w') /\
    written_image "allbd.fits" w' = Some (h, cube) /\
    Hdr.get "CDELT3" h = Some (VFloat 1e9) /\
    shape cube = [1; 4; 2; 2] /\
    plane cube 0 0 = band_image 10 /\
    plane cube 0 1 = [0%float; 0%float; 0%float; 0%float] /\
    plane cube 0 2 = band_image 30 /\
    plane cube 0 3 = band_image 40.
Proof.
  eexists. eexists. eexists.
  split; [vm_compute; reflexivity|].
  split; [vm_compute; reflexivity|].
  repeat split; vm_compute; reflexivity.
Qed.

(** C2, at the failing input: when the three existing files are
    two-dimensional images (no frequency axis, so the template header has
    NAXIS = 2), [wrap] raises at [data[pidx, ...] = data[pidx, indfreq]]:
    the three selected bands do not broadcast into the four slots.  No
    CDELT3 is computed and no cube is written. *)
Theorem wrap_missing_band_2d_raises :
  fst (wrap_bands bands_2d) = Raise (ValueError "broadcast") /\
  (forall h cube, written_image "allbd.fits" (snd (wrap_bands bands_2d)) = Some (h, cube) ->
     Hdr.get "CDELT3" h = None /\ shape cube = [2; 2]).
Proof.
  split; [vm_compute; reflexivity|].
  intros h cube H. vm_compute in H. inversion H. subst. split; reflexivity.
Qed.

(* ----------------------------------------------------------------- *)
(** ** read *)

Section ReadProperties.

Variable refmap : Type.
Variable Map : ndarray -> header -> option refmap.

Lemma card_ok {S : Type} (h : header) (k : string) (v : value) (s s' : S) :
  card h k s = (Ok v, s') -> Hdr.get k h = Some v /\ s' = s.
Proof.
  unfold card. destruct (Hdr.get k h); intros H; inversion H. auto.
Qed.

Lemma card_of_get {S : Type} (h : header) (k : string) (v : value) (s : S) :
  Hdr.get k h = Some v -> card h k s = (Ok v, s).
Proof. unfold card. intros ->. reflexivity. Qed.

Lemma meta_get_set_same (k : string) (v : pyval refmap) (m : meta refmap) :
  meta_get refmap k (meta_set refmap k v m) = Some v.
Proof.
  induction m as [|[k' v'] r IH]; simpl.
  - rewrite String.eqb_refl. reflexivity.
  - destruct (String.eqb k' k) eqn:E; simpl; rewrite E; [reflexivity | exact IH].
Qed.

Lemma meta_get_set_other (k k' : string) (v : pyval refmap) (m : meta refmap) :
  String.eqb k' k = false ->
  meta_get refmap k (meta_set refmap k' v m) = meta_get refmap k m.
Proof.
  intros N. induction m as [|[k0 v0] r IH]; simpl.
  - rewrite N. reflexivity.
  - destruct (String.eqb_spec k0 k'); simpl.
    + subst k0. rewrite N. reflexivity.
    + rewrite IH. reflexivity.
Qed.

(** The axis scan finds no frequency axis where there is none, and
    prints nothing. *)
Lemma read_axes_no_freq (h : header) (n len : nat) :
  forall (a : nat) (ax ax' : axes) (w w' : world),
  for_fold (seq a len) (read_axis h n) ax w = (Ok ax', w') ->
  (forall i s, a + 1 <= i <= a + len ->
     Hdr.get (ctype_key i) h = Some (VStr s) -> PyStr.startswith s "FREQ" = false) ->
  freq_axis ax = None ->
  freq_axis ax' = None /\ w' = w.
Proof.
  induction len as [|len IH]; intros a ax ax' w w' H NF F; simpl in H.
  - apply ret_ok in H. destruct H as [-> ->]. auto.
  - apply bind_ok in H. destruct H as (ax1 & w1 & B & R).
    assert (S1 : freq_axis ax1 = None /\ w1 = w).
    { unfold read_axis in B.
      apply bind_ok in B. destruct B as (v & s1 & C & B).
      apply card_ok in C. destruct C as [C ->].
      apply bind_ok in B. destruct B as (isf & s2 & Sf & B).
      apply value_startswith_ok in Sf. destruct Sf as (t & -> & -> & ->).
      rewrite (NF (a + 1) t) in B by (try lia; exact C).
      apply bind_ok in B. destruct B as (ax2 & s3 & E & B).
      apply ret_ok in E. destruct E as [-> ->].
      apply bind_ok in B. destruct B as (iss & s4 & Ss & B).
      apply value_startswith_ok in Ss. destruct Ss as (t' & _ & -> & ->).
      destruct (PyStr.startswith t' "STOKES").
      - apply bind_ok in B. destruct B as (nn & s5 & C2 & B).
        apply card_ok in C2. destruct C2 as [_ ->].
        apply ret_ok in B. destruct B as [-> ->]. simpl. auto.
      - apply ret_ok in B. destruct B as [-> ->]. auto. }
    destruct S1 as [F1 ->].
    apply (IH (S a) ax1 ax' w w' R); [|exact F1].
    intros i s Hi. apply NF. lia.
Qed.

Lemma data_ndim_ok {S : Type} (u : hdu) (n : nat) (s s' : S) :
  data_ndim u s = (Ok n, s') -> n = record_ndim u /\ s' = s.
Proof.
  unfold data_ndim, record_ndim. destruct (hdu_payload u); intros H.
  - inversion H.
  - apply ret_ok in H. exact H.
  - apply ret_ok in H. exact H.
Qed.

Lemma readonly_card {S : Type} (h : header) (k : string) : readonly (@card S h k).
Proof. intros s. unfold card. destruct (Hdr.get k h); reflexivity. Qed.

Lemma readonly_as_float {S : Type} (v : value) : readonly (@as_float S v).
Proof. intros s. destruct v; reflexivity. Qed.

Lemma readonly_py_int {S : Type} (v : value) : readonly (@py_int S v).
Proof.
  intros s. destruct v; simpl; try reflexivity.
  - destruct (trunc_float f); reflexivity.
  - destruct (String.eqb s0 "" || String.eqb s0 "-"); [reflexivity|].
    destruct (NilEmpty.int_of_string s0); reflexivity.
Qed.

Lemma readonly_data_ndim {S : Type} (u : hdu) : readonly (@data_ndim S u).
Proof. intros s. unfold data_ndim. destruct (hdu_payload u); reflexivity. Qed.

Lemma readonly_data_image {S : Type} (u : hdu) : readonly (@data_image S u).
Proof. intros s. unfold data_image. destruct (hdu_payload u); reflexivity. Qed.

Ltac readonly_step :=
  first
    [ apply readonly_ret
    | apply readonly_raise
    | apply readonly_card
    | apply readonly_value_startswith
    | apply readonly_as_int
    | apply readonly_as_float
    | apply readonly_py_int
    | apply readonly_data_ndim
    | apply readonly_data_image
    | apply readonly_bind; [|intros]
    | apply readonly_for_fold; intros
    | match goal with
      | |- readonly (match ?x with _ => _ end) => destruct x
      end ].


Lemma readonly_arr_op {S : Type} (fz : Z -> Z -> Z) (ff : float -> float -> float)
  (a b : value) : readonly (@arr_op S fz ff a b).
Proof. unfold arr_op. destruct a, b; repeat readonly_step. Qed.

Lemma readonly_axis_values (c d n : value) : readonly (axis_values c d n).
Proof.
  unfold axis_values, arr_mul, arr_add.
  repeat first [apply readonly_arr_op | readonly_step].
Qed.

Lemma readonly_ones_times (a : list value) (c : value) : readonly (ones_times a c).
Proof.
  unfold ones_times, arr_mul. repeat first [apply readonly_arr_op | readonly_step].
Qed.

Lemma readonly_pol_names_of (p : list value) : readonly (pol_names_of p).
Proof. unfold pol_names_of. repeat readonly_step. Qed.

Lemma readonly_read_axis (h : header) (n idx : nat) (ax : axes) :
  readonly (read_axis h n idx ax).
Proof. unfold read_axis. repeat readonly_step. Qed.

(** Nothing in the [try] block of a record prints or touches a file. *)
Lemma readonly_read_hdu (u : hdu) : readonly (read_hdu refmap Map u).
Proof.
  unfold read_hdu.
  repeat first [ apply readonly_read_axis | apply readonly_axis_values
               | apply readonly_ones_times | apply readonly_pol_names_of
               | readonly_step ].
Qed.

(** The summary of a record without frequency axis carries the RESTFRQ
    card, as stored, as its one reference frequency. *)
Lemma read_hdu_restfrq (u : hdu) (v : value) (w w' : world)
  (m : meta refmap) (data : ndarray) :
  no_freq_axis u ->
  Hdr.get "RESTFRQ" (hdu_header u) = Some v ->
  read_hdu refmap Map u w = (Ok (m, data), w') ->
  meta_get refmap "ref_cfreqs" m = Some (PArr refmap [v]) /\
  meta_get refmap "ref_freqdelts" m = None.
Proof.
  intros NF R H. unfold read_hdu in H.
  apply bind_ok in H. destruct H as (n & w1 & N & H).
  apply data_ndim_ok in N. destruct N as [-> ->].
  apply bind_ok in H. destruct H as (ax & w1 & A & H).
  apply read_axes_no_freq in A; [| |reflexivity].
  2:{ intros i s Hi. apply NF. lia. }
  destruct A as [F ->]. rewrite F in H.
  apply bind_ok in H. destruct H as (m1 & w1 & C & H).
  apply bind_ok in C. destruct C as (r & w2 & C & E).
  apply card_ok in C. destruct C as [C ->]. rewrite R in C. inversion C. subst r.
  apply ret_ok in E. destruct E as [-> ->].
  apply bind_ok in H. destruct H as (m2 & w1 & P & H).
  assert (G : meta_get refmap "ref_cfreqs" m2 = Some (PArr refmap [v]) /\
              meta_get refmap "ref_freqdelts" m2 = None).
  { destruct (pol_axis ax).
    - apply bind_ok in P. destruct P as (? & ? & _ & P).
      apply bind_ok in P. destruct P as (? & ? & _ & P).
      apply bind_ok in P. destruct P as (? & ? & _ & P).
      apply bind_ok in P. destruct P as (? & ? & _ & P).
      apply bind_ok in P. destruct P as (? & ? & _ & P).
      apply ret_ok in P. destruct P as [-> _].
      split; reflexivity.
    - apply ret_ok in P. destruct P as [-> _]. split; reflexivity. }
  destruct G as [G1 G2].
  apply bind_ok in H. destruct H as (a & w3 & _ & H).
  destruct (Map _ _); [|inversion H].
  apply bind_ok in H. destruct H as (nx & w4 & _ & H).
  apply bind_ok in H. destruct H as (ny & w5 & _ & H).
  apply ret_ok in H. destruct H as [H _]. inversion H. subst m data.
  rewrite !meta_get_set_other by reflexivity. auto.
Qed.

Lemma read_axes_plain (u : hdu) (n len : nat) :
  forall (a : nat) (ax : axes) (w : world),
  (forall i, a + 1 <= i <= a + len -> spatial_axis u i) ->
  for_fold (seq a len) (read_axis (hdu_header u) n) ax w = (Ok ax, w).
Proof.
  induction len as [|len IH]; intros a ax w P; simpl; [reflexivity|].
  destruct (P (a + 1)) as (s & G & F & K); [lia|].
  unfold bind at 1, read_axis at 1, bind at 1.
  unfold ctype_key in G. rewrite (card_of_get _ _ _ _ G). simpl.
  unfold bind at 1, ret at 1. rewrite F.
  unfold bind at 1, ret at 1. unfold bind at 1, ret at 1. rewrite K.
  unfold ret at 1. apply IH. intros i Hi. apply P. lia.
Qed.

(** A plain image record with a RESTFRQ card is usable. *)
Lemma read_hdu_plain (u : hdu) (a : ndarray) (w : world) (v nx ny : value) :
  hdu_payload u = Image a ->
  (forall i, 1 <= i <= ndim a -> spatial_axis u i) ->
  Hdr.get "RESTFRQ" (hdu_header u) = Some v ->
  Hdr.get "NAXIS1" (hdu_header u) = Some nx ->
  Hdr.get "NAXIS2" (hdu_header u) = Some ny ->
  (forall x, Map x (hdu_header u) <> None) ->
  exists m, read_hdu refmap Map u w = (Ok (m, fill_nan 0 a), w).
Proof.
  intros P S R N1 N2 T. unfold read_hdu.
  unfold bind at 1, data_ndim at 1. rewrite P. unfold ret at 1.
  unfold bind at 1. rewrite read_axes_plain by (intros i Hi; apply S; lia).
  simpl freq_axis. simpl pol_axis. cbv iota.
  unfold bind at 1. unfold bind at 1. rewrite (card_of_get _ _ _ _ R).
  unfold ret at 1. unfold bind at 1, ret at 1.
  unfold bind at 1, data_image at 1. rewrite P. unfold ret at 1.
  match goal with
  | |- context [Map ?x ?h] => specialize (T x); destruct (Map x h) as [rm|]
  end; [|congruence].
  unfold bind at 1. rewrite (card_of_get _ _ _ _ N1).
  unfold bind at 1. rewrite (card_of_get _ _ _ _ N2).
  eexists. reflexivity.
Qed.

Lemma read_first_record (filepath : string) (verbose : bool) (w : world)
  (u lastu : hdu) (rest : hdulist) (m : meta refmap) (data : ndarray) :
  Fs.lookup filepath (files w) = Some (u :: rest) ->
  final_record (u :: rest) = Some lastu ->
  table_column lastu "cfreqs" = None ->
  read_hdu refmap Map u w = (Ok (m, data), w) ->
  exists w', read refmap Map filepath None verbose w = (Ok (m, Some data), w') /\
             files w' = files w.
Proof.
  intros L F T H. unfold read.
  unfold bind at 1, Fs.open at 1. rewrite L.
  unfold bind at 1, ret at 1.
  unfold bind at 1. simpl read_loop. unfold try_except at 1, bind at 1.
  rewrite H. unfold ret at 1. simpl fst. simpl snd.
  unfold bind at 1, last_hdu at 1. unfold final_record in F.
  destruct (rev (u :: rest)) as [|x l]; [discriminate F|].
  simpl in F. inversion F. subst x. unfold ret at 1. rewrite T.
  destruct verbose.
  - eexists. split; [reflexivity|]. reflexivity.
  - exists w. split; reflexivity.
Qed.

(** C6, amended: for a container whose first record has no axis typed
    FREQ and carries a RESTFRQ card [v], and whose last record has no
    [cfreqs] table, [read] returns the summary of the first record whenever
    that record is usable, and its reference-frequency array is the single
    value [v] as stored, in hertz (1.2e9 for RESTFRQ = 1.2e9, not 1.2); a
    plain image record with NAXIS1 and NAXIS2 cards is usable when the
    map constructor accepts it. *)
Theorem read_restfrq_fallback (filepath : string) (verbose : bool) (w : world)
  (u lastu : hdu) (rest : hdulist) (v : value) :
  Fs.lookup filepath (files w) = Some (u :: rest) ->
  final_record (u :: rest) = Some lastu ->
  table_column lastu "cfreqs" = None ->
  no_freq_axis u ->
  Hdr.get "RESTFRQ" (hdu_header u) = Some v ->
  (forall m data w1,
     read_hdu refmap Map u w = (Ok (m, data), w1) ->
     exists w', read refmap Map filepath None verbose w = (Ok (m, Some data), w') /\
                files w' = files w /\
                meta_get refmap "ref_cfreqs" m = Some (PArr refmap [v])) /\
  (forall a nx ny,
     hdu_payload u = Image a ->
     (forall i, 1 <= i <= ndim a -> spatial_axis u i) ->
     Hdr.get "NAXIS1" (hdu_header u) = Some nx ->
     Hdr.get "NAXIS2" (hdu_header u) = Some ny ->
     (forall x, Map x (hdu_header u) <> None) ->
     exists m w', read refmap Map filepath None verbose w
                  = (Ok (m, Some (fill_nan 0 a)), w') /\
                  meta_get refmap "ref_cfreqs" m = Some (PArr refmap [v])).
Proof.
  intros L F T NF R.
  assert (A : forall m data w1,
     read_hdu refmap Map u w = (Ok (m, data), w1) ->
     exists w', read refmap Map filepath None verbose w = (Ok (m, Some data), w') /\
                files w' = files w /\
                meta_get refmap "ref_cfreqs" m = Some (PArr refmap [v])).
  { intros m data w1 H.
    pose proof (readonly_ok _ _ _ _ (readonly_read_hdu u) H) as ->.
    destruct (read_first_record filepath verbose w u lastu rest m data L F T H)
      as (w' & E & Fw).
    exists w'. split; [exact E|]. split; [exact Fw|].
    apply (read_hdu_restfrq u v w w m data NF R H). }
  split; [exact A|].
  intros a nx ny P S N1 N2 M.
  destruct (read_hdu_plain u a w v nx ny P S R N1 N2 M) as (m & H).
  destruct (A m _ _ H) as (w' & E & _ & G).
  exists m, w'. auto.
Qed.

End ReadProperties.

(** C6 as written fails: for RESTFRQ = 1.2e9 the reference frequency
    [read] returns is 1.2e9, not 1.2. *)
Lemma read_restfrq_not_ghz :
  ~ (forall (refmap : Type) (Map : ndarray -> header -> option refmap)
            (filepath : string) (verbose : bool) (w w' : world)
            (u : hdu) (rest : hdulist) (m : meta refmap) (data : option ndarray),
       Fs.lookup filepath (files w) = Some (u :: rest) ->
       no_freq_axis u ->
       Hdr.get "RESTFRQ" (hdu_header u) = Some (VFloat 1.2e9) ->
       read refmap Map filepath None verbose w = (Ok (m, data), w') ->
       meta_get refmap "ref_cfreqs" m = Some (PArr refmap [VFloat 1.2])).
Proof.
  intros C.
  pose (u := PrimaryHDU
     [("NAXIS", VInt 2); ("NAXIS1", VInt 2); ("NAXIS2", VInt 2);
      ("CTYPE1", VStr "HPLN-TAN"); ("CTYPE2", VStr "HPLT-TAN");
      ("RESTFRQ", VFloat 1.2e9)]
     (Image {| shape := [2; 2]; flat := band_image 10 |})).
  assert (NF : no_freq_axis u).
  { intros i s Hi G. change (1 <= i <= 2) in Hi.
    assert (E : i = 1 \/ i = 2) by lia.
    destruct E as [-> | ->]; vm_compute in G; inversion G; reflexivity. }
  assert (E : exists m data w',
             read unit (fun _ _ => Some tt) "image.fits" None false restfrq_world
             = (Ok (m, data), w') /\
             meta_get unit "ref_cfreqs" m = Some (PArr unit [VFloat 1.2e9])).
  { eexists. eexists. eexists. split; vm_compute; reflexivity. }
  destruct E as (m & data & w' & E & G).
  specialize (C unit (fun _ _ => Some tt) "image.fits" false restfrq_world w' u []
                m data eq_refl NF eq_refl E).
  rewrite G in C. discriminate C.
Qed.

Lemma read_restfrq_fallback_witness :
  exists m w',
    read unit (fun _ _ => Some tt) "image.fits" None false restfrq_world
    = (Ok (m, Some (fill_nan 0 {| shape := [2; 2]; flat := band_image 10 |})), w') /\
    meta_get unit "ref_cfreqs" m = Some (PArr unit [VFloat 1.2e9]).
Proof.
  refine (proj2 (read_restfrq_fallback unit (fun _ _ => Some tt) "image.fits" false
                   restfrq_world _ _ [] (VFloat 1.2e9) eq_refl eq_refl eq_refl _ eq_refl)
            _ (VInt 2) (VInt 2) eq_refl _ eq_refl eq_refl _).
  - intros i s Hi G. change (1 <= i <= 2) in Hi.
    assert (E : i = 1 \/ i = 2) by lia.
    destruct E as [-> | ->]; vm_compute in G; inversion G; reflexivity.
  - intros i Hi. change (1 <= i <= 2) in Hi.
    assert (E : i = 1 \/ i = 2) by lia.
    destruct E as [-> | ->]; eexists; (split; [vm_compute; reflexivity|]);
      split; reflexivity.
  - intros x. discriminate.
Defined.

(* ================================================================= *)
(** * Further properties *)

Lemma canonical_is_pc (k : string) : is_pc (canonical_of k) = true.
Proof.
  unfold is_pc, canonical_of, PyStr.startswith. simpl.
  destruct (PyStr.upper (pc_suffix k)); reflexivity.
Qed.

Lemma other_cards_set (k : string) (v : value) (h : header) :
  is_pc k = true -> other_cards (Hdr.set k v h) = other_cards h.
Proof.
  intros P. unfold other_cards. induction h as [|[k' v'] r IH]; simpl.
  - rewrite P. reflexivity.
  - destruct (String.eqb_spec k' k) as [->|N]; simpl.
    + rewrite P. reflexivity.
    + rewrite IH. reflexivity.
Qed.

Lemma other_cards_kept (h : header) : other_cards (filter kept h) = other_cards h.
Proof.
  unfold other_cards. induction h as [|[k v] r IH]; simpl; [reflexivity|].
  unfold kept at 1. unfold legacy_pc. simpl.
  destruct (is_pc k) eqn:P; simpl.
  - destruct (is_pc0 k); simpl; [rewrite P; simpl|]; exact IH.
  - rewrite P. simpl. rewrite IH. reflexivity.
Qed.

Lemma headerfix_loop_other_cards (f : bool) (ks : list string) :
  forall (acc : list string) (h h1 : header) (r : result (list string)),
  for_fold ks (headerfix_body f) acc h = (r, h1) ->
  other_cards h1 = other_cards h /\
  (forall x, In x (Hdr.keywords h) -> In x (Hdr.keywords h1)) /\
  (forall x, legacy_pc x = true -> Hdr.get x h1 = Hdr.get x h) /\
  (NoDup (Hdr.keywords h) -> NoDup (Hdr.keywords h1)).
Proof.
  induction ks as [|k ks IH]; intros acc h h1 r H; simpl in H.
  - inversion H. subst. auto.
  - unfold bind in H.
    destruct (headerfix_body f k acc h) as [[a|e] s1] eqn:B.
    + apply headerfix_body_ok in B.
      destruct (IH _ _ _ _ H) as (I1 & I2 & I3 & I4).
      destruct (legacy_pc k).
      * destruct B as (_ & v & -> & _).
        split; [rewrite I1; apply other_cards_set, canonical_is_pc|].
        split; [intros x Ix; apply I2, in_keywords_set; auto|].
        split.
        -- intros x Lx. rewrite I3 by exact Lx. apply get_set_other.
           intros E. rewrite E, canonical_not_legacy in Lx. discriminate.
        -- intros N. apply I4, nodup_set, N.
      * destruct B as (_ & ->). auto.
    + inversion H. subst. clear H.
      unfold headerfix_body in B.
      destruct (PyStr.startswith (PyStr.upper k) "PC"); [|inversion B].
      destruct (negb (PyStr.startswith (PyStr.upper k) "PC0")); [|inversion B].
      unfold bind in B.
      destruct f.
      * destruct (PyStr.split "_" (PyStr.replace "PC" "" (PyStr.upper k)))
          as [|a0 [|b0 [|c0 l0]]]; try (inversion B; subst; auto; fail).
        destruct (String.eqb a0 b0); inversion B.
      * unfold Hdr.getitem in B. destruct (Hdr.get k h); inversion B; subst; auto.
Qed.

(** X7: [headerfix] leaves the cards outside the transform-matrix block as
    they were, in their order. *)
Theorem headerfix_other_cards (PC_coor : bool) (h h' : header) :
  headerfix PC_coor h = (Ok tt, h') ->
  other_cards h' = other_cards h /\
  (forall x, is_pc x = false -> Hdr.get x h' = Hdr.get x h).
Proof.
  intros H. apply headerfix_ok in H. destruct H as (acc & h1 & F & ->).
  destruct (headerfix_loop_other_cards _ _ _ _ _ _ F) as (O & _).
  assert (E : other_cards (filter kept h1) = other_cards h).
  { rewrite other_cards_kept. exact O. }
  split; [exact E|].
  intros x P.
  assert (G : forall l, Hdr.get x (other_cards l) = Hdr.get x l).
  { intros l. unfold other_cards. induction l as [|[k v] r IH]; simpl; [reflexivity|].
    destruct (String.eqb_spec k x) as [->|N]; simpl.
    - rewrite P. simpl. rewrite String.eqb_refl. reflexivity.
    - destruct (is_pc k); simpl; [exact IH|].
      destruct (String.eqb_spec k x); [congruence | exact IH]. }
  rewrite <- G, E, G. reflexivity.
Qed.

Lemma headerfix_other_cards_witness :
  Hdr.get "NAXIS" [("NAXIS", VInt 2); ("PC01_1", VFloat 1.0)] = Some (VInt 2).
Proof.
  rewrite (proj2 (headerfix_other_cards true [("NAXIS", VInt 2); ("PC1_1", VFloat 0.5)]
                    [("NAXIS", VInt 2); ("PC01_1", VFloat 1.0)] eq_refl) "NAXIS" eq_refl).
  reflexivity.
Defined.

(** X8: [headerfix] keeps the keywords free of repetitions. *)
Theorem headerfix_nodup (PC_coor : bool) (h h' : header) :
  NoDup (Hdr.keywords h) -> headerfix PC_coor h = (Ok tt, h') ->
  NoDup (Hdr.keywords h').
Proof.
  intros N H. apply headerfix_ok in H. destruct H as (acc & h1 & F & ->).
  destruct (headerfix_loop_other_cards _ _ _ _ _ _ F) as (_ & _ & _ & N1).
  specialize (N1 N). clear F. induction h1 as [|[k v] r IH]; simpl; [constructor|].
  inversion N1 as [|? ? Hn Hr]. subst.
  destruct (kept (k, v)); [|apply IH; exact Hr].
  simpl. constructor; [|apply IH; exact Hr].
  intros I. apply Hn. unfold Hdr.keywords in *. apply in_map_iff in I.
  destruct I as ([k' v'] & E & I). simpl in E. subst k'.
  apply filter_In in I. apply in_map_iff. exists (k, v'). split; [reflexivity | apply I].
Qed.

Lemma headerfix_nodup_witness :
  NoDup (Hdr.keywords [("NAXIS", VInt 2); ("PC01_1", VFloat 1.0)]).
Proof.
  apply (headerfix_nodup true [("NAXIS", VInt 2); ("PC1_1", VFloat 0.5)]);
    [nodup_keywords | reflexivity].
Defined.

Lemma headerfix_loop_copies (ks : list string) :
  forall (acc acc' : list string) (h h1 : header) (k : string) (v : value),
  for_fold ks (headerfix_body false) acc h = (Ok acc', h1) ->
  (forall k', In k' ks -> legacy_pc k' = true -> canonical_of k' = canonical_of k ->
     Hdr.get k' h = Some v) ->
  (exists k', In k' ks /\ legacy_pc k' = true /\ canonical_of k' = canonical_of k) \/
  Hdr.get (canonical_of k) h = Some v ->
  Hdr.get (canonical_of k) h1 = Some v.
Proof.
  induction ks as [|k0 ks IH]; intros acc acc' h h1 k v H Same P; simpl in H.
  - apply ret_ok in H. destruct H as [_ ->].
    destruct P as [(k' & [] & _)|G]. exact G.
  - apply bind_ok in H. destruct H as (a & s1 & B & F).
    apply headerfix_body_ok in B.
    destruct (legacy_pc k0) eqn:L0.
    + destruct B as (_ & v0 & -> & G0).
      apply (IH _ _ _ _ k v F).
      * intros k' I L E. rewrite get_set_other; [apply Same; simpl; auto|].
        intros X. rewrite X, canonical_not_legacy in L. discriminate.
      * destruct (String.eqb_spec (canonical_of k) (canonical_of k0)) as [E|N].
        -- right. rewrite E, get_set_same. rewrite <- G0.
           apply Same; simpl; auto.
        -- destruct P as [(k' & [<-|I] & L & E)|G].
           ++ congruence.
           ++ left. exists k'. auto.
           ++ right. rewrite get_set_other by exact N. exact G.
    + destruct B as (_ & ->).
      apply (IH _ _ _ _ k v F).
      * intros k' I L E. apply Same; simpl; auto.
      * destruct P as [(k' & [<-|I] & L & E)|G]; [congruence | left; exists k'; auto | auto].
Qed.

(** X9: without the reset flag [headerfix] carries the value of a legacy
    card over to the keyword PC0 followed by its index part, provided the
    legacy cards that share the index part carry the same value. *)
Theorem headerfix_copies_value (h h' : header) (k : string) (v : value) :
  headerfix false h = (Ok tt, h') ->
  legacy_pc k = true ->
  Hdr.get k h = Some v ->
  (forall k', In k' (Hdr.keywords h) -> legacy_pc k' = true ->
     canonical_of k' = canonical_of k -> Hdr.get k' h = Some v) ->
  Hdr.get (canonical_of k) h' = Some v.
Proof.
  intros H L G Same. apply headerfix_ok in H. destruct H as (acc & h1 & F & ->).
  rewrite get_kept by apply canonical_not_legacy.
  apply (headerfix_loop_copies _ _ _ _ _ k v F Same).
  left. exists k. split; [|auto]. apply get_in. congruence.
Qed.

Lemma headerfix_copies_value_witness :
  Hdr.get "PC01_2" [("NAXIS", VInt 2); ("PC01_2", VFloat 0.5)] = Some (VFloat 0.5).
Proof.
  apply (headerfix_copies_value [("NAXIS", VInt 2); ("PC1_2", VFloat 0.5)]
           [("NAXIS", VInt 2); ("PC01_2", VFloat 0.5)] "PC1_2" (VFloat 0.5)
           eq_refl eq_refl eq_refl).
  intros k' [<-|[<-|[]]] L E; [discriminate L | reflexivity].
Defined.

Lemma headerfix_loop_unpack (ks : list string) :
  forall (acc : list string) (h : header),
  (forall k, In k ks -> In k (Hdr.keywords h)) ->
  (exists k, In k ks /\ legacy_pc k = true /\ reset_value (pc_suffix k) = None) ->
  exists h1, for_fold ks (headerfix_body true) acc h = (Raise (ValueError "unpack"), h1).
Proof.
  induction ks as [|k0 ks IH]; intros acc h I (k & Ik & L & R).
  - destruct Ik.
  - simpl. unfold bind.
    destruct (headerfix_body true k0 acc h) as [[a|e] s1] eqn:B.
    + apply IH.
      * intros k1 I1. apply headerfix_body_ok in B.
        destruct (legacy_pc k0).
        -- destruct B as (_ & v & -> & _). apply in_keywords_set. left.
           apply I. right. exact I1.
        -- destruct B as (_ & ->). apply I. right. exact I1.
      * destruct Ik as [<-|Ik]; [|exists k; auto].
        apply headerfix_body_ok in B. rewrite L in B.
        destruct B as (_ & v & _ & Rv). congruence.
    + exists s1. f_equal.
      unfold headerfix_body in B.
      destruct (PyStr.startswith (PyStr.upper k0) "PC"); [|inversion B].
      destruct (negb (PyStr.startswith (PyStr.upper k0) "PC0")); [|inversion B].
      unfold bind in B.
      destruct (PyStr.split "_" (PyStr.replace "PC" "" (PyStr.upper k0)))
        as [|a0 [|b0 [|c0 l0]]]; try (inversion B; reflexivity).
      destruct (String.eqb a0 b0); inversion B.
Qed.

(** X10: under the reset flag [headerfix] raises ValueError as soon as the
    header has a legacy keyword whose index part does not split in two at
    an underscore (such as PCOUNT); no card has been removed then, and the
    cards outside the transform-matrix block are as they were. *)
Theorem headerfix_reset_unpack (h : header) (k : string) :
  In k (Hdr.keywords h) -> legacy_pc k = true -> reset_value (pc_suffix k) = None ->
  exists h1,
    headerfix true h = (Raise (ValueError "unpack"), h1) /\
    (forall x, In x (Hdr.keywords h) -> In x (Hdr.keywords h1)) /\
    other_cards h1 = other_cards h.
Proof.
  intros I L R.
  destruct (headerfix_loop_unpack (Hdr.keywords h) [] h (fun k I => I)) as (h1 & F).
  { exists k. auto. }
  exists h1. split.
  - unfold headerfix, bind at 1, Hdr.keys. unfold bind. rewrite F. reflexivity.
  - destruct (headerfix_loop_other_cards _ _ _ _ _ _ F) as (O & K & _). auto.
Qed.

Lemma headerfix_reset_unpack_witness :
  exists h1,
    headerfix true [("PCOUNT", VInt 0); ("PC1_1", VFloat 0.5)]
    = (Raise (ValueError "unpack"), h1) /\
    (forall x, In x ["PCOUNT"; "PC1_1"] -> In x (Hdr.keywords h1)) /\
    other_cards h1 = [].
Proof.
  apply (headerfix_reset_unpack [("PCOUNT", VInt 0); ("PC1_1", VFloat 0.5)] "PCOUNT");
    [left; reflexivity | reflexivity | reflexivity].
Defined.

(* ----------------------------------------------------------------- *)
(** ** headerparse: the cards it needs *)

Lemma scan_step (a : nat) (ax : option nat) (h : header) :
  headerparse_scan a ax h
  = match Hdr.get (ctype_key a) h with
    | None => (Raise (KeyError (ctype_key a)), h)
    | Some (VStr s) => (Ok (if PyStr.startswith s "STOKES" then Some a else ax), h)
    | Some _ => (Raise AttributeError, h)
    end.
Proof.
  unfold headerparse_scan, bind, Hdr.getitem, ctype_key.
  destruct (Hdr.get ("CTYPE" ++ PyStr.fmt_d a)%string h) as [[z|f|s|b]|]; reflexivity.
Qed.

Lemma scan_raises (len : nat) :
  forall (a i : nat) (ax : option nat) (h : header),
  a <= i < a + len ->
  (forall j, a <= j < i -> exists s, Hdr.get (ctype_key j) h = Some (VStr s)) ->
  (Hdr.get (ctype_key i) h = None ->
   for_fold (seq a len) headerparse_scan ax h = (Raise (KeyError (ctype_key i)), h)) /\
  (forall v, Hdr.get (ctype_key i) h = Some v -> (forall s, v <> VStr s) ->
   for_fold (seq a len) headerparse_scan ax h = (Raise AttributeError, h)).
Proof.
  induction len as [|len IH]; intros a i ax h Hi P; [lia|].
  cbn [seq for_fold]. unfold bind. rewrite scan_step.
  destruct (Nat.eq_dec i a) as [->|N].
  - split.
    + intros G. rewrite G. reflexivity.
    + intros v G Ns. rewrite G.
      destruct v; try reflexivity. exfalso. apply (Ns s). reflexivity.
  - destruct (P a) as (s & G); [lia|]. rewrite G.
    apply IH; [lia|]. intros j Hj. apply P. lia.
Qed.

(** X11: [headerparse] raises KeyError when the NAXIS card is missing or
    when, the earlier axes having string type cards, the type card of an
    axis within NAXIS is missing; it raises AttributeError when that card is
    not a string.  The header is left as it was. *)
Theorem headerparse_raises (h : header) :
  (Hdr.get "NAXIS" h = None -> headerparse h = (Raise (KeyError "NAXIS"), h)) /\
  (forall n i,
     Hdr.get "NAXIS" h = Some (VInt n) -> 1 <= i <= Z.to_nat n ->
     (forall j, 1 <= j < i -> exists s, Hdr.get (ctype_key j) h = Some (VStr s)) ->
     (Hdr.get (ctype_key i) h = None ->
      headerparse h = (Raise (KeyError (ctype_key i)), h)) /\
     (forall v, Hdr.get (ctype_key i) h = Some v -> (forall s, v <> VStr s) ->
      headerparse h = (Raise AttributeError, h))).
Proof.
  split.
  - intros G. unfold headerparse, bind, Hdr.getitem. rewrite G. reflexivity.
  - intros n i N Hi P.
    destruct (scan_raises (Z.to_nat n) 1 i None h ltac:(lia) P) as [A B].
    split.
    + intros G. unfold headerparse, bind at 1. rewrite (getitem_of_get _ _ _ N).
      unfold bind at 1. simpl as_int. unfold ret at 1.
      unfold bind at 1, range1. rewrite (A G). reflexivity.
    + intros v G Ns. unfold headerparse, bind at 1. rewrite (getitem_of_get _ _ _ N).
      unfold bind at 1. simpl as_int. unfold ret at 1.
      unfold bind at 1, range1. rewrite (B v G Ns). reflexivity.
Qed.

Lemma headerparse_raises_witness :
  headerparse [("NAXIS", VInt 2); ("CTYPE1", VStr "FREQ")]
  = (Raise (KeyError "CTYPE2"), [("NAXIS", VInt 2); ("CTYPE1", VStr "FREQ")]).
Proof.
  refine (proj1 (proj2 (headerparse_raises [("NAXIS", VInt 2); ("CTYPE1", VStr "FREQ")])
                   2%Z 2 eq_refl _ _) eq_refl).
  - simpl. lia.
  - intros j Hj. assert (j = 1) as -> by lia. eexists. reflexivity.
Defined.

(* ----------------------------------------------------------------- *)
(** ** write: the file it creates *)

Section WriteFiles.

Variable expanduser : string -> string.
Variable astype_uint8 : ndarray -> ndarray.

(** X12: when at most three axes are longer than one, the header
    squeezes and no file of the name exists, [write] returns 1 and leaves
    one new file: an empty primary record, then the compressed image record
    with the squeezed header and the squeezed array (NaN replaced when
    asked), then the mask record when a mask is given.  The record
    constructors of the library are taken to accept what they are given. *)
Theorem write_creates_file (fname : string) (mask : option ndarray) (fix_invalid : bool)
  (filled_value : float) (kwargs : list (string * value)) (fr : frame)
  (d' : ndarray) (h' : header) :
  let data0 := if fix_invalid then fill_nan filled_value (f_data fr) else f_data fr in
  ndim (f_data fr) - count_ones (shape (f_data fr)) <= 3 ->
  headersqueeze data0 (f_header fr) = (Ok d', h') ->
  Fs.lookup (expanduser fname) (files (f_world fr)) = None ->
  d' = squeeze data0 /\
  write expanduser astype_uint8 fname mask fix_invalid filled_value kwargs fr
  = (Ok 1%Z,
     {| f_data := data0; f_header := h';
        f_world :=
          {| files := (expanduser fname,
                       PrimaryHDU [] NoData :: CompImageHDU h' d' kwargs
                       :: match mask with
                          | None => []
                          | Some m => [CompImageHDU [] (astype_uint8 m) kwargs]
                          end) :: files (f_world fr);
             stdout := stdout (f_world fr) |} |}).
Proof.
  intros data0 H S L. split; [apply (headersqueeze_data _ _ _ _ S)|].
  rewrite write_run by exact H. fold data0. rewrite S. cbv zeta. rewrite L. reflexivity.
Qed.

(** X13: whatever [write] does, every file that existed keeps its
    content and nothing is printed; and when a file of the name exists
    already, no file changes and the call does not return 1. *)
Theorem write_keeps_files (fname : string) (mask : option ndarray) (fix_invalid : bool)
  (filled_value : float) (kwargs : list (string * value)) (fr fr' : frame)
  (r : result Z) :
  write expanduser astype_uint8 fname mask fix_invalid filled_value kwargs fr = (r, fr') ->
  (forall q c, Fs.lookup q (files (f_world fr)) = Some c ->
               Fs.lookup q (files (f_world fr')) = Some c) /\
  stdout (f_world fr') = stdout (f_world fr) /\
  (Fs.lookup (expanduser fname) (files (f_world fr)) <> None ->
   files (f_world fr') = files (f_world fr) /\ r <> Ok 1%Z).
Proof.
  intros W.
  destruct (Nat.lt_ge_cases 3 (ndim (f_data fr) - count_ones (shape (f_data fr))))
    as [B|B].
  - rewrite write_refusal in W by exact B. inversion W. subst.
    repeat split; auto. discriminate.
  - rewrite write_run in W by exact B. cbv zeta in W.
    destruct (headersqueeze _ (f_header fr)) as [[d'|e] h'].
    + destruct (Fs.lookup (expanduser fname) (files (f_world fr))) eqn:L;
        inversion W; subst; simpl.
      * repeat split; auto. discriminate.
      * split; [|split; [reflexivity | congruence]].
        intros q c G. destruct (String.eqb_spec (expanduser fname) q) as [<-|_];
          [congruence | exact G].
    + inversion W. subst. simpl. repeat split; auto. discriminate.
Qed.

End WriteFiles.

Lemma write_creates_file_witness :
  exists fr',
    write (fun p => p) (fun m => m) "out.fits" None true 0%float []
      {| f_data := sample_cube; f_header := sample_cube_header;
         f_world := {| files := []; stdout := [] |} |} = (Ok 1%Z, fr') /\
    option_map (fun hl => List.length hl) (Fs.lookup "out.fits" (files (f_world fr')))
    = Some 2.
Proof.
  destruct (headersqueeze (fill_nan 0 sample_cube) sample_cube_header)
    as [[d'|e] h'] eqn:E; [|vm_compute in E; discriminate E].
  destruct (write_creates_file (fun p => p) (fun m => m) "out.fits" None true 0%float []
              {| f_data := sample_cube; f_header := sample_cube_header;
                 f_world := {| files := []; stdout := [] |} |} d' h')
    as [_ W]; [vm_compute; lia | exact E | reflexivity |].
  eexists. split; [exact W|]. reflexivity.
Defined.

Lemma write_keeps_files_witness :
  files (f_world (snd
    (write (fun p => p) (fun m => m) "out.fits" None true 0%float []
       {| f_data := sample_cube; f_header := sample_cube_header;
          f_world := {| files := [("out.fits", [])]; stdout := [] |} |})))
  = [("out.fits", [])].
Proof.
  destruct (write (fun p => p) (fun m => m) "out.fits" None true 0%float []
       {| f_data := sample_cube; f_header := sample_cube_header;
          f_world := {| files := [("out.fits", [])]; stdout := [] |} |})
    as [r fr'] eqn:W.
  destruct (write_keeps_files _ _ _ _ _ _ _ _ _ _ W) as (_ & _ & K).
  apply K. simpl. discriminate.
Defined.

(* ----------------------------------------------------------------- *)
(** ** read: files, records and the side table *)

Lemma keeps_files_bind {A B : Type} (m : M world A) (f : A -> M world B) :
  keeps_files m -> (forall a, keeps_files (f a)) -> keeps_files (bind m f).
Proof.
  intros Hm Hf w. unfold bind. specialize (Hm w).
  destruct (m w) as [[a|e] w1]; simpl in Hm.
  - rewrite Hf. exact Hm.
  - exact Hm.
Qed.

Lemma keeps_files_readonly {A : Type} (m : M world A) : readonly m -> keeps_files m.
Proof. intros R w. rewrite R. reflexivity. Qed.

Lemma keeps_files_print (l : line) : keeps_files (Fs.print l).
Proof. intros w. reflexivity. Qed.

Lemma keeps_files_try {A : Type} (m : M world A) (f : exn -> M world A) :
  keeps_files m -> (forall e, keeps_files (f e)) -> keeps_files (try_except m f).
Proof.
  intros Hm Hf w. unfold try_except. specialize (Hm w).
  destruct (m w) as [[a|e] w1]; simpl in Hm.
  - exact Hm.
  - rewrite Hf. exact Hm.
Qed.

Lemma readonly_try {S A : Type} (m : M S A) (f : exn -> M S A) :
  readonly m -> (forall e, readonly (f e)) -> readonly (try_except m f).
Proof.
  intros Hm Hf s. unfold try_except. specialize (Hm s).
  destruct (m s) as [[a|e] s1]; simpl in Hm; subst s1; [reflexivity | apply Hf].
Qed.

Lemma readonly_open (p : string) : readonly (Fs.open p).
Proof. intros w. unfold Fs.open. destruct (Fs.lookup p (files w)); reflexivity. Qed.

Lemma readonly_py_nth {S A : Type} (l : list A) (i : Z) : readonly (@py_nth S A l i).
Proof.
  intros s. unfold py_nth.
  destruct ((if (i <? 0)%Z then (i + Z.of_nat (List.length l))%Z else i) <? 0)%Z;
    [reflexivity|].
  destruct (nth_error l _); reflexivity.
Qed.

Lemma readonly_last_hdu {S : Type} (hl : hdulist) : readonly (@last_hdu S hl).
Proof. intros s. unfold last_hdu. destruct (rev hl); reflexivity. Qed.


Section ReadFiles.

Variable refmap : Type.
Variable Map : ndarray -> header -> option refmap.

Lemma keeps_files_read_loop (verbose : bool) (us : list (nat * hdu)) :
  keeps_files (read_loop refmap Map verbose us).
Proof.
  induction us as [|[i u] rest IH]; [intros w; reflexivity|].
  cbn [read_loop]. apply keeps_files_try.
  - apply keeps_files_readonly. apply readonly_bind; [apply readonly_read_hdu|].
    intros a. apply readonly_ret.
  - intros e. apply keeps_files_bind; [|intros _; exact IH].
    destruct verbose; [|intros w; reflexivity].
    apply keeps_files_bind; [apply keeps_files_print|].
    intros _. apply keeps_files_print.
Qed.

Lemma readonly_read_loop (us : list (nat * hdu)) :
  readonly (read_loop refmap Map false us).
Proof.
  induction us as [|[i u] rest IH]; [apply readonly_ret|].
  cbn [read_loop]. apply readonly_try.
  - apply readonly_bind; [apply readonly_read_hdu|]. intros a. apply readonly_ret.
  - intros e. apply readonly_bind; [apply readonly_ret | intros _; exact IH].
Qed.

Lemma readonly_select (hl : hdulist) (hdus : option hdus_sel) :
  readonly (match hdus with
            | None => ret hl
            | Some (HdusInt i) => u <- py_nth hl i ;; ret [u]
            | Some (HdusList l) =>
                for_fold l (fun i acc => u <- py_nth hl i ;; ret (acc ++ [u])%list) []
            end : M world hdulist).
Proof.
  destruct hdus as [[i|l]|].
  - apply readonly_bind; [apply readonly_py_nth | intros; apply readonly_ret].
  - apply readonly_for_fold. intros x b.
    apply readonly_bind; [apply readonly_py_nth | intros; apply readonly_ret].
  - apply readonly_ret.
Qed.

(** X14: [read] never creates, removes or changes a file, whether it
    returns or raises; and without [verbose] it prints nothing. *)
Theorem read_keeps_files (filepath : string) (hdus : option hdus_sel) (verbose : bool)
  (w w' : world) (r : result (meta refmap * option ndarray)) :
  read refmap Map filepath hdus verbose w = (r, w') ->
  files w' = files w /\ (verbose = false -> w' = w).
Proof.
  intros H.
  assert (K : keeps_files (read refmap Map filepath hdus verbose)).
  { unfold read.
    apply keeps_files_bind; [apply keeps_files_readonly, readonly_open|]. intros hl.
    apply keeps_files_bind; [apply keeps_files_readonly, readonly_select|]. intros hl2.
    apply keeps_files_bind; [apply keeps_files_read_loop|]. intros [m d].
    apply keeps_files_bind; [apply keeps_files_readonly, readonly_last_hdu|]. intros u.
    destruct (table_column u "cfreqs").
    - apply keeps_files_bind.
      + destruct verbose; [apply keeps_files_print | intros x; reflexivity].
      + intros _. destruct (table_column u "cdelts"); intros x; reflexivity.
    - apply keeps_files_bind; [|intros _ x; reflexivity].
      destruct verbose; [apply keeps_files_print | intros x; reflexivity]. }
  split.
  - specialize (K w). rewrite H in K. exact K.
  - intros ->.
    assert (R : readonly (read refmap Map filepath hdus false)).
    { unfold read.
      apply readonly_bind; [apply readonly_open|]. intros hl.
      apply readonly_bind; [apply readonly_select|]. intros hl2.
      apply readonly_bind; [apply readonly_read_loop|]. intros [m d].
      apply readonly_bind; [apply readonly_last_hdu|]. intros u.
      destruct (table_column u "cfreqs").
      - apply readonly_bind; [apply readonly_ret|].
        intros _. destruct (table_column u "cdelts");
          [apply readonly_ret | apply readonly_raise].
      - apply readonly_bind; apply readonly_ret || (intros; apply readonly_ret). }
    apply (readonly_ok _ _ _ _ R H).
Qed.

(** The loop over the records always returns: what a record raises is
    caught. *)
Lemma read_loop_total (verbose : bool) (us : list (nat * hdu)) :
  forall w, exists m d w', read_loop refmap Map verbose us w = (Ok (m, d), w').
Proof.
  induction us as [|[i u] rest IH]; intros w.
  - do 3 eexists. reflexivity.
  - cbn [read_loop]. unfold try_except, bind at 1.
    destruct (read_hdu refmap Map u w) as [[[m d]|e] w1].
    + do 3 eexists. reflexivity.
    + unfold bind at 1. destruct verbose.
      * unfold bind at 1, Fs.print at 1. unfold Fs.print at 1. apply IH.
      * unfold ret at 1. apply IH.
Qed.





(** X16: for an existing file with at least one record, read without a
    record selector, [read] returns unless the last record has a [cfreqs]
    column and no [cdelts] column (then it raises KeyError); no failure of
    a record makes it raise.  When the last record has both columns they are
    the reference frequencies and widths of the summary, whatever the image
    records say. *)
Theorem read_side_table (filepath : string) (verbose : bool) (w : world)
  (hl : hdulist) (lastu : hdu) :
  Fs.lookup filepath (files w) = Some hl ->
  final_record hl = Some lastu ->
  match table_column lastu "cfreqs", table_column lastu "cdelts" with
  | None, _ =>
      exists m d w', read refmap Map filepath None verbose w = (Ok (m, d), w')
  | Some cf, Some cd =>
      exists m d w',
        read refmap Map filepath None verbose w = (Ok (m, d), w') /\
        meta_get refmap "ref_cfreqs" m = Some (PArr refmap (map VFloat cf)) /\
        meta_get refmap "ref_freqdelts" m = Some (PArr refmap (map VFloat cd))
  | Some _, None =>
      exists w', read refmap Map filepath None verbose w = (Raise (KeyError "cdelts"), w')
  end.
Proof.
  intros L F.
  destruct (read_loop_total verbose (enumerate hl) w) as (m & d & w1 & Lp).
  assert (E : read refmap Map filepath None verbose w
              = match table_column lastu "cfreqs" with
                | Some cf =>
                    (if verbose then
                       Fs.print (Text "FITS file contains an additional frequency axis. Update the frequency information in cfreqs and cdelts. Ignore the original version with equal spacings.")
                     else ret tt) ;;
                    match table_column lastu "cdelts" with
                    | Some cd =>
                        ret (meta_set refmap "ref_freqdelts" (PArr refmap (map VFloat cd))
                               (meta_set refmap "ref_cfreqs" (PArr refmap (map VFloat cf)) m),
                             d)
                    | None => raise (KeyError "cdelts")
                    end
                | None =>
                    (if verbose then
                       Fs.print (Text "FITS file does not have an additional frequency axis. Use the original version with equal spacings.")
                     else ret tt) ;;
                    ret (m, d)
                end w1).
  { unfold read.
    unfold bind at 1, Fs.open at 1. rewrite L.
    unfold bind at 1, ret at 1.
    unfold bind at 1. rewrite Lp.
    unfold bind at 1, last_hdu at 1. unfold final_record in F.
    destruct (rev hl) as [|x l]; [discriminate F|].
    simpl in F. inversion F. subst x. reflexivity. }
  rewrite E. clear E.
  destruct (table_column lastu "cfreqs") as [cf|].
  - destruct (table_column lastu "cdelts") as [cd|].
    + destruct verbose; unfold bind, Fs.print, ret; do 3 eexists;
        (split; [reflexivity|]); split;
        try apply meta_get_set_same;
        (rewrite meta_get_set_other by reflexivity; apply meta_get_set_same).
    + destruct verbose; unfold bind, Fs.print, ret, raise; eexists; reflexivity.
  - destruct verbose; unfold bind, Fs.print, ret; do 3 eexists; reflexivity.
Qed.

End ReadFiles.

Lemma read_keeps_files_witness :
  snd (read unit (fun _ _ => Some tt) "image.fits" None false restfrq_world)
  = restfrq_world.
Proof.
  destruct (read unit (fun _ _ => Some tt) "image.fits" None false restfrq_world)
    as [r w'] eqn:E.
  apply (proj2 (read_keeps_files unit (fun _ _ => Some tt) _ _ _ _ _ _ E) eq_refl).
Defined.


Lemma read_side_table_witness :
  exists m d w',
    read unit (fun _ _ => Some tt) "cube.fits" None false side_table_world
    = (Ok (m, d), w') /\
    meta_get unit "ref_cfreqs" m = Some (PArr unit [VFloat 1e9; VFloat 2e9]) /\
    meta_get unit "ref_freqdelts" m = Some (PArr unit [VFloat 1e8; VFloat 2e8]).
Proof.
  apply (read_side_table unit (fun _ _ => Some tt) "cube.fits" false side_table_world
           _ _ eq_refl eq_refl).
Defined.

(* ----------------------------------------------------------------- *)
(** ** wrap: the order of the files and the files that exist *)

Lemma in_insert_by {A : Type} (lt : A -> A -> bool) (x y : A) (l : list A) :
  In y (insert_by lt x l) <-> y = x \/ In y l.
Proof.
  induction l as [|z l IH]; simpl.
  - split; [intros [E|[]]; auto | intros [E|[]]; auto].
  - destruct (lt x z); simpl.
    + split; [intros [E|I]; auto | intros [E|I]; auto].
    + rewrite IH. split; [intros [E|[E|I]]; auto | intros [E|[E|I]]; auto].
Qed.

Lemma length_insert_by {A : Type} (lt : A -> A -> bool) (x : A) (l : list A) :
  List.length (insert_by lt x l) = S (List.length l).
Proof.
  induction l as [|z l IH]; simpl; [reflexivity|].
  destruct (lt x z); simpl; [reflexivity | rewrite IH; reflexivity].
Qed.

Lemma sort_by_fold {A : Type} (lt : A -> A -> bool) (l : list A) :
  forall acc,
  (forall y, In y (fold_left (fun acc x => insert_by lt x acc) l acc)
             <-> In y l \/ In y acc) /\
  List.length (fold_left (fun acc x => insert_by lt x acc) l acc)
  = List.length l + List.length acc.
Proof.
  induction l as [|x l IH]; intros acc; simpl.
  - split; [intros y; tauto | reflexivity].
  - destruct (IH (insert_by lt x acc)) as [I L]. split.
    + intros y. rewrite I, in_insert_by. split; [intros [H|[H|H]]; auto | intros [[H|H]|H]; auto].
    + rewrite L, length_insert_by. lia.
Qed.

Lemma in_sorted (l : list string) (y : string) : In y (sorted l) <-> In y l.
Proof.
  unfold sorted, sort_by. destruct (sort_by_fold String.ltb l []) as [I _].
  rewrite I. simpl. tauto.
Qed.

Lemma length_sorted (l : list string) : List.length (sorted l) = List.length l.
Proof.
  unfold sorted, sort_by. destruct (sort_by_fold String.ltb l []) as [_ L].
  rewrite L. simpl. lia.
Qed.

Lemma readonly_sort_probe (ff : pathlist) : readonly (sort_probe ff).
Proof.
  unfold sort_probe.
  apply readonly_bind.
  - apply readonly_for_fold. intros f acc.
    apply readonly_bind; [apply readonly_open|]. intros hl.
    apply readonly_bind; [apply readonly_py_nth|]. intros u.
    apply readonly_bind; [apply readonly_card|]. intros v.
    apply readonly_bind; [apply readonly_as_float|]. intros x. apply readonly_ret.
  - intros freqs. destruct ff; [apply readonly_raise|].
    apply readonly_for_fold. intros i acc.
    destruct (nth_error l i); [apply readonly_ret | apply readonly_raise].
Qed.

(** The probe on a Python list always raises. *)
Lemma sort_probe_list (l : list string) (w : world) :
  exists e, sort_probe (PyList l) w = (Raise e, w).
Proof.
  pose proof (readonly_sort_probe (PyList l) w) as R.
  destruct (sort_probe (PyList l) w) as [[a|e] w1] eqn:E; simpl in R; subst w1.
  - exfalso. unfold sort_probe in E. apply bind_ok in E.
    destruct E as (fr & w2 & _ & E). inversion E.
  - exists e. reflexivity.
Qed.

Section WrapFiles.

Variable expanduser : string -> string.
Variable astype_uint8 : ndarray -> ndarray.
Variable allbd_name : value -> value -> option string.

(** X17: for a Python list of two paths or more the sort by frequency
    never takes effect: the [try] block raises whatever the files hold,
    nothing is printed, and [wrap] works on the paths in lexicographic
    order; so two lists with the same sorted form give the same run. *)
Theorem wrap_python_list_order (l : list string) (w : world) :
  (2 <= List.length l ->
   (exists e, sort_probe (PyList l) w = (Raise e, w)) /\
   try_except (sort_probe (PyList l)) (fun _ => ret (sorted l)) w = (Ok (sorted l), w)) /\
  (forall l' outfitsfile docompress mask fix_invalid filled_value observatory imres
          verbose kwargs,
     sorted l = sorted l' ->
     wrap expanduser astype_uint8 allbd_name (PyList l) outfitsfile docompress mask
          fix_invalid filled_value observatory imres verbose kwargs w
     = wrap expanduser astype_uint8 allbd_name (PyList l') outfitsfile docompress mask
          fix_invalid filled_value observatory imres verbose kwargs w).
Proof.
  assert (T : forall l0, try_except (sort_probe (PyList l0)) (fun _ => ret (sorted l0)) w
                         = (Ok (sorted l0), w)).
  { intros l0. unfold try_except. destruct (sort_probe_list l0 w) as (e & ->). reflexivity. }
  split; [intros _; split; [apply sort_probe_list | apply T]|].
  intros l' o dc mk fx fv ob im vb kw E.
  unfold wrap. cbn [paths].
  assert (Ln : List.length l = List.length l').
  { rewrite <- (length_sorted l), <- (length_sorted l'), E. reflexivity. }
  rewrite Ln. destruct (List.length l' <=? 1)%nat; [reflexivity|].
  unfold bind at 1. rewrite T. symmetry. unfold bind at 1. rewrite T, E. reflexivity.
Qed.

Lemma exists_loop_none (w : world) (l : list string) :
  (forall p, In p l -> Fs.lookup p (files w) = None) ->
  forall n acc,
  for_fold (combine (seq n (List.length l)) l)
    (fun (sf : nat * string) (acc : list (nat * string)) =>
       b <- Fs.exists_ (snd sf) ;;
       ret (if b : bool then (acc ++ [sf])%list else acc))
    acc w = (Ok acc, w).
Proof.
  induction l as [|p l IH]; intros N n acc; [reflexivity|].
  cbn [List.length seq combine for_fold].
  unfold bind at 1, bind at 1, Fs.exists_ at 1. cbn [snd].
  rewrite (N p) by (left; reflexivity). unfold ret at 1.
  apply IH. intros q Iq. apply N. right. exact Iq.
Qed.

(** X18: with two paths or more of which none names an existing file,
    [wrap] raises ValueError; nothing is printed and no file is touched. *)
Theorem wrap_no_file_exists (fitsfiles : pathlist) (outfitsfile : option string)
  (docompress : bool) (mask : option ndarray) (fix_invalid : bool)
  (filled_value : float) (observatory : option value)
  (imres : option (list (float * float))) (verbose : bool)
  (kwargs : list (string * value)) (w : world) :
  2 <= List.length (paths fitsfiles) ->
  (forall p, In p (paths fitsfiles) -> Fs.lookup p (files w) = None) ->
  wrap expanduser astype_uint8 allbd_name fitsfiles outfitsfile docompress mask
       fix_invalid filled_value observatory imres verbose kwargs w
  = (Raise (ValueError "None of the input fitsfiles exists!"), w).
Proof.
  intros L N. unfold wrap.
  assert (E : (List.length (paths fitsfiles) <=? 1)%nat = false)
    by (apply Nat.leb_gt; lia).
  rewrite E. clear E.
  assert (T : try_except (sort_probe fitsfiles)
                (fun _ => ret (sorted (paths fitsfiles))) w
              = (Ok (sorted (paths fitsfiles)), w)).
  { unfold try_except.
    pose proof (readonly_sort_probe fitsfiles w) as R.
    destruct (sort_probe fitsfiles w) as [[a|e] w1] eqn:P; simpl in R; subst w1;
      [|reflexivity].
    exfalso. unfold sort_probe in P. apply bind_ok in P.
    destruct P as (fr & w2 & F & _).
    destruct (paths fitsfiles) as [|p rest] eqn:Ep; [simpl in L; lia|].
    cbn [for_fold] in F. apply bind_ok in F. destruct F as (a0 & w3 & F & _).
    apply bind_ok in F. destruct F as (hl & w4 & O & _).
    unfold Fs.open in O. rewrite (N p) in O by (left; reflexivity). inversion O. }
  unfold bind at 1. rewrite T.
  unfold bind at 1, enumerate. rewrite exists_loop_none; [reflexivity|].
  intros p Ip. apply N. apply in_sorted. exact Ip.
Qed.

End WrapFiles.

Lemma wrap_python_list_order_witness :
  wrap (fun p => p) (fun m => m) (fun _ _ => None)
       (PyList ["band3.fits"; "band0.fits"; "band2.fits"; "band1.fits"])
       (Some "allbd.fits") false None true 0%float None None false [] bands_4d
  = wrap_bands bands_4d.
Proof.
  apply (proj2 (wrap_python_list_order (fun p => p) (fun m => m) (fun _ _ => None)
                  ["band3.fits"; "band0.fits"; "band2.fits"; "band1.fits"]
                  bands_4d)).
  vm_compute. reflexivity.
Defined.

Lemma wrap_no_file_exists_witness :
  wrap_bands {| files := []; stdout := [] |}
  = (Raise (ValueError "None of the input fitsfiles exists!"),
     {| files := []; stdout := [] |}).
Proof.
  apply (wrap_no_file_exists (fun p => p) (fun m => m) (fun _ _ => None) band_paths).
  - simpl. lia.
  - intros p _. reflexivity.
Defined.

(** X19: the reordering statement of the branch for sources without
    frequency axis, [data[pidx, ...] = data[pidx, indfreq]], returns exactly
    when the number of existing files is the number of band slots or one;
    otherwise it raises ValueError. *)
Theorem reorder_bands_returns {S : Type} (cube : ndarray) (npol nbd ny nx pidx : nat)
  (ind : list nat) (s : S) :
  shape cube = [npol; nbd; ny; nx] ->
  pidx < npol ->
  Forall (fun j => j < nbd) ind ->
  ((exists cube', reorder_bands cube pidx ind s = (Ok cube', s))
   <-> (List.length ind = nbd \/ List.length ind = 1)) /\
  (List.length ind <> nbd -> List.length ind <> 1 ->
   reorder_bands cube pidx ind s = (Raise (ValueError "broadcast"), s)).
Proof.
  intros Sh Hp Hi.
  assert (M : List.length ind <> nbd -> List.length ind <> 1 ->
              reorder_bands cube pidx ind s = (Raise (ValueError "broadcast"), s)).
  { apply reorder_bands_mismatch with (npol := npol) (ny := ny) (nx := nx); assumption. }
  split; [|exact M]. split.
  - intros (cube' & E).
    destruct (Nat.eq_dec (List.length ind) nbd) as [A|A]; [auto|].
    destruct (Nat.eq_dec (List.length ind) 1) as [B|B]; [auto|].
    rewrite (M A B) in E. discriminate E.
  - intros C. unfold reorder_bands. rewrite Sh.
    assert (E1 : (pidx <? npol)%nat = true) by (apply Nat.ltb_lt; exact Hp).
    assert (E2 : forallb (fun j => (j <? nbd)%nat) ind = true).
    { apply forallb_forall. rewrite Forall_forall in Hi.
      intros j Ij. apply Nat.ltb_lt. apply Hi. exact Ij. }
    rewrite E1, E2. cbn [andb].
    unfold broadcast_to. cbn [shape List.length Nat.sub strip_ones repeat app compatible].
    assert (E3 : (List.length ind =? nbd)%nat || (List.length ind =? 1)%nat = true).
    { apply orb_true_iff. destruct C as [C|C]; [left|right]; apply Nat.eqb_eq; exact C. }
    rewrite E3, !Nat.eqb_refl. cbn [orb andb]. eexists. reflexivity.
Qed.

Lemma reorder_bands_returns_witness :
  reorder_bands (zeros [1; 4; 2; 2]) 0 [0; 2; 3] tt = (Raise (ValueError "broadcast"), tt).
Proof.
  apply (proj2 (reorder_bands_returns (zeros [1; 4; 2; 2]) 1 4 2 2 0 [0; 2; 3] tt
                  eq_refl ltac:(lia) ltac:(repeat constructor; lia)));
    simpl; lia.
Defined.

(* ----------------------------------------------------------------- *)
(** ** wrap: the transform matrix and the file written *)





Section WrapFinish.

Variable expanduser : string -> string.
Variable astype_uint8 : ndarray -> ndarray.


End WrapFinish.


(* ----------------------------------------------------------------- *)
(** ** wrap: the files it touches *)

































Section WrapTouches.

Variable expanduser : string -> string.
Variable astype_uint8 : ndarray -> ndarray.
Variable allbd_name : value -> value -> option string.



End WrapTouches.


(* ----------------------------------------------------------------- *)
(** ** get_bdinfo *)

Lemma py_nth_last {St A : Type} (l : list A) (x : A) (s : St) :
  py_nth (l ++ [x]) (-1) s = (Ok x, s).
Proof.
  unfold py_nth. rewrite length_app. cbn [List.length].
  change (-1 <? 0)%Z with true. cbv iota.
  replace (-1 + Z.of_nat (List.length l + 1))%Z with (Z.of_nat (List.length l)) by lia.
  assert (E : (Z.of_nat (List.length l) <? 0)%Z = false) by (apply Z.ltb_ge; lia).
  rewrite E, Nat2Z.id, nth_error_app2 by lia. rewrite Nat.sub_diag. reflexivity.
Qed.

Lemma snoc_cases {A : Type} (l : list A) :
  l = [] \/ exists r x, l = r ++ [x].
Proof.
  destruct (rev l) as [|x r] eqn:E.
  - left. apply (f_equal (@rev A)) in E. rewrite rev_involutive in E. exact E.
  - right. exists (rev r), x. apply (f_equal (@rev A)) in E.
    rewrite rev_involutive in E. exact E.
Qed.

(** X22: for band centres and widths given as arrays of the same
    non-zero length [n], [get_bdinfo] returns [n] lower and [n] upper bounds
    and [n + 1] bounds in all: the lower bounds followed by the upper bound
    of the last band; both frequency entries are the centres in GHz.  For
    empty arrays it raises IndexError, and for arrays of different lengths
    of which none is one it raises ValueError. *)
Theorem get_bdinfo_bounds {St : Type} (freq bw : list float) (s : St) :
  (List.length freq = List.length bw -> freq <> [] ->
   exists fb,
     get_bdinfo freq bw s = (Ok fb, s) /\
     fb_cfreqs fb = map (fun x => PrimFloat.div x 1e9%float) freq /\
     fb_cfreqs_all fb = fb_cfreqs fb /\
     List.length (fb_bounds_lo fb) = List.length freq /\
     List.length (fb_bounds_hi fb) = List.length freq /\
     List.length (fb_bounds_all fb) = S (List.length freq) /\
     firstn (List.length freq) (fb_bounds_all fb) = fb_bounds_lo fb /\
     exists top, fb_bounds_all fb = fb_bounds_lo fb ++ [top] /\
                 exists r, fb_bounds_hi fb = r ++ [top]) /\
  (freq = [] -> bw = [] -> get_bdinfo freq bw s = (Raise IndexError, s)) /\
  (List.length freq <> List.length bw -> List.length freq <> 1 -> List.length bw <> 1 ->
   get_bdinfo freq bw s = (Raise (ValueError "broadcast"), s)).
Proof.
  split; [|split].
  - intros L N. unfold get_bdinfo.
    set (fghz := map (fun x => PrimFloat.div x 1e9%float) freq).
    set (half := map (fun x => PrimFloat.div x 2.0%float)
                     (map (fun x => PrimFloat.div x 1e9%float) bw)).
    assert (Lh : List.length fghz = List.length half).
    { unfold fghz, half. rewrite !length_map. exact L. }
    assert (Lf : List.length fghz = List.length freq) by (unfold fghz; apply length_map).
    unfold np_binop. apply Nat.eqb_eq in Lh as Eb. rewrite Eb.
    unfold bind at 1, ret at 1. unfold bind at 1, ret at 1.
    set (lo := map (fun p => PrimFloat.sub (fst p) (snd p)) (combine fghz half)).
    set (hi := map (fun p => PrimFloat.add (fst p) (snd p)) (combine fghz half)).
    assert (Llo : List.length lo = List.length freq).
    { unfold lo. rewrite length_map, length_combine. lia. }
    assert (Lhi : List.length hi = List.length freq).
    { unfold hi. rewrite length_map, length_combine. lia. }
    destruct (snoc_cases hi) as [E|(r & top & E)].
    { rewrite E in Lhi. destruct freq; [congruence | discriminate Lhi]. }
    rewrite E. unfold bind at 1. rewrite py_nth_last. unfold ret.
    eexists. split; [reflexivity|].
    cbn [fb_cfreqs fb_cfreqs_all fb_bounds_lo fb_bounds_hi fb_bounds_all].
    split; [reflexivity|]. split; [reflexivity|]. split; [exact Llo|].
    split; [rewrite <- E; exact Lhi|].
    split; [rewrite length_app, Llo; cbn [List.length]; lia|].
    split.
    + rewrite <- Llo. rewrite firstn_app, Nat.sub_diag, firstn_all. cbn [firstn].
      apply List.app_nil_r.
    + exists top. split; [reflexivity|]. exists r. reflexivity.
  - intros -> ->. reflexivity.
  - intros L N1 N2. unfold get_bdinfo, np_binop.
    rewrite !length_map. apply Nat.eqb_neq in L. rewrite L.
    destruct freq as [|x [|x' fr]]; destruct bw as [|y [|y' bt]];
      cbn [List.length] in *; try congruence; reflexivity.
Qed.

Lemma get_bdinfo_bounds_witness :
  exists fb,
    get_bdinfo [1e9; 2e9]%float [2e8; 4e8]%float tt = (Ok fb, tt) /\
    List.length (fb_bounds_all fb) = 3.
Proof.
  destruct (proj1 (get_bdinfo_bounds [1e9; 2e9]%float [2e8; 4e8]%float tt)
              eq_refl ltac:(discriminate))
    as (fb & E & _ & _ & _ & _ & L & _).
  exists fb. split; [exact E | exact L].
Defined.

(* ----------------------------------------------------------------- *)
(** ** The sum of an array *)

Lemma pairwise_sum_step (fuel : nat) (l : list float) :
  pairwise_sum fuel l
  = let n := List.length l in
    if (n <? 8)%nat then fold_left PrimFloat.add l 0%float
    else if (n <=? 128)%nat then
      let (r, rest) := add_rows (n / 8 - 1) (firstn 8 l) (skipn 8 l) in
      fold_left PrimFloat.add rest (sum8 r)
    else
      match fuel with
      | O => 0%float
      | S k =>
          let n2 := (n / 2 - (n / 2) mod 8)%nat in
          PrimFloat.add (pairwise_sum k (firstn n2 l)) (pairwise_sum k (skipn n2 l))
      end.
Proof. destruct fuel; reflexivity. Qed.

(** The length of the array is fuel enough: more changes nothing. *)
Lemma pairwise_sum_fuel (f1 : nat) :
  forall (f2 : nat) (l : list float),
  List.length l <= f1 -> List.length l <= f2 ->
  pairwise_sum f1 l = pairwise_sum f2 l.
Proof.
  induction f1 as [|k1 IH]; intros f2 l L1 L2; rewrite (pairwise_sum_step _ l);
    rewrite (pairwise_sum_step f2 l); cbv zeta.
  - assert (E : (List.length l <? 8)%nat = true) by (apply Nat.ltb_lt; lia).
    rewrite E. reflexivity.
  - destruct (List.length l <? 8)%nat; [reflexivity|].
    destruct (List.length l <=? 128)%nat eqn:B; [reflexivity|].
    apply Nat.leb_gt in B.
    destruct f2 as [|k2]; [lia|].
    set (n := List.length l) in *.
    assert (H2 : n / 2 <= n) by (apply Nat.Div0.div_le_upper_bound; lia).
    assert (H3 : 64 <= n / 2) by (apply Nat.div_le_lower_bound; lia).
    assert (H4 : (n / 2) mod 8 < 8) by (apply Nat.mod_upper_bound; lia).
    assert (H5 : n / 2 < n) by (apply Nat.div_lt; lia).
    f_equal; apply IH; rewrite ?length_firstn, ?length_skipn; fold n; lia.
Qed.

(** With a single existing band file the spacing of the bands is NaN,
    which the header refuses. *)
Example wrap_one_band_4d :
  fst (wrap_bands {| files := [("band2.fits", band_file_4d 3e9 30)]; stdout := [] |})
  = Raise (ValueError "Floating point nan and inf values are not allowed in FITS headers.").
Proof. vm_compute. reflexivity. Qed.
